(** * pyTimeTracker: the time-logging and aggregation engine

    A shallow embedding of [src/pyTimeTracker.py]: the duration text
    handling, the SQLite store behind [self.c] / [self.conn], and the
    handlers [start_project], [start_recording], [stop_project],
    [check_open_projects] and [update_total_time] of [TimeTrackerApp],
    and what its tabs show: the project list, the filter box, the
    records tree with its export, and the Running Project tab.

    Modelling choices, stated once:
    - A text is a [string] of code points below 256 (ASCII and the
      Latin-1 supplement), one [ascii] per code point; texts with other
      characters are outside the model.  On that range the character
      classes are those of CPython: [str.isspace] (and [str.strip]) take
      TAB..CR, FS..US, the blank, U+0085 and U+00A0; [int] skips the same
      without FS..US; [str.isalnum] takes the digits, the letters and the
      numeric characters of both halves.  The literals of this file are
      ASCII.
    - Python integers are [Z].  The interpreter's configurable guard on
      converting numbers of more than 4300 digits is not modelled.
    - A [datetime] is a count of microseconds on the (naive, local)
      calendar; a stored timestamp text ["%Y-%m-%d %H:%M:%S"] is
      represented by its count of whole seconds, on which [strftime]
      followed by [strptime] is the identity.  [timedelta.total_seconds]
      is taken to be exact.
    - The widgets are left out: the line edits and the selected list
      item are arguments of the handlers, a message box is the handler's
      [outcome].
    - SQLite statements fail only for logical reasons (a missing table,
      a UNIQUE constraint); the file itself is reliable.
    - An export is what is handed to the sheet writer once a database is
      connected and a file name chosen; the writer itself is left out. *)

From Stdlib Require Import ZArith List Lia Bool Ascii String Sorted.
From Stdlib Require Import DecimalString DecimalZ DecimalPos.
Import ListNotations.

Open Scope string_scope.
Open Scope Z_scope.

(** ** Exceptions *)

Inductive exn : Type :=
| ValueError          (* int(), tuple unpacking *)
| OperationalError    (* sqlite3: no such table *)
| IntegrityError.     (* sqlite3: UNIQUE constraint failed *)

Inductive result (A : Type) : Type :=
| Ok (a : A)
| Raise (e : exn).

Arguments Ok {A} a.
Arguments Raise {A} e.

Definition bind {A B : Type} (r : result A) (k : A -> result B) : result B :=
  match r with
  | Ok a => k a
  | Raise e => Raise e
  end.

Notation "x <- r ;; k" := (bind r (fun x => k))
  (at level 61, r at next level, right associativity).

(** ** Python text primitives *)

Module Py.

(** [str.isspace], the characters that [str.strip] removes: TAB..CR,
    FS..US, the blank, NEL (U+0085) and the no-break space (U+00A0). *)
Definition isspace (c : ascii) : bool :=
  let n := nat_of_ascii c in
  ((9 <=? n) && (n <=? 13) || (28 <=? n) && (n <=? 31) || (n =? 32)
   || (n =? 133) || (n =? 160))%nat.

(** The blanks [int] skips around a number: those of [Py_ISSPACE]
    (TAB..CR and the blank) and, above U+007F, the Unicode spaces, which
    the conversion turns into blanks first.  The separators FS..US are
    not among them: [int("\x1c1")] raises. *)
Definition int_isspace (c : ascii) : bool :=
  let n := nat_of_ascii c in
  ((9 <=? n) && (n <=? 13) || (n =? 32) || (n =? 133) || (n =? 160))%nat.

(** The decimal digits [int] reads: below U+0100 these are 0..9 only. *)
Definition isdigit (c : ascii) : bool :=
  let n := nat_of_ascii c in ((48 <=? n) && (n <=? 57))%nat.

(** [str.isalnum]: the digits and letters of ASCII and, in the Latin-1
    supplement, the ordinal indicators, the superscript digits, the
    micro sign, the vulgar fractions and the letters U+00C0..U+00FF
    without the multiplication and the division sign. *)
Definition isalnum (c : ascii) : bool :=
  let n := nat_of_ascii c in
  ((48 <=? n) && (n <=? 57) || (65 <=? n) && (n <=? 90)
   || (97 <=? n) && (n <=? 122)
   || (n =? 170) || (178 <=? n) && (n <=? 179) || (n =? 181)
   || (185 <=? n) && (n <=? 186) || (188 <=? n) && (n <=? 190)
   || (192 <=? n) && (n <=? 214) || (216 <=? n) && (n <=? 246)
   || (248 <=? n) && (n <=? 255))%nat.

(** Removing the characters of a class from the left end, from the
    right end and from both. *)
Fixpoint lstrip_by (f : ascii -> bool) (s : string) : string :=
  match s with
  | String c r => if f c then lstrip_by f r else s
  | EmptyString => EmptyString
  end.

Fixpoint rev (s : string) : string :=
  match s with
  | EmptyString => EmptyString
  | String c r => rev r ++ String c EmptyString
  end.

Definition rstrip_by (f : ascii -> bool) (s : string) : string :=
  rev (lstrip_by f (rev s)).

Definition strip_by (f : ascii -> bool) (s : string) : string :=
  rstrip_by f (lstrip_by f s).

(** [s.strip()] *)
Definition strip (s : string) : string := strip_by isspace s.

(** [s.split(sep)] for a one-character separator: never empty. *)
Fixpoint split (sep : ascii) (s : string) : list string :=
  match s with
  | EmptyString => [EmptyString]
  | String c r =>
      if Ascii.eqb c sep then EmptyString :: split sep r
      else match split sep r with
           | p :: ps => String c p :: ps
           | [] => [String c EmptyString]
           end
  end.

(** [s.replace(a, b)] for single characters. *)
Fixpoint replace (a b : ascii) (s : string) : string :=
  match s with
  | EmptyString => EmptyString
  | String c r => String (if Ascii.eqb c a then b else c) (replace a b r)
  end.

Fixpoint filter (f : ascii -> bool) (s : string) : string :=
  match s with
  | EmptyString => EmptyString
  | String c r => if f c then String c (filter f r) else filter f r
  end.

(** [all(f(c) for c in s)] *)
Fixpoint all (f : ascii -> bool) (s : string) : bool :=
  match s with
  | EmptyString => true
  | String c r => f c && all f r
  end.

(** The digit groups of an integer literal: an underscore is accepted
    only between two other characters; the underscores are dropped. *)
Fixpoint ungroup (after_digit : bool) (s : string) : option string :=
  match s with
  | EmptyString => if after_digit then Some EmptyString else None
  | String c r =>
      if Ascii.eqb c "_" then
        if after_digit then ungroup false r else None
      else option_map (String c) (ungroup true r)
  end.

(** [int(s)] on text, base 10: surrounding blanks, an optional sign,
    decimal digits possibly grouped by single underscores. *)
Definition int (s : string) : result Z :=
  let t := strip_by int_isspace s in
  let '(negative, body) :=
    match t with
    | String "-" r => (true, r)
    | String "+" r => (false, r)
    | _ => (false, t)
    end in
  match ungroup false body with
  | None => Raise ValueError
  | Some ds =>
      match NilEmpty.uint_of_string ds with
      | None => Raise ValueError
      | Some d => Ok (if negative then - Z.of_uint d else Z.of_uint d)
      end
  end.

(** ["%d" % z] *)
Definition fmt_d (z : Z) : string := NilZero.string_of_int (Z.to_int z).

Fixpoint zeros (n : nat) : string :=
  match n with
  | O => EmptyString
  | S k => String "0" (zeros k)
  end.

(** ["%0wd" % z] and [f"{z:0wd}"]: zeros go between the sign and the
    digits until the text is [w] characters wide. *)
Definition fmt_0d (w : nat) (z : Z) : string :=
  let digits := fmt_d (Z.abs z) in
  let sign := if (z <? 0)%Z then "-" else "" in
  sign ++ zeros (w - String.length sign - String.length digits)%nat ++ digits.

End Py.

(** ** The module-level helpers (lines 29-37) *)

Definition sanitize_table_name (title : string) : string :=
  "project_" ++
  Py.filter (fun e => Py.isalnum e || Ascii.eqb e "_")
            (Py.replace " " "_" title).

(** [format_time], on the whole seconds of its [timedelta]. *)
Definition format_time (total_seconds : Z) : string :=
  let hours := total_seconds / 3600 in
  let remainder := total_seconds mod 3600 in
  let minutes := remainder / 60 in
  let seconds := remainder mod 60 in
  Py.fmt_0d 2 hours ++ "h " ++ Py.fmt_0d 2 minutes ++ "m " ++
  Py.fmt_0d 2 seconds ++ "s".

(** ** [datetime.timedelta] *)

Module Timedelta.

(** A [timedelta] is its signed count of microseconds; the three
    normalised fields are read off by floor division, as the
    constructor does. *)
Definition t := Z.

Definition days (d : t) : Z := d / 86400000000.
Definition seconds (d : t) : Z := (d / 1000000) mod 86400.
Definition microseconds (d : t) : Z := d mod 1000000.

(** [timedelta.__str__] *)
Definition str (d : t) : string :=
  let mm := seconds d / 60 in
  let ss := seconds d mod 60 in
  let hh := mm / 60 in
  let mm := mm mod 60 in
  let s := Py.fmt_d hh ++ ":" ++ Py.fmt_0d 2 mm ++ ":" ++ Py.fmt_0d 2 ss in
  let s :=
    if days d =? 0 then s
    else Py.fmt_d (days d) ++ " day" ++
         (if Z.abs (days d) =? 1 then "" else "s") ++ ", " ++ s in
  if microseconds d =? 0 then s
  else s ++ "." ++ Py.fmt_0d 6 (microseconds d).

(** [int(d.total_seconds())]: truncation towards zero. *)
Definition int_total_seconds (d : t) : Z := Z.quot d 1000000.

End Timedelta.

(** ** Duration texts (lines 578, 586-587, 593, 775-776) *)

(** [str(duration).split('.')[0]] *)
Definition duration_str (d : Timedelta.t) : string :=
  hd EmptyString (Py.split "." (Timedelta.str d)).

(** The body of the two [try] blocks:
    [h, m, s = map(int, text.split(':'))] and [h * 3600 + m * 60 + s]. *)
Definition hms_seconds (text : string) : result Z :=
  match Py.split ":" text with
  | [a; b; c] =>
      h <- Py.int a ;;
      m <- Py.int b ;;
      s <- Py.int c ;;
      Ok (h * 3600 + m * 60 + s)
  | _ => Raise ValueError
  end.

(** Line 593. *)
Definition cumulative_time_str (n : Z) : string :=
  Py.fmt_0d 2 (n / 3600) ++ ":" ++ Py.fmt_0d 2 ((n mod 3600) / 60) ++ ":" ++
  Py.fmt_0d 2 (n mod 60).

(** ** The SQLite store *)

(** A row of [projects_master]
    ([id INTEGER PRIMARY KEY, title TEXT UNIQUE, details TEXT,
      table_name TEXT UNIQUE]). *)
Module Master.
Record row : Type := mk {
  id : Z;
  title : string;
  details : string;
  table_name : string
}.
End Master.

(** A row of a project's log table
    ([id INTEGER PRIMARY KEY, start_time TEXT, end_time TEXT,
      duration TEXT, cumulative_time TEXT]); [None] is SQL NULL. *)
Module Log.
Record row : Type := mk {
  id : Z;
  start_time : Z;
  end_time : option Z;
  duration : option string;
  cumulative_time : option string
}.

(** [end_time IS NULL] *)
Definition is_open (r : row) : bool :=
  match end_time r with
  | None => true
  | Some _ => false
  end.
End Log.

Module Sqlite.

(** SQLite compares the names of tables without regard to the case of
    ASCII letters; [TEXT] values (the UNIQUE columns, [WHERE title = ?])
    are compared byte for byte. *)
Definition lower (c : ascii) : ascii :=
  let n := nat_of_ascii c in
  if ((65 <=? n) && (n <=? 90))%nat then ascii_of_nat (n + 32) else c.

Fixpoint ident_eqb (a b : string) : bool :=
  match a, b with
  | EmptyString, EmptyString => true
  | String x a', String y b' => Ascii.eqb (lower x) (lower y) && ident_eqb a' b'
  | _, _ => false
  end.

(** The database file: the registry in rowid order and the log tables
    under the names they were created with. *)
Record store : Type := mk {
  projects_master : list Master.row;
  tables : list (string * list Log.row)
}.

Definition empty : store := mk [] [].

Fixpoint find_table (name : string) (ts : list (string * list Log.row))
  : option (list Log.row) :=
  match ts with
  | [] => None
  | (n, rows) :: rest => if ident_eqb n name then Some rows else find_table name rest
  end.

Fixpoint replace_table (name : string) (rows' : list Log.row)
  (ts : list (string * list Log.row)) : list (string * list Log.row) :=
  match ts with
  | [] => []
  | (n, rows) :: rest =>
      if ident_eqb n name then (n, rows') :: rest
      else (n, rows) :: replace_table name rows' rest
  end.

(** The rowid given to an inserted row: one more than the largest in
    use, 1 in an empty table. *)
Definition next_rowid (ids : list Z) : Z :=
  match ids with
  | [] => 1
  | i :: rest => 1 + fold_left Z.max rest i
  end.

(** [SELECT ... FROM '<name>'], every row in rowid order. *)
Definition select_table (name : string) (db : store) : result (list Log.row) :=
  match find_table name (tables db) with
  | Some rows => Ok rows
  | None => Raise OperationalError
  end.

(** [CREATE TABLE IF NOT EXISTS "<name>" (...)] *)
Definition create_table_if_not_exists (name : string) (db : store) : store :=
  match find_table name (tables db) with
  | Some _ => db
  | None => mk (projects_master db) (tables db ++ [(name, [])])%list
  end.

(** [INSERT INTO projects_master (title, details, table_name)
     VALUES (?, ?, ?)]; the result carries [lastrowid]. *)
Definition insert_master (title details table_name : string) (db : store)
  : result (store * Z) :=
  if existsb (fun p => String.eqb (Master.title p) title
                       || String.eqb (Master.table_name p) table_name)
             (projects_master db)
  then Raise IntegrityError
  else
    let rowid := next_rowid (map Master.id (projects_master db)) in
    Ok (mk (projects_master db ++ [Master.mk rowid title details table_name])%list
           (tables db), rowid).

(** [INSERT INTO '<name>' (start_time) VALUES (?)] *)
Definition insert_log (name : string) (start_time : Z) (db : store)
  : result store :=
  match find_table name (tables db) with
  | None => Raise OperationalError
  | Some rows =>
      let r := Log.mk (next_rowid (map Log.id rows)) start_time None None None in
      Ok (mk (projects_master db) (replace_table name (rows ++ [r])%list (tables db)))
  end.

(** [UPDATE '<name>' SET end_time = ?, duration = ?, cumulative_time = ?
     WHERE id = ?] *)
Definition update_log (name : string) (end_time : Z)
  (duration cumulative_time : string) (log_id : Z) (db : store) : result store :=
  match find_table name (tables db) with
  | None => Raise OperationalError
  | Some rows =>
      let set (r : Log.row) :=
        if Log.id r =? log_id
        then Log.mk (Log.id r) (Log.start_time r) (Some end_time)
                    (Some duration) (Some cumulative_time)
        else r in
      Ok (mk (projects_master db) (replace_table name (map set rows) (tables db)))
  end.

(** [SELECT ... FROM projects_master WHERE title = ?], [fetchone()] *)
Definition select_master_by_title (title : string) (db : store)
  : option Master.row :=
  find (fun p => String.eqb (Master.title p) title) (projects_master db).

(** [SELECT ... FROM projects_master WHERE id = ?], [fetchone()] *)
Definition select_master_by_id (proj_id : Z) (db : store) : option Master.row :=
  find (fun p => Master.id p =? proj_id) (projects_master db).

(** [... WHERE end_time IS NULL ORDER BY id DESC LIMIT 1], [fetchone()] *)
Definition select_last_open (rows : list Log.row) : option Log.row :=
  fold_left
    (fun best r =>
       if Log.is_open r then
         match best with
         | Some b => if Log.id b <? Log.id r then Some r else best
         | None => Some r
         end
       else best)
    rows None.

(** [SELECT duration ... WHERE id < ? AND duration IS NOT NULL] *)
Definition select_previous_durations (log_id : Z) (rows : list Log.row)
  : list string :=
  flat_map
    (fun r =>
       match Log.duration r with
       | Some d => if Log.id r <? log_id then [d] else []
       | None => []
       end)
    rows.

(** [SELECT COUNT( * ) ... WHERE end_time IS NULL] *)
Definition count_open (rows : list Log.row) : nat :=
  List.length (List.filter Log.is_open rows).

End Sqlite.

(** ** The application *)

(** [self.conn] with the two attributes that form the running-project
    slot. *)
Record app : Type := mk_app {
  conn : Sqlite.store;
  current_project_id : option Z;
  current_project_table : option string
}.

(** The message box a handler ends with.  The names of the error design
    are used where a message stands for one of its errors. *)
Inductive outcome : Type :=
| Started              (* information: "Started tracking time for project: ..." *)
| Stopped              (* information: "Stopped tracking time for project ID ..." *)
| InputError           (* "Please enter a project title." *)
| DuplicateTitle       (* "A project with this title already exists." *)
| TitleOrTableExists   (* "A project with this title or table name already exists." *)
| AlreadyRunning       (* "This project is already being tracked." *)
| NotRunning           (* "No project is currently running." *)
| NoActiveLog          (* "No active time log found for this project." *)
| ProjectNotFound      (* "Project not found in the database." *)
| SelectProject        (* "Please select a project to start tracking." *)
| OpenProjectFound     (* "An open project was found. Please stop the timer." *)
| DatabaseError        (* critical: a caught sqlite3.Error / Exception *)
| Silent.              (* the handler returns without a message *)

(** Clock readings are microsecond counts; stored timestamps are the
    whole seconds of ["%Y-%m-%d %H:%M:%S"]. *)
Definition strftime (dt : Z) : Z := dt / 1000000.
Definition strptime (text : Z) : Z := text * 1000000.

(** Python truthiness of the two slot attributes. *)
Definition truthy_id (v : option Z) : bool :=
  match v with
  | Some n => negb (n =? 0)
  | None => false
  end.

Definition truthy_str (v : option string) : bool :=
  match v with
  | Some s => negb (String.eqb s "")
  | None => false
  end.

(** [start_project] (lines 515-564); [title_entry] and [details_entry]
    are the texts of the two line edits, [now] is [datetime.now()]. *)
Definition start_project (title_entry details_entry : string) (now : Z)
  (a : app) : outcome * app :=
  let title := Py.strip title_entry in
  let details := Py.strip details_entry in
  if String.eqb title "" then (InputError, a)
  else
    match Sqlite.select_master_by_title title (conn a) with
    | Some _ => (DuplicateTitle, a)
    | None =>
        let table_name := sanitize_table_name title in
        let db1 := Sqlite.create_table_if_not_exists table_name (conn a) in
        match Sqlite.insert_master title details table_name db1 with
        | Raise IntegrityError =>
            (TitleOrTableExists,
             mk_app db1 (current_project_id a) (current_project_table a))
        | Raise _ =>
            (DatabaseError,
             mk_app db1 (current_project_id a) (current_project_table a))
        | Ok (db2, lastrowid) =>
            let start_time := strftime now in
            match Sqlite.insert_log table_name start_time db2 with
            | Ok db3 => (Started, mk_app db3 (Some lastrowid) (Some table_name))
            | Raise _ => (DatabaseError, mk_app db2 (Some lastrowid) (Some table_name))
            end
        end
    end.

(** The loop of lines 583-589 over the fetched durations. *)
Fixpoint sum_previous (previous_durations : list string) (total_seconds : Z) : Z :=
  match previous_durations with
  | [] => total_seconds
  | dur :: rest =>
      match hms_seconds dur with
      | Ok v => sum_previous rest (total_seconds + v)
      | Raise _ => sum_previous rest total_seconds      (* except: continue *)
      end
  end.

(** [stop_project] (lines 566-613). *)
Definition stop_project (now : Z) (a : app) : outcome * app :=
  match current_project_id a, current_project_table a with
  | Some _, Some table =>
      if truthy_id (current_project_id a) && truthy_str (current_project_table a)
      then
        match Sqlite.select_table table (conn a) with
        | Raise _ => (DatabaseError, a)
        | Ok rows =>
            match Sqlite.select_last_open rows with
            | None => (NoActiveLog, a)
            | Some log_entry =>
                let log_id := Log.id log_entry in
                let start_time_dt := strptime (Log.start_time log_entry) in
                let end_time_dt := now in
                let end_time_str := strftime end_time_dt in
                let duration := end_time_dt - start_time_dt in
                let duration_str := duration_str duration in
                let previous_durations :=
                  Sqlite.select_previous_durations log_id rows in
                let total_seconds := sum_previous previous_durations 0 in
                let duration_seconds := Timedelta.int_total_seconds duration in
                let new_cumulative_seconds := total_seconds + duration_seconds in
                let cumulative_time_str :=
                  cumulative_time_str new_cumulative_seconds in
                match Sqlite.update_log table end_time_str duration_str
                        cumulative_time_str log_id (conn a) with
                | Ok db => (Stopped, mk_app db None None)
                | Raise _ => (DatabaseError, a)
                end
            end
        end
      else (NotRunning, a)
  | _, _ => (NotRunning, a)
  end.

(** The placeholder item of the list of available projects. *)
Definition no_available_projects : string := "No available projects to track.".

(** [start_recording] (lines 615-649); [selected] is the text of the
    first selected item of the project list, if any. *)
Definition start_recording (selected : option string) (now : Z) (a : app)
  : outcome * app :=
  match selected with
  | None => (SelectProject, a)
  | Some project_title =>
      if String.eqb project_title no_available_projects then (Silent, a)
      else
        match Sqlite.select_master_by_title project_title (conn a) with
        | None => (ProjectNotFound, a)
        | Some result =>
            let proj_id := Master.id result in
            let table_name := Master.table_name result in
            match Sqlite.select_table table_name (conn a) with
            | Raise _ => (DatabaseError, a)
            | Ok rows =>
                if (0 <? Sqlite.count_open rows)%nat then (AlreadyRunning, a)
                else
                  let start_time := strftime now in
                  match Sqlite.insert_log table_name start_time (conn a) with
                  | Ok db => (Started, mk_app db (Some proj_id) (Some table_name))
                  | Raise _ => (DatabaseError, a)
                  end
            end
        end
  end.

(** The loop of lines 262-267: the projects whose table has a row with
    [end_time IS NULL], in the order of the registry. *)
Fixpoint open_projects (projects : list Master.row) (db : Sqlite.store)
  : result (list Master.row) :=
  match projects with
  | [] => Ok []
  | proj :: rest =>
      rows <- Sqlite.select_table (Master.table_name proj) db ;;
      found <- open_projects rest db ;;
      Ok (match find Log.is_open rows with
          | Some _ => proj :: found
          | None => found
          end)
  end.

(** [check_open_projects] (lines 257-283). *)
Definition check_open_projects (a : app) : outcome * app :=
  match open_projects (Sqlite.projects_master (conn a)) (conn a) with
  | Raise _ => (DatabaseError, a)
  | Ok [] => (Silent, a)
  | Ok (open_proj :: _) =>
      match current_project_id a with
      | None =>
          (OpenProjectFound,
           mk_app (conn a) (Some (Master.id open_proj))
                  (Some (Master.table_name open_proj)))
      | Some _ => (OpenProjectFound, a)
      end
  end.

(** [get_project_title] (lines 784-787). *)
Definition get_project_title (proj_id : Z) (db : Sqlite.store) : string :=
  match Sqlite.select_master_by_id proj_id db with
  | Some p => Master.title p
  | None => ""
  end.

(** The loop of lines 771-778 over the fetched [duration] column. *)
Fixpoint sum_durations (durations : list (option string)) (total_seconds : Z) : Z :=
  match durations with
  | [] => total_seconds
  | dur :: rest =>
      match dur with
      | Some duration_str =>
          if negb (String.eqb duration_str "")
             && negb (String.eqb duration_str "N/A")
          then
            match hms_seconds duration_str with
            | Ok v => sum_durations rest (total_seconds + v)
            | Raise _ => sum_durations rest total_seconds   (* except: continue *)
            end
          else sum_durations rest total_seconds
      | None => sum_durations rest total_seconds
      end
  end.

(** Lines 764-770: the [duration] column of every registered table. *)
Fixpoint all_durations (tables : list string) (db : Sqlite.store)
  : result (list (option string)) :=
  match tables with
  | [] => Ok []
  | table_name :: rest =>
      rows <- Sqlite.select_table table_name db ;;
      more <- all_durations rest db ;;
      Ok (map Log.duration rows ++ more)%list
  end.

(** [update_total_time] (lines 755-782): the total the label is set
    from, or the caught [sqlite3.Error]. *)
Definition update_total_time (filter_project_id : option Z) (db : Sqlite.store)
  : result Z :=
  durations <-
    (if truthy_id filter_project_id then
       let project_title :=
         get_project_title (match filter_project_id with
                            | Some i => i
                            | None => 0
                            end) db in
       let table_name := sanitize_table_name project_title in
       rows <- Sqlite.select_table table_name db ;;
       Ok (map Log.duration rows)
     else
       all_durations (map Master.table_name (Sqlite.projects_master db)) db) ;;
  Ok (sum_durations durations 0).

(** The text of the total-time label. *)
Definition total_time_label (total_seconds : Z) : string :=
  "Total Project Time: " ++ format_time total_seconds.

(** ** Runs of the application *)

(** A fresh process: [__init__] empties the slot and
    [load_last_db_location] repeats the body of [check_open_projects]. *)
Definition restart (a : app) : outcome * app :=
  check_open_projects (mk_app (conn a) None None).

Inductive event : Type :=
| StartProject (title_entry details_entry : string) (now : Z)
| StartRecording (selected : option string) (now : Z)
| StopProject (now : Z)
| Restart.

Definition step (e : event) (a : app) : outcome * app :=
  match e with
  | StartProject t d now => start_project t d now a
  | StartRecording sel now => start_recording sel now a
  | StopProject now => stop_project now a
  | Restart => restart a
  end.

(** The state after a run, and the outcomes along it. *)
Fixpoint run (es : list event) (a : app) : app :=
  match es with
  | [] => a
  | e :: rest => run rest (snd (step e a))
  end.

Fixpoint outcomes (es : list event) (a : app) : list outcome :=
  match es with
  | [] => []
  | e :: rest => fst (step e a) :: outcomes rest (snd (step e a))
  end.

(** A new database file. *)
Definition initial : app := mk_app Sqlite.empty None None.

Definition reachable (a : app) : Prop := exists es, run es initial = a.

(** ** Notions the statements are written with *)

(** The characters of a formatted number. *)
Definition numeric (c : ascii) : bool := Py.isdigit c || Ascii.eqb c "-".

(** The characters [int] accepts anywhere in a text. *)
Definition allowed_in_int (c : ascii) : bool :=
  Py.int_isspace c || Py.isdigit c || Ascii.eqb c "-" || Ascii.eqb c "+"
  || Ascii.eqb c "_".

(** The clock part of [str(timedelta)]: hours as they come, minutes and
    seconds on two digits. *)
Definition clock_text (secs : Z) : string :=
  Py.fmt_d (secs / 3600) ++ ":" ++ Py.fmt_0d 2 (secs mod 3600 / 60) ++ ":" ++
  Py.fmt_0d 2 (secs mod 60).

(** The day part of [str(timedelta)]. *)
Definition days_text (days : Z) : string :=
  Py.fmt_d days ++ " day" ++ (if Z.abs days =? 1 then "" else "s") ++ ", ".

(** What a stored duration counts for in a sum: its seconds, or nothing
    when it is absent or malformed. *)
Definition duration_seconds (d : option string) : option Z :=
  match d with
  | Some text =>
      match hms_seconds text with
      | Ok v => Some v
      | Raise _ => None
      end
  | None => None
  end.

Definition counted (d : option string) : Z :=
  match duration_seconds d with
  | Some v => v
  | None => 0
  end.

Definition sum_Z (l : list Z) : Z := fold_right Z.add 0 l.

(** The sum of the durations of the closed intervals with a smaller id. *)
Definition prior_total (log_id : Z) (rows : list Log.row) : Z :=
  sum_Z (map (fun r => counted (Log.duration r))
             (List.filter (fun r => negb (Log.is_open r) && (Log.id r <? log_id))
                          rows)).

(** The project's table has a row with [end_time IS NULL]. *)
Definition has_open_interval (db : Sqlite.store) (p : Master.row) : bool :=
  match Sqlite.select_table (Master.table_name p) db with
  | Ok rows => existsb Log.is_open rows
  | Raise _ => false
  end.

(** At most one open interval in every log table. *)
Definition single_open (db : Sqlite.store) : Prop :=
  forall name rows, In (name, rows) (Sqlite.tables db) ->
                    (Sqlite.count_open rows <= 1)%nat.


(** What the handlers maintain of the store. *)
Definition row_ok (db : Sqlite.store) (p : Master.row) : Prop :=
  Master.table_name p = sanitize_table_name (Master.title p) /\
  Master.title p <> "" /\
  1 <= Master.id p /\
  Sqlite.find_table (Master.table_name p) (Sqlite.tables db) <> None.

Definition log_ok (rows : list Log.row) : Prop :=
  Forall (fun r => Log.is_open r = true -> Log.duration r = None) rows.

Record consistent (db : Sqlite.store) : Prop := mk_consistent {
  rows_ok : Forall (row_ok db) (Sqlite.projects_master db);
  ids_unique : NoDup (map Master.id (Sqlite.projects_master db));
  logs_ok : Forall (fun t => log_ok (snd t)) (Sqlite.tables db);
  tables_owned :
    Forall (fun t => exists p, In p (Sqlite.projects_master db) /\
                               Master.table_name p = fst t)
           (Sqlite.tables db)
}.

(** What the handlers maintain of the slot. *)
Definition slot_ok (a : app) : Prop :=
  truthy_id (current_project_id a) =
    match current_project_id a with Some _ => true | None => false end /\
  truthy_str (current_project_table a) =
    match current_project_table a with Some _ => true | None => false end.

(** The row [stop_project] writes for the open entry [e]. *)
Definition stopped_row (e : Log.row) (now : Z) (rows : list Log.row) : Log.row :=
  let duration := now - strptime (Log.start_time e) in
  Log.mk (Log.id e) (Log.start_time e) (Some (strftime now))
    (Some (duration_str duration))
    (Some (cumulative_time_str
             (sum_previous (Sqlite.select_previous_durations (Log.id e) rows) 0
              + Timedelta.int_total_seconds duration))).

(** The row the two start handlers insert. *)
Definition started_row (rows : list Log.row) (now : Z) : Log.row :=
  Log.mk (Sqlite.next_rowid (map Log.id rows)) (strftime now) None None None.

(** Three start/stop cycles of a project from its creation on: creation
    starts the first interval, [start_recording] the next two. *)
Definition three_cycles (title_entry details_entry : string)
  (s1 e1 s2 e2 s3 e3 : Z) : list event :=
  let title := Py.strip title_entry in
  [StartProject title_entry details_entry s1; StopProject e1;
   StartRecording (Some title) s2; StopProject e2;
   StartRecording (Some title) s3; StopProject e3].

(** The time between a start and the stop that follows it. *)
Definition elapsed (start stop : Z) : Timedelta.t :=
  stop - strptime (strftime start).

(** The log after [stop_project] has closed the entry [e]: the UPDATE
    reaches the rows with the id of [e]. *)
Definition stop_rows (e : Log.row) (now : Z) (rows : list Log.row) : list Log.row :=
  let w := stopped_row e now rows in
  map (fun r =>
         if Log.id r =? Log.id e
         then Log.mk (Log.id r) (Log.start_time r) (Log.end_time w)
                     (Log.duration w) (Log.cumulative_time w)
         else r)
      rows.

(** The registry row [start_project] inserts. *)
Definition created_row (title_entry details_entry : string) (db : Sqlite.store)
  : Master.row :=
  Master.mk (Sqlite.next_rowid (map Master.id (Sqlite.projects_master db)))
            (Py.strip title_entry) (Py.strip details_entry)
            (sanitize_table_name (Py.strip title_entry)).

(** The whole seconds between a start and the stop that follows it, as
    [stop_project] counts them. *)
Definition whole_seconds (start stop : Z) : Z :=
  Timedelta.int_total_seconds (elapsed start stop).

(** The row of a finished cycle. *)
Definition closed_row (id start stop cumulative : Z) : Log.row :=
  Log.mk id (strftime start) (Some (strftime stop))
    (Some (duration_str (elapsed start stop)))
    (Some (cumulative_time_str cumulative)).

(** What every run maintains. *)
Definition invariant (a : app) : Prop := consistent (conn a) /\ slot_ok a.

(** ** The remaining handlers *)

Module Sql.

(** [ORDER BY title ASC]: SQLite orders [TEXT] byte by byte. *)
Fixpoint insert_asc (t : string) (l : list string) : list string :=
  match l with
  | [] => [t]
  | x :: rest => if String.leb t x then t :: l else x :: insert_asc t rest
  end.

Definition order_by_asc (l : list string) : list string :=
  fold_right insert_asc [] l.

(** [SELECT title FROM projects_master ORDER BY title ASC] *)
Definition select_titles_asc (db : Sqlite.store) : list string :=
  order_by_asc (map Master.title (Sqlite.projects_master db)).

End Sql.

(** [get_project_id] (lines 789-792). *)
Definition get_project_id (title : string) (db : Sqlite.store) : option Z :=
  match Sqlite.select_master_by_title title db with
  | Some p => Some (Master.id p)
  | None => None
  end.

(** The loop of lines 658-664 of [load_projects]: the titles whose table
    has no row with [end_time IS NULL]. *)
Fixpoint available_projects (titles : list string) (db : Sqlite.store)
  : result (list string) :=
  match titles with
  | [] => Ok []
  | title :: rest =>
      rows <- Sqlite.select_table (sanitize_table_name title) db ;;
      more <- available_projects rest db ;;
      Ok (if (Sqlite.count_open rows =? 0)%nat then title :: more else more)
  end.

(** [load_projects] (lines 651-672): the message, if any, and the items
    of the project list afterwards (the list is cleared first). *)
Definition load_projects (db : Sqlite.store) : outcome * list string :=
  match available_projects (Sql.select_titles_asc db) db with
  | Ok [] => (Silent, [no_available_projects])
  | Ok titles => (Silent, titles)
  | Raise _ => (DatabaseError, [])
  end.

(** The first entry of the filter box. *)
Definition all_projects : string := "All Projects".

(** [populate_filter_dropdown] (lines 674-683): the entries of the
    filter box. *)
Definition populate_filter_dropdown (db : Sqlite.store) : list string :=
  all_projects :: Sql.select_titles_asc db.

(** A cell of the records tree: a text, or a stored timestamp. *)
Inductive cell : Type :=
| Text (s : string)
| Timestamp (seconds : Z).

(** The seven cells of a log row (lines 713-720 and 737-744). *)
Definition record_cells (proj_id : Z) (title details : string) (log : Log.row)
  : list cell :=
  [Text (Py.fmt_d proj_id); Text title; Text details;
   Timestamp (Log.start_time log);
   match Log.end_time log with
   | Some t => Timestamp t
   | None => Text "In Progress"
   end;
   Text (match Log.duration log with
         | Some d => if String.eqb d "" then "N/A" else d
         | None => "N/A"
         end);
   Text (match Log.cumulative_time log with
         | Some c => if String.eqb c "" then "N/A" else c
         | None => "N/A"
         end)].

(** The row of a project that has no log row yet (lines 722-725 and
    746-749). *)
Definition placeholder_cells (proj_id : Z) (title details : string) : list cell :=
  [Text (Py.fmt_d proj_id); Text title; Text details;
   Text "N/A"; Text "N/A"; Text "N/A"; Text "N/A"].

(** The tree items one project contributes. *)
Definition project_records (proj_id : Z) (title details : string)
  (logs : list Log.row) : list (list cell) :=
  match logs with
  | [] => [placeholder_cells proj_id title details]
  | _ => map (record_cells proj_id title details) logs
  end.

(** The loop of lines 730-749: the items added before a query fails, if
    one does. *)
Fixpoint all_records (projects : list Master.row) (db : Sqlite.store)
  : list (list cell) * option exn :=
  match projects with
  | [] => ([], None)
  | project :: rest =>
      match Sqlite.select_table (sanitize_table_name (Master.title project)) db with
      | Raise e => ([], Some e)
      | Ok logs =>
          let '(more, failure) := all_records rest db in
          (project_records (Master.id project) (Master.title project)
             (Master.details project) logs ++ more, failure)%list
      end
  end.

(** [display_all_records] (lines 697-753): the items of the records tree
    and what the total label is computed from; [Raise] stands for either
    of the two Database Error boxes. *)
Definition display_all_records (filter_project_id : option Z) (db : Sqlite.store)
  : list (list cell) * result Z :=
  if truthy_id filter_project_id then
    let proj_id := match filter_project_id with Some i => i | None => 0 end in
    match Sqlite.select_master_by_id proj_id db with
    | Some project =>
        match Sqlite.select_table
                (sanitize_table_name (Master.title project)) db with
        | Ok logs =>
            (project_records proj_id (Master.title project)
               (Master.details project) logs,
             update_total_time filter_project_id db)
        | Raise e => ([], Raise e)
        end
    | None => ([], update_total_time filter_project_id db)
    end
  else
    match all_records (Sqlite.projects_master db) db with
    | (items, None) => (items, update_total_time filter_project_id db)
    | (items, Some e) => (items, Raise e)
    end.

(** [on_filter_select] (lines 685-695). *)
Definition on_filter_select (selected : string) (db : Sqlite.store)
  : list (list cell) * result Z :=
  if String.eqb selected all_projects then display_all_records None db
  else
    let proj_id := get_project_id selected db in
    if truthy_id proj_id then display_all_records proj_id db
    else display_all_records None db.

(** The header of the records tree and of every export. *)
Definition headers : list string :=
  ["Project ID"; "Title"; "Details"; "Start Time"; "End Time"; "Duration";
   "Cumulative Time"].

(** A line of an export: the header texts or the cells of a record. *)
Definition header_cells : list cell := map Text headers.

(** [prepare_data_for_export] (lines 898-913). *)
Definition prepare_data_for_export (records : list (list cell))
  : list (list cell) :=
  match records with
  | [] => []
  | _ => header_cells :: records
  end.

(** [get_records_to_export] (lines 876-896); [selected] are the selected
    items of the tree. *)
Definition get_records_to_export (export_selected : bool)
  (tree selected : list (list cell)) : list (list cell) :=
  if export_selected then selected else tree.

(** What [export_to_excel] (lines 797-816) hands to the sheet writer,
    columns and rows, once a file name is chosen; [None] when it warns
    that no record is selected. *)
Definition export_to_excel (export_selected : bool)
  (tree selected : list (list cell)) : option (list cell * list (list cell)) :=
  let records := get_records_to_export export_selected tree selected in
  if export_selected && match records with [] => true | _ => false end
  then None
  else
    match prepare_data_for_export records with
    | columns :: data => Some (columns, data)
    | [] => Some (header_cells, [])
    end.

(** The text of the Running Project tab. *)
Inductive running_label : Type :=
| NoProjectRunningLabel
| RunningLabel (title details : string) (start_time : cell).

(** [update_running_project_data_tab] (lines 940-953): the label
    afterwards; no exception is caught here. *)
Definition update_running_project_data_tab (a : app) (shown : running_label)
  : result running_label :=
  if truthy_id (current_project_id a) && truthy_str (current_project_table a) then
    match Sqlite.select_master_by_id
            (match current_project_id a with Some i => i | None => 0 end)
            (conn a) with
    | Some project =>
        rows <- Sqlite.select_table
                  (match current_project_table a with Some t => t | None => "" end)
                  (conn a) ;;
        Ok (RunningLabel (Master.title project) (Master.details project)
              (match find Log.is_open rows with
               | Some r => Timestamp (Log.start_time r)
               | None => Text "N/A"
               end))
    | None => Ok shown
    end
  else Ok NoProjectRunningLabel.

(** ** Further notions the statements are written with *)

(** A row is open with nothing filled in, or closed with everything. *)
Definition row_shape (r : Log.row) : Prop :=
  match Log.end_time r with
  | None => Log.duration r = None /\ Log.cumulative_time r = None
  | Some _ => Log.duration r <> None /\ Log.cumulative_time r <> None
  end.

(** A stored duration is a text that [stop_project] wrote. *)
Definition duration_written (r : Log.row) : Prop :=
  Log.duration r = None \/ exists d, Log.duration r = Some (duration_str d).

(** The ids of a log grow from row to row. *)
Definition ids_increasing (rows : list Log.row) : Prop :=
  StronglySorted Z.lt (map Log.id rows).

(** What the handlers maintain of the logs and of the registry, besides
    [consistent]. *)
Record well_kept (db : Sqlite.store) : Prop := mk_well_kept {
  rows_shaped : Forall (fun t => Forall row_shape (snd t)) (Sqlite.tables db);
  rows_increasing : Forall (fun t => ids_increasing (snd t)) (Sqlite.tables db);
  durations_written :
    Forall (fun t => Forall duration_written (snd t)) (Sqlite.tables db);
  titles_unique : NoDup (map Master.title (Sqlite.projects_master db));
  table_names_unique : NoDup (map Master.table_name (Sqlite.projects_master db))
}.

(** The slot is empty, or it holds a registered project, with its table,
    that has an open interval. *)
Definition slot_points (a : app) : Prop :=
  match current_project_id a, current_project_table a with
  | None, None => True
  | Some pid, Some tbl =>
      exists p, In p (Sqlite.projects_master (conn a)) /\
                Master.id p = pid /\ Master.table_name p = tbl /\
                has_open_interval (conn a) p = true
  | _, _ => False
  end.

(** What every run maintains, besides [invariant]. *)
Definition kept (a : app) : Prop := well_kept (conn a) /\ slot_points a.

(** What a log counts for in a total: its durations, the absent and
    the malformed ones counting for nothing. *)
Definition log_total (rows : list Log.row) : Z :=
  sum_Z (map (fun r => counted (Log.duration r)) rows).


(** The ascending order of [ORDER BY title ASC]. *)
Definition ascending (l : list string) : Prop :=
  StronglySorted (fun x y => String.leb x y = true) l.

(** * Facts about the text primitives *)

Section TextFacts.

Lemma sapp_nil_r (s : string) : s ++ "" = s.
Proof. induction s; simpl; congruence. Qed.

Lemma sapp_assoc (a b c : string) : (a ++ b) ++ c = a ++ (b ++ c).
Proof. induction a; simpl; congruence. Qed.

Lemma all_app (f : ascii -> bool) (a b : string) :
  Py.all f (a ++ b) = Py.all f a && Py.all f b.
Proof.
  induction a as [|c a IH]; simpl; [reflexivity|].
  rewrite IH. now rewrite andb_assoc.
Qed.

Lemma all_impl (f g : ascii -> bool) (s : string) :
  (forall c, f c = true -> g c = true) ->
  Py.all f s = true -> Py.all g s = true.
Proof.
  intros Hfg. induction s as [|c s IH]; simpl; [reflexivity|].
  intros H. apply andb_true_iff in H as [Hc Hs].
  apply andb_true_iff. split; auto.
Qed.

Lemma all_rev (f : ascii -> bool) (s : string) :
  Py.all f (Py.rev s) = Py.all f s.
Proof.
  induction s as [|c s IH]; simpl; [reflexivity|].
  rewrite all_app, IH. simpl. rewrite andb_true_r. apply andb_comm.
Qed.

Lemma srev_app (a b : string) : Py.rev (a ++ b) = Py.rev b ++ Py.rev a.
Proof.
  induction a as [|c a IH]; simpl.
  - now rewrite sapp_nil_r.
  - now rewrite IH, sapp_assoc.
Qed.

Lemma srev_involutive (s : string) : Py.rev (Py.rev s) = s.
Proof.
  induction s as [|c s IH]; simpl; [reflexivity|].
  rewrite srev_app, IH. reflexivity.
Qed.

(** Stripping *)

Lemma lstrip_by_none (sp : ascii -> bool) (s : string) :
  Py.all (fun c => negb (sp c)) s = true -> Py.lstrip_by sp s = s.
Proof.
  destruct s as [|c s]; simpl; [reflexivity|].
  intros H. apply andb_true_iff in H as [Hc _].
  apply negb_true_iff in Hc. now rewrite Hc.
Qed.

Lemma strip_by_none (sp : ascii -> bool) (s : string) :
  Py.all (fun c => negb (sp c)) s = true -> Py.strip_by sp s = s.
Proof.
  intros H. unfold Py.strip_by, Py.rstrip_by.
  rewrite (lstrip_by_none sp s H).
  rewrite lstrip_by_none by now rewrite all_rev.
  apply srev_involutive.
Qed.

Lemma all_lstrip_by (sp f : ascii -> bool) (s : string) :
  (forall c, sp c = true -> f c = true) ->
  Py.all f (Py.lstrip_by sp s) = true -> Py.all f s = true.
Proof.
  intros Hsp. induction s as [|c s IH]; simpl; [reflexivity|].
  destruct (sp c) eqn:Hc.
  - intros H. rewrite (Hsp c Hc). simpl. auto.
  - simpl. auto.
Qed.

Lemma all_strip_by (sp f : ascii -> bool) (s : string) :
  (forall c, sp c = true -> f c = true) ->
  Py.all f (Py.strip_by sp s) = true -> Py.all f s = true.
Proof.
  intros Hsp H. unfold Py.strip_by, Py.rstrip_by in H.
  rewrite all_rev in H. apply all_lstrip_by in H; auto.
  rewrite all_rev in H. apply all_lstrip_by in H; auto.
Qed.

(** The classes beyond ASCII, and the separators that [strip] removes
    but [int] does not skip. *)
Lemma separators_are_stripped_not_skipped :
  Py.strip (String (ascii_of_nat 28) "1") = "1" /\
  Py.int (String (ascii_of_nat 28) "1") = Raise ValueError /\
  Py.int (String (ascii_of_nat 160) " 1") = Ok 1 /\
  Py.strip (String (ascii_of_nat 133) "a ") = "a".
Proof. repeat split. Qed.

Lemma accented_letters_are_kept :
  sanitize_table_name ("Caf" ++ String (ascii_of_nat 233) "!") =
    "project_Caf" ++ String (ascii_of_nat 233) "" /\
  sanitize_table_name (String (ascii_of_nat 178) (String (ascii_of_nat 215) "")) =
    "project_" ++ String (ascii_of_nat 178) "".
Proof. repeat split. Qed.

(** Splitting *)

Lemma split_nonempty (sep : ascii) (s : string) : Py.split sep s <> [].
Proof.
  induction s as [|c s IH]; simpl; [discriminate|].
  destruct (Ascii.eqb c sep); [discriminate|].
  destruct (Py.split sep s); [contradiction|discriminate].
Qed.

Lemma split_none (sep : ascii) (a : string) :
  Py.all (fun c => negb (Ascii.eqb c sep)) a = true ->
  Py.split sep a = [a].
Proof.
  induction a as [|c a IH]; simpl; [reflexivity|].
  intros H. apply andb_true_iff in H as [Hc Ha].
  apply negb_true_iff in Hc. rewrite Hc, (IH Ha). reflexivity.
Qed.

Lemma split_app (sep : ascii) (a b : string) :
  Py.all (fun c => negb (Ascii.eqb c sep)) a = true ->
  Py.split sep (a ++ String sep b) = a :: Py.split sep b.
Proof.
  induction a as [|c a IH]; simpl.
  - intros _. now rewrite Ascii.eqb_refl.
  - intros H. apply andb_true_iff in H as [Hc Ha].
    apply negb_true_iff in Hc. rewrite Hc, (IH Ha). reflexivity.
Qed.

End TextFacts.

(** * Decimal texts *)

Lemma uint_digits (d : Decimal.uint) :
  Py.all Py.isdigit (NilEmpty.string_of_uint d) = true.
Proof. induction d; simpl; auto. Qed.

Lemma zeros_digits (n : nat) : Py.all Py.isdigit (Py.zeros n) = true.
Proof. induction n; simpl; auto. Qed.

(** The digits of a non-negative number. *)
Lemma fmt_d_nonneg (n : Z) :
  0 <= n ->
  exists d, Py.fmt_d n = NilEmpty.string_of_uint d /\ d <> Decimal.Nil /\
            Z.of_uint d = n.
Proof.
  intros Hn. destruct n as [|p|p]; [| |lia].
  - exists (Decimal.D0 Decimal.Nil). repeat split; discriminate.
  - exists (Pos.to_uint p). unfold Py.fmt_d. simpl.
    pose proof (Unsigned.to_uint_nonnil p) as Hnil.
    repeat split; auto.
    + unfold NilZero.string_of_uint. destruct (Pos.to_uint p); congruence.
    + unfold Z.of_uint. now rewrite Unsigned.of_to.
Qed.

Lemma fmt_d_as_0d (z : Z) : Py.fmt_d z = Py.fmt_0d 0 z.
Proof.
  unfold Py.fmt_0d. destruct z as [|p|p]; simpl; try reflexivity.
Qed.

Lemma uint_of_zeros (n : nat) (d : Decimal.uint) :
  exists d', NilEmpty.uint_of_string (Py.zeros n ++ NilEmpty.string_of_uint d)
             = Some d' /\ Z.of_uint d' = Z.of_uint d.
Proof.
  induction n as [|n [d' [H1 H2]]]; simpl.
  - exists d. split; [apply NilEmpty.usu | reflexivity].
  - exists (Decimal.D0 d'). rewrite H1. split; [reflexivity | exact H2].
Qed.

Lemma ungroup_digits (s : string) (b : bool) :
  Py.all Py.isdigit s = true -> s <> "" -> Py.ungroup b s = Some s.
Proof.
  revert b. induction s as [|c s IH]; intros b Hall Hne; [congruence|].
  simpl in *. apply andb_true_iff in Hall as [Hc Hs].
  destruct (Ascii.eqb_spec c "_") as [->|_]; [discriminate|].
  destruct s as [|c' s'].
  - reflexivity.
  - rewrite IH; auto. discriminate.
Qed.

Lemma digit_nonspace (c : ascii) :
  Py.isdigit c = true -> negb (Py.int_isspace c) = true.
Proof.
  destruct c as [[|] [|] [|] [|] [|] [|] [|] [|]]; vm_compute; congruence.
Qed.

(** [int] reads back a run of digits. *)
Lemma int_of_digits (s : string) (d : Decimal.uint) :
  Py.all Py.isdigit s = true -> s <> "" ->
  NilEmpty.uint_of_string s = Some d ->
  Py.int s = Ok (Z.of_uint d).
Proof.
  intros Hall Hne Hd. unfold Py.int.
  rewrite strip_by_none by (eapply all_impl; [apply digit_nonspace|exact Hall]).
  destruct s as [|c s]; [congruence|].
  assert (Hc : Py.isdigit c = true) by (simpl in Hall; now apply andb_true_iff in Hall).
  assert (Hbody : (let '(negative, body) :=
            match String c s with
            | String "-" r => (true, r)
            | String "+" r => (false, r)
            | _ => (false, String c s)
            end in (negative, body)) = (false, String c s)).
  { destruct c as [[|] [|] [|] [|] [|] [|] [|] [|]]; try reflexivity;
      vm_compute in Hc; discriminate. }
  destruct (match String c s with
            | String "-" r => (true, r)
            | String "+" r => (false, r)
            | _ => (false, String c s)
            end) as [neg body].
  injection Hbody as -> ->.
  rewrite ungroup_digits by (auto; discriminate).
  now rewrite Hd.
Qed.

Lemma int_of_minus_digits (s : string) (d : Decimal.uint) :
  Py.all Py.isdigit s = true -> s <> "" ->
  NilEmpty.uint_of_string s = Some d ->
  Py.int (String "-" s) = Ok (- Z.of_uint d).
Proof.
  intros Hall Hne Hd. unfold Py.int.
  rewrite strip_by_none.
  - rewrite ungroup_digits by auto. now rewrite Hd.
  - simpl. eapply all_impl; [apply digit_nonspace|exact Hall].
Qed.

Lemma string_of_uint_nonempty (d : Decimal.uint) :
  d <> Decimal.Nil -> NilEmpty.string_of_uint d <> "".
Proof. destruct d; simpl; congruence. Qed.

(** Zero-padded decimal text is read back by [int]. *)
Lemma int_fmt_0d (w : nat) (z : Z) : Py.int (Py.fmt_0d w z) = Ok z.
Proof.
  unfold Py.fmt_0d.
  destruct (fmt_d_nonneg (Z.abs z) (Z.abs_nonneg z)) as [d [Hd [Hnil Hval]]].
  rewrite Hd.
  set (k := (w - _ - _)%nat). clearbody k.
  destruct (uint_of_zeros k d) as [d' [H1 H2]].
  assert (Hall : Py.all Py.isdigit (Py.zeros k ++ NilEmpty.string_of_uint d) = true)
    by (rewrite all_app, zeros_digits, uint_digits; reflexivity).
  assert (Hne : Py.zeros k ++ NilEmpty.string_of_uint d <> "").
  { destruct k; simpl; [now apply string_of_uint_nonempty | discriminate]. }
  destruct (Z.ltb_spec z 0) as [Hz|Hz].
  - change ("-" ++ ?x) with (String "-" x).
    rewrite (int_of_minus_digits _ d' Hall Hne H1). f_equal. lia.
  - change ("" ++ ?x) with x.
    rewrite (int_of_digits _ d' Hall Hne H1). f_equal. lia.
Qed.

Lemma int_fmt_d (z : Z) : Py.int (Py.fmt_d z) = Ok z.
Proof. rewrite fmt_d_as_0d. apply int_fmt_0d. Qed.

(** The characters of formatted numbers. *)

Lemma fmt_0d_numeric (w : nat) (z : Z) : Py.all numeric (Py.fmt_0d w z) = true.
Proof.
  unfold Py.fmt_0d.
  destruct (fmt_d_nonneg (Z.abs z) (Z.abs_nonneg z)) as [d [Hd _]].
  rewrite Hd.
  assert (Hdig : forall c, Py.isdigit c = true -> numeric c = true)
    by (intros c Hc; unfold numeric; now rewrite Hc).
  rewrite !all_app.
  rewrite (all_impl _ _ _ Hdig (zeros_digits _)).
  rewrite (all_impl _ _ _ Hdig (uint_digits _)).
  destruct (z <? 0); reflexivity.
Qed.

Lemma fmt_d_numeric (z : Z) : Py.all numeric (Py.fmt_d z) = true.
Proof. rewrite fmt_d_as_0d. apply fmt_0d_numeric. Qed.

Lemma numeric_not (sep : ascii) :
  numeric sep = false ->
  forall c, numeric c = true -> negb (Ascii.eqb c sep) = true.
Proof.
  intros Hsep c Hc. apply negb_true_iff, Ascii.eqb_neq. congruence.
Qed.

Lemma fmt_0d_without (sep : ascii) (w : nat) (z : Z) :
  numeric sep = false ->
  Py.all (fun c => negb (Ascii.eqb c sep)) (Py.fmt_0d w z) = true.
Proof.
  intros Hsep. eapply all_impl; [apply (numeric_not sep Hsep)|apply fmt_0d_numeric].
Qed.

Lemma fmt_d_without (sep : ascii) (z : Z) :
  numeric sep = false ->
  Py.all (fun c => negb (Ascii.eqb c sep)) (Py.fmt_d z) = true.
Proof. rewrite fmt_d_as_0d. apply fmt_0d_without. Qed.

(** * Duration texts *)


Lemma int_raises_ValueError (s : string) (e : exn) :
  Py.int s = Raise e -> e = ValueError.
Proof.
  unfold Py.int.
  destruct (match Py.strip_by Py.int_isspace s with
            | String "-" r => (true, r)
            | String "+" r => (false, r)
            | _ => (false, Py.strip_by Py.int_isspace s)
            end) as [neg body].
  destruct (Py.ungroup false body); [|congruence].
  destruct (NilEmpty.uint_of_string s0); congruence.
Qed.

Lemma uint_of_string_digits (s : string) (d : Decimal.uint) :
  NilEmpty.uint_of_string s = Some d -> Py.all Py.isdigit s = true.
Proof.
  intros H. apply NilEmpty.sus in H. subst s. apply uint_digits.
Qed.

Lemma ungroup_chars (f : ascii -> bool) (s ds : string) (b : bool) :
  f "_"%char = true ->
  Py.ungroup b s = Some ds -> Py.all f ds = true -> Py.all f s = true.
Proof.
  intros Hu. revert b ds. induction s as [|c s IH]; intros b ds; simpl; [reflexivity|].
  destruct (Ascii.eqb_spec c "_") as [->|_].
  - destruct b; [|discriminate]. intros H Hds. rewrite Hu. simpl. eauto.
  - destruct (Py.ungroup true s) as [ds'|] eqn:E; simpl; [|discriminate].
    intros [= <-]. simpl. intros H. apply andb_true_iff in H as [Hc Hds'].
    rewrite Hc. simpl. eauto.
Qed.

(** Every character of a text that [int] accepts is a blank, a digit, a
    sign or an underscore. *)
Lemma int_chars (s : string) (v : Z) :
  Py.int s = Ok v -> Py.all allowed_in_int s = true.
Proof.
  unfold Py.int. intros H.
  apply (all_strip_by Py.int_isspace).
  { intros c Hc. unfold allowed_in_int. now rewrite Hc. }
  assert (Hbody : forall body, (exists ds d, Py.ungroup false body = Some ds /\
             NilEmpty.uint_of_string ds = Some d) ->
             Py.all allowed_in_int body = true).
  { intros body [ds [d [Hu Hd]]].
    eapply ungroup_chars; [reflexivity|exact Hu|].
    eapply all_impl; [|eapply uint_of_string_digits; exact Hd].
    intros c Hc. unfold allowed_in_int. rewrite Hc. now rewrite orb_true_r. }
  destruct (Py.strip_by Py.int_isspace s) as [|c t] eqn:Et; [reflexivity|].
  destruct (match String c t with
            | String "-" r => (true, r)
            | String "+" r => (false, r)
            | _ => (false, String c t)
            end) as [neg body] eqn:Eb.
  destruct (Py.ungroup false body) as [ds|] eqn:Eu; [|discriminate].
  destruct (NilEmpty.uint_of_string ds) as [d|] eqn:Ed; [|discriminate].
  assert (Hb : Py.all allowed_in_int body = true) by (apply Hbody; eauto).
  assert (Hcase : body = String c t \/
                  (body = t /\ allowed_in_int c = true)).
  { destruct c as [[|] [|] [|] [|] [|] [|] [|] [|]];
      injection Eb as _ <-; auto. }
  destruct Hcase as [->|[-> Hc]]; [exact Hb|].
  simpl. now rewrite Hc.
Qed.

Lemma int_rejects (s : string) :
  Py.all allowed_in_int s = false -> Py.int s = Raise ValueError.
Proof.
  intros H. destruct (Py.int s) as [v|e] eqn:E.
  - apply int_chars in E. congruence.
  - now rewrite (int_raises_ValueError s e E).
Qed.

(** Reading a text of three colon-free fields. *)
Lemma hms_seconds_fields (A B C : string) (a b c : Z) :
  Py.all (fun x => negb (Ascii.eqb x ":")) A = true ->
  Py.all (fun x => negb (Ascii.eqb x ":")) B = true ->
  Py.all (fun x => negb (Ascii.eqb x ":")) C = true ->
  Py.int A = Ok a -> Py.int B = Ok b -> Py.int C = Ok c ->
  hms_seconds (A ++ ":" ++ B ++ ":" ++ C) = Ok (a * 3600 + b * 60 + c).
Proof.
  intros HA HB HC Ha Hb Hc. unfold hms_seconds.
  change (A ++ ":" ++ B ++ ":" ++ C) with (A ++ String ":" (B ++ String ":" C)).
  rewrite (split_app ":" A _ HA), (split_app ":" B _ HB), (split_none ":" C HC).
  rewrite Ha, Hb, Hc. reflexivity.
Qed.

Lemma hms_seconds_first_field (A B : string) :
  Py.all (fun x => negb (Ascii.eqb x ":")) A = true ->
  Py.int A = Raise ValueError ->
  hms_seconds (A ++ ":" ++ B) = Raise ValueError.
Proof.
  intros HA Ha. unfold hms_seconds.
  change (A ++ ":" ++ B) with (A ++ String ":" B).
  rewrite (split_app ":" A _ HA).
  destruct (Py.split ":" B) as [|b [|c [|x l]]]; try reflexivity.
  now rewrite Ha.
Qed.

Lemma hms_recompose (n : Z) :
  n / 3600 * 3600 + n mod 3600 / 60 * 60 + n mod 60 = n.
Proof.
  pose proof (Z.div_mod n 3600 ltac:(lia)).
  pose proof (Z.div_mod (n mod 3600) 60 ltac:(lia)).
  assert (n mod 60 = (n mod 3600) mod 60).
  { symmetry. apply Z.mod_mod_divide. exists 60. reflexivity. }
  lia.
Qed.

(** The cumulative text of line 593 reads back as the number it was
    written from. *)
Lemma hms_seconds_cumulative (n : Z) :
  hms_seconds (cumulative_time_str n) = Ok n.
Proof.
  unfold cumulative_time_str.
  erewrite hms_seconds_fields; try apply int_fmt_0d;
    try (apply fmt_0d_without; reflexivity).
  f_equal. apply hms_recompose.
Qed.


Lemma clock_text_without_dot (secs : Z) :
  Py.all (fun c => negb (Ascii.eqb c ".")) (clock_text secs) = true.
Proof.
  unfold clock_text. rewrite !all_app.
  rewrite fmt_d_without, !fmt_0d_without by reflexivity. reflexivity.
Qed.

Lemma days_text_without (sep : ascii) (days : Z) :
  numeric sep = false ->
  Py.all (fun c => negb (Ascii.eqb c sep)) " days, " = true ->
  Py.all (fun c => negb (Ascii.eqb c sep)) (days_text days) = true.
Proof.
  intros Hsep Hlit. unfold days_text. rewrite !all_app.
  rewrite fmt_d_without by exact Hsep.
  simpl in Hlit. repeat (apply andb_true_iff in Hlit as [? Hlit]).
  destruct (Z.abs days =? 1); simpl; repeat (apply andb_true_iff; split); auto.
Qed.

Lemma seconds_clock (d : Z) :
  let s := Timedelta.seconds d in
  s / 60 / 60 = s / 3600 /\ s / 60 mod 60 = s mod 3600 / 60.
Proof.
  intros s. split.
  - rewrite Z.div_div by lia. reflexivity.
  - replace 3600 with (60 * 60) by reflexivity.
    rewrite Z.rem_mul_r by lia.
    rewrite Z.mul_comm, Z.div_add by lia.
    rewrite (Z.div_small (s mod 60)) by (apply Z.mod_pos_bound; lia).
    reflexivity.
Qed.

(** What line 578 writes: the day part, when there is one, then the
    clock part; the microseconds are cut off. *)
Lemma duration_str_parts (d : Timedelta.t) :
  duration_str d =
  (if Timedelta.days d =? 0 then "" else days_text (Timedelta.days d)) ++
  clock_text (Timedelta.seconds d).
Proof.
  unfold duration_str, Timedelta.str.
  destruct (seconds_clock d) as [-> ->].
  fold (clock_text (Timedelta.seconds d)).
  set (body := if Timedelta.days d =? 0 then clock_text (Timedelta.seconds d)
               else _).
  assert (Hbody : body =
    (if Timedelta.days d =? 0 then "" else days_text (Timedelta.days d)) ++
    clock_text (Timedelta.seconds d)).
  { unfold body, days_text. destruct (Timedelta.days d =? 0); [reflexivity|].
    now rewrite !sapp_assoc. }
  assert (Hdot : Py.all (fun c => negb (Ascii.eqb c ".")) body = true).
  { rewrite Hbody, all_app, clock_text_without_dot.
    destruct (Timedelta.days d =? 0); [reflexivity|].
    rewrite days_text_without; reflexivity. }
  rewrite <- Hbody.
  destruct (Timedelta.microseconds d =? 0).
  - now rewrite (split_none "." body Hdot).
  - change (body ++ "." ++ ?x) with (body ++ String "." x).
    now rewrite (split_app "." body _ Hdot).
Qed.

Lemma hms_seconds_clock (secs : Z) : hms_seconds (clock_text secs) = Ok secs.
Proof.
  unfold clock_text.
  erewrite hms_seconds_fields; try apply int_fmt_0d; try apply int_fmt_d;
    try (apply fmt_0d_without; reflexivity);
    try (apply fmt_d_without; reflexivity).
  f_equal. apply hms_recompose.
Qed.

Lemma timedelta_small (d : Z) :
  0 <= d < 86400000000 ->
  Timedelta.days d = 0 /\ Timedelta.seconds d = d / 1000000 /\
  Timedelta.int_total_seconds d = d / 1000000 /\ 0 <= d / 1000000 < 86400.
Proof.
  intros H. unfold Timedelta.days, Timedelta.seconds, Timedelta.int_total_seconds.
  assert (0 <= d / 1000000 < 86400).
  { split; [apply Z.div_pos; lia|apply Z.div_lt_upper_bound; lia]. }
  repeat split; try lia.
  - apply Z.div_small; lia.
  - apply Z.mod_small; lia.
  - apply Z.quot_div_nonneg; lia.
Qed.

(** An interval of less than a day: the text is the clock and reads
    back as the elapsed whole seconds. *)
Lemma duration_str_small (d : Z) :
  0 <= d < 86400000000 -> duration_str d = clock_text (d / 1000000).
Proof.
  intros H. destruct (timedelta_small d H) as [Hd [Hs _]].
  rewrite duration_str_parts, Hd, Hs. reflexivity.
Qed.

Lemma hms_seconds_duration_small (d : Z) :
  0 <= d < 86400000000 ->
  hms_seconds (duration_str d) = Ok (Timedelta.int_total_seconds d).
Proof.
  intros H. rewrite (duration_str_small d H), hms_seconds_clock.
  destruct (timedelta_small d H) as [_ [_ [-> _]]]. reflexivity.
Qed.

(** With a day part the text does not read back. *)
Lemma hms_seconds_duration_days (d : Z) :
  Timedelta.days d <> 0 -> hms_seconds (duration_str d) = Raise ValueError.
Proof.
  intros H. rewrite duration_str_parts.
  apply Z.eqb_neq in H. rewrite H.
  unfold clock_text. rewrite <- sapp_assoc.
  apply hms_seconds_first_field.
  - rewrite all_app, days_text_without, fmt_d_without; reflexivity.
  - apply int_rejects. unfold days_text. rewrite !all_app.
    replace (Py.all allowed_in_int " day") with false by reflexivity.
    now rewrite andb_false_r.
Qed.

(** * Facts about the store *)

Section Tables.

Import Sqlite.

Lemma ident_eqb_refl (s : string) : ident_eqb s s = true.
Proof. induction s as [|c s IH]; simpl; [reflexivity|]. now rewrite Ascii.eqb_refl. Qed.

Lemma find_table_app (n : string) (ts ts' : list (string * list Log.row)) :
  find_table n (ts ++ ts')%list =
  match find_table n ts with
  | Some rows => Some rows
  | None => find_table n ts'
  end.
Proof.
  induction ts as [|[m rows] ts IH]; simpl; [reflexivity|].
  destruct (ident_eqb m n); auto.
Qed.

Lemma replace_table_app_fresh (n : string) (r : list Log.row)
  (ts ts' : list (string * list Log.row)) :
  find_table n ts = None ->
  replace_table n r (ts ++ ts')%list = (ts ++ replace_table n r ts')%list.
Proof.
  induction ts as [|[m rows] ts IH]; simpl; [reflexivity|].
  destruct (ident_eqb m n); [discriminate|].
  intros H. now rewrite IH.
Qed.

Lemma find_replace_same (n : string) (r : list Log.row)
  (ts : list (string * list Log.row)) :
  find_table n ts <> None -> find_table n (replace_table n r ts) = Some r.
Proof.
  induction ts as [|[m rows] ts IH]; simpl; [congruence|].
  destruct (ident_eqb m n) eqn:E; simpl; rewrite E; auto.
Qed.

Lemma map_fst_replace (n : string) (r : list Log.row)
  (ts : list (string * list Log.row)) :
  map fst (replace_table n r ts) = map fst ts.
Proof.
  induction ts as [|[m rows] ts IH]; simpl; [reflexivity|].
  destruct (ident_eqb m n); simpl; congruence.
Qed.

Lemma find_table_names (n : string) (ts ts' : list (string * list Log.row)) :
  map fst ts = map fst ts' ->
  find_table n ts <> None -> find_table n ts' <> None.
Proof.
  revert ts'. induction ts as [|[m rows] ts IH]; intros [|[m' rows'] ts'];
    simpl; try congruence.
  intros [= <- Hrest]. destruct (ident_eqb m n); [congruence|]. now apply IH.
Qed.

Lemma find_table_In (n : string) (rows : list Log.row)
  (ts : list (string * list Log.row)) :
  find_table n ts = Some rows ->
  exists m, In (m, rows) ts /\ ident_eqb m n = true.
Proof.
  induction ts as [|[m r] ts IH]; simpl; [discriminate|].
  destruct (ident_eqb m n) eqn:E.
  - intros [= <-]. exists m. auto.
  - intros H. destruct (IH H) as [m' [Hin He]]. exists m'. auto.
Qed.

Lemma In_replace (n m : string) (r rows : list Log.row)
  (ts : list (string * list Log.row)) :
  In (m, rows) (replace_table n r ts) ->
  In (m, rows) ts \/ (rows = r /\ find_table n ts <> None).
Proof.
  induction ts as [|[m' r'] ts IH]; simpl; [tauto|].
  destruct (ident_eqb m' n) eqn:E; simpl.
  - intros [[= <- <-]|H]; [right; split; congruence | left; auto].
  - intros [H|H]; [left; auto|].
    destruct (IH H) as [H'|H']; [left; auto | right; exact H'].
Qed.

Lemma Forall_replace (P : string * list Log.row -> Prop) (n : string)
  (r : list Log.row) (ts : list (string * list Log.row)) :
  (forall m rows, In (m, rows) ts -> P (m, rows) -> P (m, r)) ->
  Forall P ts -> Forall P (replace_table n r ts).
Proof.
  induction ts as [|[m rows] ts IH]; simpl; intros Hr H; [constructor|].
  inversion H as [|? ? Hm Hts]; subst.
  destruct (ident_eqb m n).
  - constructor; [apply (Hr m rows); simpl; auto | exact Hts].
  - constructor; [exact Hm | apply IH; [|exact Hts]].
    intros m0 rows0 Hin. apply Hr. now right.
Qed.

(** Row ids *)

Lemma fold_max_ge (l : list Z) (i : Z) :
  i <= fold_left Z.max l i /\ Forall (fun x => x <= fold_left Z.max l i) l.
Proof.
  revert i. induction l as [|x l IH]; intros i; simpl; [split; [lia|constructor]|].
  destruct (IH (Z.max i x)) as [H1 H2]. split; [lia|].
  constructor; [lia | exact H2].
Qed.

Lemma next_rowid_gt (ids : list Z) :
  Forall (fun i => i < next_rowid ids) ids.
Proof.
  destruct ids as [|i rest]; [constructor|].
  unfold next_rowid. destruct (fold_max_ge rest i) as [H1 H2].
  constructor; [lia|].
  eapply Forall_impl; [|exact H2]. intros a Ha. cbv beta in *. lia.
Qed.

Lemma next_rowid_pos (ids : list Z) :
  Forall (fun i => 1 <= i) ids -> 1 <= next_rowid ids.
Proof.
  destruct ids as [|i rest]; unfold next_rowid; [lia|].
  intros H. inversion H as [|? ? Hi Hrest]; subst. cbv beta in Hi.
  destruct (fold_max_ge rest i) as [H1 _]. lia.
Qed.

(** Queries *)

Lemma select_last_open_acc (rows : list Log.row) (best : option Log.row) :
  let res := fold_left
    (fun best r =>
       if Log.is_open r then
         match best with
         | Some b => if Log.id b <? Log.id r then Some r else best
         | None => Some r
         end
       else best) rows best in
  (res = best \/ exists e, res = Some e /\ In e rows /\ Log.is_open e = true) /\
  (best <> None -> res <> None) /\
  (existsb Log.is_open rows = true -> res <> None).
Proof.
  revert best. induction rows as [|r rows IH]; intros best; simpl.
  - repeat split; auto. discriminate.
  - set (best' := if Log.is_open r then _ else best).
    destruct (IH best') as [H1 [H2 H3]].
    assert (Hb : best' = best \/ (best' = Some r /\ Log.is_open r = true)).
    { unfold best'. destruct (Log.is_open r); auto.
      destruct best as [b|]; auto. destruct (Log.id b <? Log.id r); auto. }
    assert (Hn : best <> None -> best' <> None).
    { destruct Hb as [->|[-> _]]; auto. discriminate. }
    assert (Ho : Log.is_open r = true -> best' <> None).
    { unfold best'. intros ->. destruct best as [b|]; [|discriminate].
      destruct (Log.id b <? Log.id r); discriminate. }
    repeat split.
    + destruct H1 as [H1|[e [He [Hin Hop]]]].
      * destruct Hb as [Hb|[Hb Hop]]; [left; congruence|].
        right. exists r. rewrite H1, Hb. auto.
      * right. exists e. auto.
    + auto.
    + intros H. apply orb_true_iff in H as [H|H]; auto.
Qed.

Lemma select_last_open_In (rows : list Log.row) (e : Log.row) :
  select_last_open rows = Some e -> In e rows /\ Log.is_open e = true.
Proof.
  unfold select_last_open. intros H.
  destruct (select_last_open_acc rows None) as [[H1|[e' [He [Hin Hop]]]] _].
  - simpl in H1. congruence.
  - simpl in He. rewrite H in He. injection He as <-. auto.
Qed.

Lemma select_last_open_some (rows : list Log.row) :
  existsb Log.is_open rows = true -> select_last_open rows <> None.
Proof.
  intros H. destruct (select_last_open_acc rows None) as [_ [_ H3]]. now apply H3.
Qed.

Lemma count_open_existsb (rows : list Log.row) :
  (0 <? count_open rows)%nat = existsb Log.is_open rows.
Proof.
  unfold count_open. induction rows as [|r rows IH]; simpl; [reflexivity|].
  destruct (Log.is_open r); simpl; auto.
Qed.

Lemma find_existsb {A : Type} (f : A -> bool) (l : list A) :
  existsb f l = match find f l with Some _ => true | None => false end.
Proof. induction l as [|x l IH]; simpl; [reflexivity|]. destruct (f x); auto. Qed.

End Tables.

(** * The two summing loops *)

Section Sums.

Lemma sum_Z_app (l1 l2 : list Z) : sum_Z (l1 ++ l2)%list = sum_Z l1 + sum_Z l2.
Proof. unfold sum_Z. induction l1 as [|x l1 IH]; simpl; lia. Qed.

Lemma sum_Z_cons (x : Z) (l : list Z) : sum_Z (x :: l) = x + sum_Z l.
Proof. reflexivity. Qed.

Lemma counted_text (s : string) :
  counted (Some s) = match hms_seconds s with Ok v => v | Raise _ => 0 end.
Proof. unfold counted, duration_seconds. now destruct (hms_seconds s). Qed.

Lemma sum_previous_spec (l : list string) (t : Z) :
  sum_previous l t = t + sum_Z (map (fun s => counted (Some s)) l).
Proof.
  revert t. induction l as [|s l IH]; intros t.
  - simpl. unfold sum_Z. simpl. lia.
  - cbn [sum_previous map]. rewrite sum_Z_cons, counted_text.
    destruct (hms_seconds s) as [v|e]; rewrite IH; lia.
Qed.

Lemma counted_guard (s : string) :
  negb (String.eqb s "") && negb (String.eqb s "N/A") = false ->
  counted (Some s) = 0.
Proof.
  intros H. apply andb_false_iff in H as [H|H];
    apply negb_false_iff, String.eqb_eq in H; subst; reflexivity.
Qed.

Lemma sum_durations_spec (l : list (option string)) (t : Z) :
  sum_durations l t = t + sum_Z (map counted l).
Proof.
  revert t. induction l as [|d l IH]; intros t.
  - simpl. unfold sum_Z. simpl. lia.
  - cbn [sum_durations map]. rewrite sum_Z_cons.
    destruct d as [s|].
    + destruct (negb (String.eqb s "") && negb (String.eqb s "N/A")) eqn:G.
      * rewrite counted_text.
        destruct (hms_seconds s) as [v|e]; rewrite IH; lia.
      * rewrite IH, (counted_guard s G). lia.
    + rewrite IH. change (counted None) with 0. lia.
Qed.

Lemma sum_durations_app (l1 l2 : list (option string)) :
  sum_durations (l1 ++ l2)%list 0 = sum_durations l1 0 + sum_durations l2 0.
Proof. rewrite !sum_durations_spec, map_app, sum_Z_app. lia. Qed.

(** The cumulative loop computes the sum of the closed intervals with a
    smaller id, in a log whose open rows carry no duration. *)
Lemma sum_previous_prior_total (log_id : Z) (rows : list Log.row) :
  log_ok rows ->
  sum_previous (Sqlite.select_previous_durations log_id rows) 0 =
  prior_total log_id rows.
Proof.
  intros Hok. rewrite sum_previous_spec, Z.add_0_l.
  unfold prior_total, Sqlite.select_previous_durations.
  induction Hok as [|r rows Hr Hrows IH]; [reflexivity|].
  cbn [flat_map List.filter]. rewrite map_app, sum_Z_app, IH.
  destruct (Log.is_open r) eqn:Eo.
  - rewrite (Hr eq_refl). reflexivity.
  - cbn [negb andb].
    destruct (Log.duration r) as [d|] eqn:Ed;
      destruct (Log.id r <? log_id); cbn [map]; rewrite ?sum_Z_cons, ?Ed;
      try change (counted None) with 0; try change (sum_Z []) with 0; lia.
Qed.

End Sums.

(** * The handlers, case by case *)

Section Handlers.

Import Sqlite.

Lemma app_eta (a : app) :
  mk_app (conn a) (current_project_id a) (current_project_table a) = a.
Proof. now destruct a. Qed.

Lemma store_eta (db : store) : mk (projects_master db) (tables db) = db.
Proof. now destruct db. Qed.

Lemma sanitize_nonempty (title : string) :
  String.eqb (sanitize_table_name title) "" = false.
Proof. reflexivity. Qed.

Lemma select_create (name : string) (db : store) :
  exists rows,
    select_table name (create_table_if_not_exists name db) = Ok rows /\
    (find_table name (tables db) = Some rows \/
     (find_table name (tables db) = None /\ rows = [] /\
      create_table_if_not_exists name db =
        mk (projects_master db) (tables db ++ [(name, [])])%list)).
Proof.
  unfold select_table, create_table_if_not_exists.
  destruct (find_table name (tables db)) as [rows|] eqn:E.
  - exists rows. rewrite E. auto.
  - exists []. simpl. rewrite find_table_app, E. simpl.
    rewrite ident_eqb_refl. auto.
Qed.

Lemma create_projects_master (name : string) (db : store) :
  projects_master (create_table_if_not_exists name db) = projects_master db.
Proof.
  unfold create_table_if_not_exists. now destruct (find_table name (tables db)).
Qed.

Lemma create_keeps (name n : string) (db : store) :
  find_table n (tables db) <> None ->
  find_table n (tables (create_table_if_not_exists name db)) <> None.
Proof.
  unfold create_table_if_not_exists.
  destruct (find_table name (tables db)); auto. simpl.
  rewrite find_table_app. destruct (find_table n (tables db)); congruence.
Qed.

Lemma create_noop (name : string) (db : store) :
  find_table name (tables db) <> None ->
  create_table_if_not_exists name db = db.
Proof.
  unfold create_table_if_not_exists.
  destruct (find_table name (tables db)); congruence.
Qed.

Lemma select_by_title_None (title : string) (db : store) :
  select_master_by_title title db = None ->
  forall p, In p (projects_master db) -> Master.title p <> title.
Proof.
  unfold select_master_by_title. intros H p Hin Heq.
  apply (find_none _ _ H) in Hin. apply String.eqb_neq in Hin. contradiction.
Qed.

Lemma select_by_title_Some (title : string) (db : store) (p : Master.row) :
  select_master_by_title title db = Some p ->
  In p (projects_master db) /\ Master.title p = title.
Proof.
  unfold select_master_by_title. intros H. apply find_some in H as [Hin He].
  apply String.eqb_eq in He. auto.
Qed.

(** [start_project], by cases on the title. *)
Lemma start_project_cases (title_entry details_entry : string) (now : Z) (a : app) :
  consistent (conn a) ->
  let title := Py.strip title_entry in
  let table_name := sanitize_table_name title in
  (title = "" /\ start_project title_entry details_entry now a = (InputError, a))
  \/
  (title <> "" /\
   (exists p, select_master_by_title title (conn a) = Some p) /\
   start_project title_entry details_entry now a = (DuplicateTitle, a))
  \/
  (title <> "" /\ select_master_by_title title (conn a) = None /\
   (exists p, In p (projects_master (conn a)) /\ Master.table_name p = table_name) /\
   start_project title_entry details_entry now a = (TitleOrTableExists, a))
  \/
  (title <> "" /\ select_master_by_title title (conn a) = None /\
   (forall p, In p (projects_master (conn a)) -> Master.table_name p <> table_name) /\
   exists rows,
     select_table table_name (create_table_if_not_exists table_name (conn a))
       = Ok rows /\
     start_project title_entry details_entry now a =
     (Started,
      mk_app
        (mk (projects_master (conn a) ++ [created_row title_entry details_entry (conn a)])%list
            (replace_table table_name (rows ++ [started_row rows now])%list
               (tables (create_table_if_not_exists table_name (conn a)))))
        (Some (Master.id (created_row title_entry details_entry (conn a))))
        (Some table_name))).
Proof.
  intros Hc title table_name. unfold start_project. fold title. fold table_name.
  destruct (String.eqb_spec title "") as [He|Hne]; [left; auto|right].
  destruct (select_master_by_title title (conn a)) as [p|] eqn:Es; [left; eauto|right].
  unfold insert_master. rewrite create_projects_master.
  destruct (existsb _ (projects_master (conn a))) eqn:Ex.
  - left. repeat split; auto.
    + apply existsb_exists in Ex as [p [Hin Hp]].
      apply orb_true_iff in Hp as [Hp|Hp].
      * apply String.eqb_eq in Hp.
        exfalso. exact (select_by_title_None _ _ Es p Hin Hp).
      * apply String.eqb_eq in Hp. eauto.
    + apply existsb_exists in Ex as [p [Hin Hp]].
      apply orb_true_iff in Hp as [Hp|Hp]; apply String.eqb_eq in Hp.
      * exfalso. exact (select_by_title_None _ _ Es p Hin Hp).
      * rewrite create_noop.
        -- now rewrite app_eta.
        -- rewrite <- Hp.
           pose proof (rows_ok _ Hc) as Hr. rewrite Forall_forall in Hr.
           apply (Hr p Hin).
  - right. repeat split; auto.
    + intros p Hin Hp.
      assert (Hf := Ex). rewrite <- not_true_iff_false in Hf. apply Hf.
      apply existsb_exists. exists p. split; auto.
      apply orb_true_iff. right. now apply String.eqb_eq.
    + destruct (select_create table_name (conn a)) as [rows [Hsel Hrows]].
      exists rows. split; [exact Hsel|].
      unfold insert_log, select_table in *. cbn [tables projects_master].
      destruct (find_table table_name
                  (tables (create_table_if_not_exists table_name (conn a))))
        as [rows'|]; [|discriminate].
      injection Hsel as ->. reflexivity.
Qed.

(** [stop_project] on a running slot whose table has an open row. *)
Lemma stop_project_running (now : Z) (a : app) (pid : Z) (tbl : string)
  (rows : list Log.row) (e : Log.row) :
  current_project_id a = Some pid -> pid <> 0 ->
  current_project_table a = Some tbl -> tbl <> "" ->
  select_table tbl (conn a) = Ok rows ->
  select_last_open rows = Some e ->
  stop_project now a =
  (Stopped,
   mk_app (mk (projects_master (conn a))
              (replace_table tbl (stop_rows e now rows) (tables (conn a))))
          None None).
Proof.
  intros Hid Hpid Htbl Hne Hsel Hopen. unfold stop_project.
  rewrite Hid, Htbl. cbn [truthy_id truthy_str].
  apply Z.eqb_neq in Hpid. apply String.eqb_neq in Hne. rewrite Hpid, Hne.
  cbn [negb andb]. rewrite Hsel, Hopen.
  unfold update_log. unfold select_table in Hsel.
  destruct (find_table tbl (tables (conn a))) as [rows'|]; [|discriminate].
  injection Hsel as ->. reflexivity.
Qed.

(** [start_recording] on a registered project whose log has no open row. *)
Lemma start_recording_idle (title : string) (now : Z) (a : app)
  (p : Master.row) (rows : list Log.row) :
  title <> no_available_projects ->
  select_master_by_title title (conn a) = Some p ->
  select_table (Master.table_name p) (conn a) = Ok rows ->
  existsb Log.is_open rows = false ->
  start_recording (Some title) now a =
  (Started,
   mk_app (mk (projects_master (conn a))
              (replace_table (Master.table_name p)
                 (rows ++ [started_row rows now])%list (tables (conn a))))
          (Some (Master.id p)) (Some (Master.table_name p))).
Proof.
  intros Hne Hp Hsel Hidle. unfold start_recording.
  apply String.eqb_neq in Hne. rewrite Hne, Hp, Hsel.
  rewrite count_open_existsb, Hidle.
  unfold insert_log. unfold select_table in Hsel.
  destruct (find_table (Master.table_name p) (tables (conn a))) as [rows'|];
    [|discriminate].
  injection Hsel as ->. reflexivity.
Qed.

(** [start_recording] on a project whose log has an open row. *)
Lemma start_recording_running (title : string) (now : Z) (a : app)
  (p : Master.row) (rows : list Log.row) :
  select_master_by_title title (conn a) = Some p ->
  select_table (Master.table_name p) (conn a) = Ok rows ->
  existsb Log.is_open rows = true ->
  start_recording (Some title) now a =
  (if String.eqb title no_available_projects then Silent else AlreadyRunning, a).
Proof.
  intros Hp Hsel Hopen. unfold start_recording.
  destruct (String.eqb title no_available_projects); [reflexivity|].
  now rewrite Hp, Hsel, count_open_existsb, Hopen.
Qed.

End Handlers.

(** * What every run maintains *)

Section Invariants.

Import Sqlite.

Lemma row_ok_tables (db db' : store) (p : Master.row) :
  (forall n, find_table n (tables db) <> None -> find_table n (tables db') <> None) ->
  row_ok db p -> row_ok db' p.
Proof. unfold row_ok. intros H [H1 [H2 [H3 H4]]]. auto. Qed.

Lemma log_ok_started (rows : list Log.row) (now : Z) :
  log_ok rows -> log_ok (rows ++ [started_row rows now]).
Proof.
  unfold log_ok. intros H. apply Forall_app. split; [exact H|].
  constructor; [reflexivity|constructor].
Qed.

Lemma log_ok_stopped (e : Log.row) (now : Z) (rows : list Log.row) :
  log_ok rows -> log_ok (stop_rows e now rows).
Proof.
  unfold log_ok, stop_rows. intros H. apply Forall_map.
  eapply Forall_impl; [|exact H]. intros r Hr. cbv beta.
  destruct (Log.id r =? Log.id e); [discriminate|exact Hr].
Qed.

Lemma consistent_find (db : store) (n : string) (rows : list Log.row) :
  consistent db -> find_table n (tables db) = Some rows -> log_ok rows.
Proof.
  intros Hc Hf. destruct (find_table_In _ _ _ Hf) as [m [Hin _]].
  pose proof (logs_ok _ Hc) as Hl. rewrite Forall_forall in Hl.
  exact (Hl _ Hin).
Qed.

(** Rewriting a log that exists. *)
Lemma consistent_replace (db : store) (n : string) (rows' : list Log.row) :
  consistent db -> log_ok rows' ->
  consistent (mk (projects_master db) (replace_table n rows' (tables db))).
Proof.
  intros [H1 H2 H3 H4] Hok. constructor; cbn [projects_master tables].
  - eapply Forall_impl; [|exact H1]. intros p. apply row_ok_tables.
    cbn [tables]. intros m. apply find_table_names.
    symmetry. apply map_fst_replace.
  - exact H2.
  - apply Forall_replace; [|exact H3]. intros; exact Hok.
  - apply Forall_replace; [|exact H4]. intros m rows _ Hp. exact Hp.
Qed.

Lemma ids_positive (db : store) :
  consistent db -> Forall (fun i => 1 <= i) (map Master.id (projects_master db)).
Proof.
  intros Hc. apply Forall_map. eapply Forall_impl; [|exact (rows_ok _ Hc)].
  intros p [_ [_ [H _]]]. exact H.
Qed.

(** Registering a project and inserting its first interval. *)
Lemma consistent_start_project (db : store) (title_entry details_entry : string)
  (now : Z) (rows : list Log.row) :
  let title := Py.strip title_entry in
  let table_name := sanitize_table_name title in
  consistent db -> title <> "" ->
  select_table table_name (create_table_if_not_exists table_name db) = Ok rows ->
  consistent
    (mk (projects_master db ++ [created_row title_entry details_entry db])%list
        (replace_table table_name (rows ++ [started_row rows now])%list
           (tables (create_table_if_not_exists table_name db)))).
Proof.
  intros title table_name Hc Hne Hsel.
  set (db1 := create_table_if_not_exists table_name db) in *.
  set (new := created_row title_entry details_entry db).
  assert (Hfind : find_table table_name (tables db1) = Some rows).
  { unfold select_table in Hsel.
    destruct (find_table table_name (tables db1)); congruence. }
  assert (Hkeep : forall n, find_table n (tables db) <> None ->
            find_table n (replace_table table_name (rows ++ [started_row rows now])%list
                            (tables db1)) <> None).
  { intros n Hn. eapply find_table_names; [symmetry; apply map_fst_replace|].
    now apply create_keeps. }
  assert (Hlogs1 : Forall (fun t => log_ok (snd t)) (tables db1)).
  { unfold db1, create_table_if_not_exists.
    destruct (find_table table_name (tables db)); [exact (logs_ok _ Hc)|].
    cbn [tables]. apply Forall_app. split; [exact (logs_ok _ Hc)|].
    repeat constructor. }
  assert (Hrows : log_ok rows).
  { destruct (find_table_In _ _ _ Hfind) as [m [Hin _]].
    rewrite Forall_forall in Hlogs1. exact (Hlogs1 _ Hin). }
  assert (Hown1 : Forall (fun t => exists p,
              In p (projects_master db ++ [new])%list /\ Master.table_name p = fst t)
            (tables db1)).
  { assert (Hold : Forall (fun t => exists p,
              In p (projects_master db ++ [new])%list /\ Master.table_name p = fst t)
            (tables db)).
    { eapply Forall_impl; [|exact (tables_owned _ Hc)].
      intros t [p [Hin Hp]]. exists p. split; [apply in_or_app; auto|exact Hp]. }
    unfold db1, create_table_if_not_exists.
    destruct (find_table table_name (tables db)); [exact Hold|].
    cbn [tables]. apply Forall_app. split; [exact Hold|].
    constructor; [|constructor]. exists new. split; [|reflexivity].
    apply in_or_app. right. now left. }
  constructor; cbn [projects_master tables].
  - apply Forall_app. split.
    + eapply Forall_impl; [|exact (rows_ok _ Hc)]. intros p.
      apply row_ok_tables. exact Hkeep.
    + constructor; [|constructor]. unfold row_ok, new, created_row.
      cbn [Master.table_name Master.title Master.id tables].
      repeat split; auto.
      * apply next_rowid_pos, ids_positive, Hc.
      * eapply find_table_names; [symmetry; apply map_fst_replace|].
        fold table_name. fold title. fold table_name. congruence.
  - rewrite map_app. apply NoDup_app; [exact (ids_unique _ Hc)|repeat constructor; auto|].
    intros i Hin [Hi|[]]. cbn [map] in Hi.
    pose proof (next_rowid_gt (map Master.id (projects_master db))) as Hgt.
    rewrite Forall_forall in Hgt. specialize (Hgt i Hin).
    unfold new, created_row in Hi. cbn [Master.id] in Hi. lia.
  - apply Forall_replace; [|exact Hlogs1].
    intros. cbn [snd]. now apply log_ok_started.
  - apply Forall_replace; [|exact Hown1]. intros m r _ Hp. exact Hp.
Qed.

Lemma open_projects_In (ps : list Master.row) (db : store) (l : list Master.row) :
  open_projects ps db = Ok l -> forall q, In q l -> In q ps.
Proof.
  revert l. induction ps as [|p ps IH]; intros l; simpl.
  - intros [= <-] q [].
  - unfold bind.
    destruct (select_table (Master.table_name p) db) as [rows|]; [|discriminate].
    destruct (open_projects ps db) as [found|]; [|discriminate].
    specialize (IH found eq_refl).
    intros [= <-] q Hq.
    destruct (find Log.is_open rows); [destruct Hq as [<-|Hq]|]; auto.
Qed.

Lemma slot_ok_set (db : store) (p : Master.row) :
  row_ok db p ->
  slot_ok (mk_app db (Some (Master.id p)) (Some (Master.table_name p))).
Proof.
  intros [H1 [_ [H3 _]]]. unfold slot_ok. cbn.
  rewrite H1, sanitize_nonempty.
  destruct (Z.eqb_spec (Master.id p) 0); [lia|]. auto.
Qed.

Lemma slot_ok_conn (a : app) (db : store) :
  slot_ok a -> slot_ok (mk_app db (current_project_id a) (current_project_table a)).
Proof. auto. Qed.

Lemma In_row_ok (db : store) (p : Master.row) :
  consistent db -> In p (projects_master db) -> row_ok db p.
Proof.
  intros Hc Hin. pose proof (rows_ok _ Hc) as H. rewrite Forall_forall in H. auto.
Qed.

Lemma invariant_start_project (t d : string) (now : Z) (a : app) :
  invariant a -> invariant (snd (start_project t d now a)).
Proof.
  intros [Hc Hs].
  destruct (start_project_cases t d now a Hc)
    as [[_ ->]|[[_ [_ ->]]|[[_ [_ [_ ->]]]|[Hne [_ [_ [rows [Hsel ->]]]]]]]];
    try (split; assumption).
  cbn [snd]. pose proof (consistent_start_project _ t d now rows Hc Hne Hsel) as Hc'.
  split; [exact Hc'|].
  apply (slot_ok_set _ (created_row t d (conn a))).
  apply (In_row_ok _ _ Hc'). cbn [projects_master].
  apply in_or_app. right. now left.
Qed.

Lemma invariant_start_recording (sel : option string) (now : Z) (a : app) :
  invariant a -> invariant (snd (start_recording sel now a)).
Proof.
  intros [Hc Hs]. unfold start_recording.
  destruct sel as [title|]; [|split; assumption].
  destruct (String.eqb title no_available_projects); [split; assumption|].
  destruct (select_master_by_title title (conn a)) as [p|] eqn:Ep;
    [|split; assumption].
  destruct (select_table (Master.table_name p) (conn a)) as [rows|] eqn:Er;
    [|split; assumption].
  destruct (0 <? count_open rows)%nat; [split; assumption|].
  unfold insert_log. unfold select_table in Er.
  destruct (find_table (Master.table_name p) (tables (conn a))) as [rows'|] eqn:Ef;
    [|discriminate].
  injection Er as ->. cbn [snd].
  assert (Hc' : consistent (mk (projects_master (conn a))
            (replace_table (Master.table_name p)
               (rows ++ [Log.mk (next_rowid (map Log.id rows)) (strftime now)
                            None None None])%list (tables (conn a))))).
  { apply consistent_replace; [exact Hc|].
    apply (log_ok_started rows now). eapply consistent_find; eauto. }
  split; [exact Hc'|].
  apply slot_ok_set. apply (In_row_ok _ _ Hc'). cbn [projects_master].
  now apply select_by_title_Some in Ep.
Qed.

Lemma invariant_stop_project (now : Z) (a : app) :
  invariant a -> invariant (snd (stop_project now a)).
Proof.
  intros [Hc Hs]. unfold stop_project.
  destruct (current_project_id a) as [pid|] eqn:Eid; [|split; assumption].
  destruct (current_project_table a) as [tbl|] eqn:Et; [|split; assumption].
  destruct (truthy_id (Some pid) && truthy_str (Some tbl)); [|split; assumption].
  destruct (select_table tbl (conn a)) as [rows|] eqn:Er; [|split; assumption].
  destruct (select_last_open rows) as [e|] eqn:Ee; [|split; assumption].
  unfold update_log. unfold select_table in Er.
  destruct (find_table tbl (tables (conn a))) as [rows'|] eqn:Ef; [|discriminate].
  injection Er as ->. cbn [snd]. split; [|split; reflexivity].
  cbn [conn]. apply consistent_replace; [exact Hc|].
  apply (log_ok_stopped e now rows). eapply consistent_find; eauto.
Qed.

Lemma invariant_check_open_projects (a : app) :
  invariant a -> invariant (snd (check_open_projects a)).
Proof.
  intros [Hc Hs]. unfold check_open_projects.
  destruct (open_projects (projects_master (conn a)) (conn a)) as [[|q l]|] eqn:Eo;
    try (split; assumption).
  destruct (current_project_id a); [split; assumption|].
  cbn [snd]. split; [exact Hc|].
  apply slot_ok_set. apply (In_row_ok _ _ Hc).
  eapply open_projects_In; [exact Eo|now left].
Qed.

Lemma invariant_step (e : event) (a : app) :
  invariant a -> invariant (snd (step e a)).
Proof.
  intros H. destruct e; cbn [step].
  - now apply invariant_start_project.
  - now apply invariant_start_recording.
  - now apply invariant_stop_project.
  - unfold restart. apply invariant_check_open_projects.
    destruct H as [Hc _]. split; [exact Hc|split; reflexivity].
Qed.

Lemma invariant_initial : invariant initial.
Proof.
  split; [|split; reflexivity].
  constructor; cbn; constructor.
Qed.

Lemma invariant_run (es : list event) (a : app) :
  invariant a -> invariant (run es a).
Proof.
  revert a. induction es as [|e es IH]; intros a H; cbn [run]; auto.
  apply IH. now apply invariant_step.
Qed.

(** Every reachable state keeps the store consistent and the slot
    readable. *)
Lemma reachable_invariant (a : app) : reachable a -> invariant a.
Proof. intros [es <-]. apply invariant_run, invariant_initial. Qed.

Lemma reachable_step (e : event) (a : app) :
  reachable a -> reachable (snd (step e a)).
Proof.
  intros [es <-]. exists (es ++ [e])%list.
  generalize initial. induction es as [|x es IH]; intros a0; cbn; auto.
Qed.

End Invariants.

(** * Aggregation *)

Lemma counted_malformed (d : option string) :
  duration_seconds d = None -> counted d = 0.
Proof. unfold counted. now intros ->. Qed.

(** The total-time loop passes over an entry that counts for nothing. *)
Lemma sum_durations_skip
  (before after : list (option string)) (bad : option string) (total : Z) :
  duration_seconds bad = None ->
  sum_durations (before ++ bad :: after)%list total =
  sum_durations (before ++ after)%list total.
Proof.
  intros Hbad. rewrite !sum_durations_spec, !map_app, !sum_Z_app.
  cbn [map]. rewrite sum_Z_cons, (counted_malformed bad Hbad). lia.
Qed.

(** C5: a malformed entry among the stored durations does not stop the
    total-time loop, and the total is the one of the sequence without
    that entry. *)
Theorem malformed_duration_is_skipped
  (before after : list (option string)) (bad : option string) (total : Z) :
  duration_seconds bad = None ->
  sum_durations (before ++ bad :: after)%list total =
  sum_durations (before ++ after)%list total.
Proof. apply sum_durations_skip. Qed.

Lemma malformed_duration_is_skipped_witness :
  duration_seconds (Some "N/A") = None /\
  sum_durations [Some "0:02:05"; Some "N/A"; Some "0:01:00"] 0 =
  sum_durations [Some "0:02:05"; Some "0:01:00"] 0.
Proof.
  split; [reflexivity|].
  exact (malformed_duration_is_skipped [Some "0:02:05"] [Some "0:01:00"]
           (Some "N/A") 0 eq_refl).
Defined.

Section Totals.

Import Sqlite.

Lemma find_by_id (l : list Master.row) (p : Master.row) :
  NoDup (map Master.id l) -> In p l ->
  find (fun q => Master.id q =? Master.id p) l = Some p.
Proof.
  induction l as [|q l IH]; intros Hnd Hin; [contradiction|].
  cbn [map] in Hnd. inversion Hnd as [|? ? Hq Hl]; subst. cbn [find].
  destruct Hin as [->|Hin].
  - now rewrite Z.eqb_refl.
  - destruct (Z.eqb_spec (Master.id q) (Master.id p)) as [E|_]; [|auto].
    exfalso. apply Hq. rewrite E. now apply in_map.
Qed.

(** The total of one registered project is the sum over its own log. *)
Lemma project_total (db : store) (p : Master.row) :
  consistent db -> In p (projects_master db) ->
  exists rows,
    select_table (Master.table_name p) db = Ok rows /\
    update_total_time (Some (Master.id p)) db =
      Ok (sum_durations (map Log.duration rows) 0).
Proof.
  intros Hc Hin. destruct (In_row_ok _ _ Hc Hin) as [Ht [_ [Hid Hf]]].
  unfold update_total_time, get_project_title, select_master_by_id.
  cbn [truthy_id]. destruct (Z.eqb_spec (Master.id p) 0) as [E|_]; [lia|].
  cbn [negb]. rewrite (find_by_id _ _ (ids_unique _ Hc) Hin), <- Ht.
  unfold select_table.
  destruct (find_table (Master.table_name p) (tables db)) as [rows|];
    [|congruence].
  exists rows. split; reflexivity.
Qed.

Lemma all_projects_total (db : store) (ps : list Master.row) :
  consistent db -> (forall p, In p ps -> In p (projects_master db)) ->
  exists totals durations,
    Forall2 (fun p t => update_total_time (Some (Master.id p)) db = Ok t) ps totals /\
    all_durations (map Master.table_name ps) db = Ok durations /\
    sum_durations durations 0 = sum_Z totals.
Proof.
  intros Hc. induction ps as [|p ps IH]; intros Hin.
  - exists [], []. repeat split; constructor.
  - destruct IH as [totals [durations [H1 [H2 H3]]]]; [intros q Hq; apply Hin; now right|].
    destruct (project_total db p Hc (Hin p (or_introl eq_refl)))
      as [rows [Hsel Htot]].
    exists (sum_durations (map Log.duration rows) 0 :: totals),
           (map Log.duration rows ++ durations)%list.
    split; [constructor; assumption|]. split.
    + cbn [map all_durations]. rewrite Hsel, H2. reflexivity.
    + rewrite sum_durations_app, H3, sum_Z_cons. reflexivity.
Qed.

End Totals.

(** C6: in every state of the store the application can reach, the
    global total (no filter) is the sum, over the registered projects,
    of the total computed with that project as filter. *)
Theorem global_total_is_sum_of_project_totals (a : app) :
  reachable a ->
  exists totals,
    Forall2 (fun p t => update_total_time (Some (Master.id p)) (conn a) = Ok t)
            (Sqlite.projects_master (conn a)) totals /\
    update_total_time None (conn a) = Ok (sum_Z totals).
Proof.
  intros Hr. destruct (reachable_invariant a Hr) as [Hc _].
  destruct (all_projects_total (conn a) (Sqlite.projects_master (conn a)) Hc)
    as [totals [durations [H1 [H2 H3]]]]; [auto|].
  exists totals. split; [exact H1|].
  unfold update_total_time. cbn [truthy_id]. rewrite H2. cbn [bind].
  now rewrite H3.
Qed.

Lemma global_total_is_sum_of_project_totals_witness :
  exists totals,
    Forall2 (fun p t =>
               update_total_time (Some (Master.id p))
                 (conn (run [StartProject "Alpha" "" 0; StopProject 125000000;
                             StartProject "Beta" "" 200000000;
                             StopProject 260000000] initial)) = Ok t)
            (Sqlite.projects_master
               (conn (run [StartProject "Alpha" "" 0; StopProject 125000000;
                           StartProject "Beta" "" 200000000;
                           StopProject 260000000] initial))) totals /\
    update_total_time None
      (conn (run [StartProject "Alpha" "" 0; StopProject 125000000;
                  StartProject "Beta" "" 200000000;
                  StopProject 260000000] initial)) = Ok (sum_Z totals).
Proof.
  apply (global_total_is_sum_of_project_totals
           (run [StartProject "Alpha" "" 0; StopProject 125000000;
                 StartProject "Beta" "" 200000000; StopProject 260000000] initial)).
  exists [StartProject "Alpha" "" 0; StopProject 125000000;
          StartProject "Beta" "" 200000000; StopProject 260000000].
  reflexivity.
Defined.

(** * Recovery at startup *)

Section Recovery.

Import Sqlite.

(** The loop of [check_open_projects] keeps the projects with an open
    interval, in the order of the registry. *)
Lemma open_projects_filter (db : store) (ps : list Master.row) :
  (forall p, In p ps -> find_table (Master.table_name p) (tables db) <> None) ->
  open_projects ps db = Ok (List.filter (has_open_interval db) ps).
Proof.
  induction ps as [|p ps IH]; intros Hex; [reflexivity|].
  cbn [open_projects List.filter]. rewrite IH by (intros q Hq; apply Hex; now right).
  unfold has_open_interval at 2, select_table.
  destruct (find_table (Master.table_name p) (tables db)) as [rows|] eqn:E.
  - cbn [bind]. rewrite find_existsb. now destruct (find Log.is_open rows).
  - exfalso. apply (Hex p); [now left|exact E].
Qed.


End Recovery.




(** * Creating a project *)



(** * Starting a project that runs already *)

(** C7, as stated, fails on the project whose title is the placeholder
    of the project list: its second start returns without a message. *)
Lemma second_start_of_placeholder_title_is_silent :
  exists p rows,
    Sqlite.select_master_by_title "No available projects to track."
      (conn (run [StartProject "No available projects to track." "" 0] initial))
      = Some p /\
    Sqlite.select_table (Master.table_name p)
      (conn (run [StartProject "No available projects to track." "" 0] initial))
      = Ok rows /\
    existsb Log.is_open rows = true /\
    fst (start_recording (Some "No available projects to track.") 60000000
           (run [StartProject "No available projects to track." "" 0] initial))
    <> AlreadyRunning.
Proof.
  eexists. eexists. repeat split; try reflexivity. discriminate.
Qed.

(** C7, amended: a second start on a project that has an open interval
    leaves the state unchanged; it ends with the already-tracked warning
    unless the title is the placeholder of the project list, for which
    the handler returns silently. *)
Theorem second_start_changes_nothing
  (title : string) (now : Z) (a : app) (p : Master.row) (rows : list Log.row) :
  Sqlite.select_master_by_title title (conn a) = Some p ->
  Sqlite.select_table (Master.table_name p) (conn a) = Ok rows ->
  existsb Log.is_open rows = true ->
  snd (start_recording (Some title) now a) = a /\
  (title <> no_available_projects ->
   fst (start_recording (Some title) now a) = AlreadyRunning) /\
  (title = no_available_projects ->
   fst (start_recording (Some title) now a) = Silent).
Proof.
  intros Hp Hsel Hopen.
  rewrite (start_recording_running title now a p rows Hp Hsel Hopen).
  repeat split.
  - intros Hne. apply String.eqb_neq in Hne. now rewrite Hne.
  - intros ->. reflexivity.
Qed.

Lemma second_start_changes_nothing_witness :
  snd (start_recording (Some "Alpha") 60000000
         (run [StartProject "Alpha" "" 0] initial))
  = run [StartProject "Alpha" "" 0] initial /\
  fst (start_recording (Some "Alpha") 60000000
         (run [StartProject "Alpha" "" 0] initial)) = AlreadyRunning.
Proof.
  pose (H := second_start_changes_nothing "Alpha" 60000000
               (run [StartProject "Alpha" "" 0] initial)
               (Master.mk 1 "Alpha" "" "project_Alpha")
               [Log.mk 1 0 None None None] eq_refl eq_refl eq_refl).
  split; [exact (proj1 H)|].
  apply (proj1 (proj2 H)). discriminate.
Defined.

(** * Starting while another project runs *)

(** C3, as stated, fails: with project B in the running-project slot a
    start on project A succeeds, inserts a row and takes the slot. *)
Lemma start_while_another_project_runs :
  current_project_id
    (run [StartProject "A" "" 0; StopProject 60000000;
          StartProject "B" "" 120000000] initial) = Some 2 /\
  Sqlite.select_master_by_title "A"
    (conn (run [StartProject "A" "" 0; StopProject 60000000;
                StartProject "B" "" 120000000] initial))
    = Some (Master.mk 1 "A" "" "project_A") /\
  start_recording (Some "A") 180000000
    (run [StartProject "A" "" 0; StopProject 60000000;
          StartProject "B" "" 120000000] initial) =
  (Started,
   mk_app
     (Sqlite.mk
        [Master.mk 1 "A" "" "project_A"; Master.mk 2 "B" "" "project_B"]
        [("project_A",
          [Log.mk 1 0 (Some 60) (Some "0:01:00") (Some "00:01:00");
           Log.mk 2 180 None None None]);
         ("project_B", [Log.mk 1 120 None None None])])
     (Some 1) (Some "project_A")).
Proof. repeat split. Qed.

(** C3, amended: the start handlers do not read the running-project
    slot.  Whatever the slot holds, [start_recording] on a registered
    project whose own log has no open interval (and whose title is not
    the list placeholder) succeeds, appends an open row to that log and
    puts the project in the slot; and the outcome and the store effect
    of [start_project] do not depend on the slot. *)
Theorem start_ignores_running_slot
  (db : Sqlite.store) (slot_id : option Z) (slot_table : option string) :
  (forall title now p rows,
     title <> no_available_projects ->
     Sqlite.select_master_by_title title db = Some p ->
     Sqlite.select_table (Master.table_name p) db = Ok rows ->
     existsb Log.is_open rows = false ->
     start_recording (Some title) now (mk_app db slot_id slot_table) =
     (Started,
      mk_app (Sqlite.mk (Sqlite.projects_master db)
                (Sqlite.replace_table (Master.table_name p)
                   (rows ++ [started_row rows now])%list (Sqlite.tables db)))
             (Some (Master.id p)) (Some (Master.table_name p)))) /\
  (forall title_entry details_entry now,
     fst (start_project title_entry details_entry now (mk_app db slot_id slot_table))
     = fst (start_project title_entry details_entry now (mk_app db None None)) /\
     conn (snd (start_project title_entry details_entry now
                  (mk_app db slot_id slot_table)))
     = conn (snd (start_project title_entry details_entry now
                    (mk_app db None None)))).
Proof.
  split.
  - intros title now p rows Hne Hp Hsel Hidle.
    exact (start_recording_idle title now (mk_app db slot_id slot_table) p rows
             Hne Hp Hsel Hidle).
  - intros t d now. unfold start_project. cbn [conn current_project_id
      current_project_table].
    destruct (String.eqb (Py.strip t) ""); [split; reflexivity|].
    destruct (Sqlite.select_master_by_title (Py.strip t) db);
      [split; reflexivity|].
    destruct (Sqlite.insert_master _ _ _ _) as [[db2 rowid]|[]];
      split; reflexivity.
Qed.

Lemma start_ignores_running_slot_witness :
  start_recording (Some "A") 180000000
    (mk_app
       (Sqlite.mk
          [Master.mk 1 "A" "" "project_A"; Master.mk 2 "B" "" "project_B"]
          [("project_A", [Log.mk 1 0 (Some 60) (Some "0:01:00") (Some "00:01:00")]);
           ("project_B", [Log.mk 1 120 None None None])])
       (Some 2) (Some "project_B")) =
  (Started,
   mk_app
     (Sqlite.mk
        [Master.mk 1 "A" "" "project_A"; Master.mk 2 "B" "" "project_B"]
        [("project_A",
          [Log.mk 1 0 (Some 60) (Some "0:01:00") (Some "00:01:00");
           Log.mk 2 180 None None None]);
         ("project_B", [Log.mk 1 120 None None None])])
     (Some 1) (Some "project_A")).
Proof.
  refine (proj1 (start_ignores_running_slot
            (Sqlite.mk
               [Master.mk 1 "A" "" "project_A"; Master.mk 2 "B" "" "project_B"]
               [("project_A",
                 [Log.mk 1 0 (Some 60) (Some "0:01:00") (Some "00:01:00")]);
                ("project_B", [Log.mk 1 120 None None None])])
            (Some 2) (Some "project_B"))
            "A" 180000000 (Master.mk 1 "A" "" "project_A")
            [Log.mk 1 0 (Some 60) (Some "0:01:00") (Some "00:01:00")]
            _ eq_refl eq_refl eq_refl).
  discriminate.
Defined.

(** * One open interval per log *)

Section SingleOpen.

Import Sqlite.

Lemma count_open_app (l1 l2 : list Log.row) :
  count_open (l1 ++ l2) = (count_open l1 + count_open l2)%nat.
Proof. unfold count_open. now rewrite filter_app, length_app. Qed.

Lemma count_open_stop_rows (e : Log.row) (now : Z) (rows : list Log.row) :
  (count_open (stop_rows e now rows) <= count_open rows)%nat.
Proof.
  unfold count_open, stop_rows.
  assert (Hw : Log.end_time (stopped_row e now rows) = Some (strftime now))
    by reflexivity.
  revert Hw. generalize (stopped_row e now rows) as w. intros w Hw. cbv zeta.
  induction rows as [|r rows IH]; cbn [map List.filter]; [lia|].
  destruct (Log.id r =? Log.id e).
  - unfold Log.is_open at 1. cbn [Log.end_time].
    replace (match Log.end_time w with Some _ => false | None => true end)
      with false by now rewrite Hw.
    destruct (Log.is_open r); cbn [List.length]; lia.
  - destruct (Log.is_open r); cbn [List.length]; lia.
Qed.

Lemma single_open_replace (db : store) (n : string) (rows' : list Log.row) :
  single_open db -> (count_open rows' <= 1)%nat ->
  single_open (mk (projects_master db) (replace_table n rows' (tables db))).
Proof.
  intros H Hr m rows Hin. cbn [tables] in Hin.
  destruct (In_replace _ _ _ _ _ Hin) as [Hold|[-> _]]; [eauto|exact Hr].
Qed.

(** [stop_project] keeps every log at one open interval at most. *)
Lemma single_open_stop_project (now : Z) (a : app) :
  single_open (conn a) -> single_open (conn (snd (stop_project now a))).
Proof.
  intros H. unfold stop_project.
  destruct (current_project_id a); [|exact H].
  destruct (current_project_table a) as [tbl|]; [|exact H].
  destruct (_ && _); [|exact H].
  destruct (select_table tbl (conn a)) as [rows|] eqn:Er; [|exact H].
  destruct (select_last_open rows) as [e|]; [|exact H].
  unfold update_log. unfold select_table in Er.
  destruct (find_table tbl (tables (conn a))) as [rows'|] eqn:Ef; [|exact H].
  injection Er as ->. cbn [snd conn].
  apply single_open_replace; [exact H|].
  destruct (find_table_In _ _ _ Ef) as [m [Hin _]].
  pose proof (count_open_stop_rows e now rows) as H1.
  pose proof (H m rows Hin) as H2.
  change (count_open (stop_rows e now rows) <= 1)%nat. lia.
Qed.

(** [start_recording] keeps every log at one open interval at most. *)
Lemma single_open_start_recording (sel : option string) (now : Z) (a : app) :
  single_open (conn a) -> single_open (conn (snd (start_recording sel now a))).
Proof.
  intros H. unfold start_recording.
  destruct sel as [title|]; [|exact H].
  destruct (String.eqb title no_available_projects); [exact H|].
  destruct (select_master_by_title title (conn a)) as [p|]; [|exact H].
  destruct (select_table (Master.table_name p) (conn a)) as [rows|] eqn:Er;
    [|exact H].
  destruct (0 <? count_open rows)%nat eqn:Ec; [exact H|].
  unfold insert_log. unfold select_table in Er.
  destruct (find_table (Master.table_name p) (tables (conn a))) as [rows'|];
    [|exact H].
  injection Er as ->. cbn [snd conn].
  apply single_open_replace; [exact H|].
  rewrite count_open_app. apply Nat.ltb_ge in Ec. cbn. lia.
Qed.

(** [start_project] keeps it too when no existing table answers to the
    name of the new one. *)
Lemma single_open_start_project (t d : string) (now : Z) (a : app) :
  consistent (conn a) -> single_open (conn a) ->
  find_table (sanitize_table_name (Py.strip t)) (tables (conn a)) = None ->
  single_open (conn (snd (start_project t d now a))).
Proof.
  intros Hc H Hfresh.
  destruct (start_project_cases t d now a Hc)
    as [[_ ->]|[[_ [_ ->]]|[[_ [_ [_ ->]]]|[_ [_ [_ [rows [Hsel ->]]]]]]]];
    try exact H.
  cbn [snd conn].
  destruct (select_create (sanitize_table_name (Py.strip t)) (conn a))
    as [rows' [Hsel' [Hf|[_ [-> Hcr]]]]]; [congruence|].
  rewrite Hsel in Hsel'. injection Hsel' as ->.
  rewrite Hcr. cbn [tables].
  intros m r Hin. cbn [tables] in Hin.
  destruct (In_replace _ _ _ _ _ Hin) as [Hold|[-> _]].
  - apply in_app_or in Hold as [Hold|[[= <- <-]|[]]]; [eauto|cbn; lia].
  - cbn. lia.
Qed.

End SingleOpen.

(** C4 fails on the code: SQLite resolves the table names
    [project_abc] and [project_ABC] to one table, the titles "abc" and
    "ABC" are different texts, and so creating "ABC" while "abc" runs
    puts a second open row in the log both projects share. *)
Theorem case_variant_titles_share_one_log :
  outcomes [StartProject "abc" "" 0; StartProject "ABC" "" 60000000] initial
    = [Started; Started] /\
  Sqlite.projects_master
    (conn (run [StartProject "abc" "" 0; StartProject "ABC" "" 60000000] initial))
    = [Master.mk 1 "abc" "" "project_abc"; Master.mk 2 "ABC" "" "project_ABC"] /\
  Sqlite.select_table "project_ABC"
    (conn (run [StartProject "abc" "" 0; StartProject "ABC" "" 60000000] initial))
    = Ok [Log.mk 1 0 None None None; Log.mk 2 60 None None None] /\
  ~ single_open
      (conn (run [StartProject "abc" "" 0; StartProject "ABC" "" 60000000] initial)).
Proof.
  repeat split.
  intros H.
  specialize (H "project_abc"
                [Log.mk 1 0 None None None; Log.mk 2 60 None None None]
                (or_introl eq_refl)).
  cbn in H. lia.
Qed.

(** * Stopping a running interval *)

Section Stop.

Import Sqlite.

Lemma stopped_row_In (e : Log.row) (now : Z) (rows : list Log.row) :
  In e rows -> In (stopped_row e now rows) (stop_rows e now rows).
Proof.
  intros Hin. unfold stop_rows. cbv zeta.
  apply in_map_iff. exists e. split; [|exact Hin].
  now rewrite Z.eqb_refl.
Qed.

Lemma stop_rows_same_id (e : Log.row) (now : Z) (rows : list Log.row) (r : Log.row) :
  In r (stop_rows e now rows) -> Log.id r = Log.id e ->
  Log.end_time r = Log.end_time (stopped_row e now rows) /\
  Log.duration r = Log.duration (stopped_row e now rows) /\
  Log.cumulative_time r = Log.cumulative_time (stopped_row e now rows).
Proof.
  unfold stop_rows. cbv zeta. intros Hin Hid.
  apply in_map_iff in Hin as [r0 [Hr0 _]].
  destruct (Z.eqb_spec (Log.id r0) (Log.id e)) as [_|Hne].
  - subst r. auto.
  - subst r. contradiction.
Qed.

(** In a reachable state with a project in the slot and an open row in
    its log, [stop_project] closes that row. *)
Lemma stop_project_writes (now : Z) (a : app) (pid : Z) (tbl : string)
  (rows : list Log.row) (e : Log.row) :
  reachable a ->
  current_project_id a = Some pid ->
  current_project_table a = Some tbl ->
  select_table tbl (conn a) = Ok rows ->
  select_last_open rows = Some e ->
  stop_project now a =
    (Stopped,
     mk_app (mk (projects_master (conn a))
                (replace_table tbl (stop_rows e now rows) (tables (conn a))))
            None None) /\
  select_table tbl (conn (snd (stop_project now a))) = Ok (stop_rows e now rows) /\
  In (stopped_row e now rows) (stop_rows e now rows) /\
  log_ok rows.
Proof.
  intros Hr Hid Htbl Hsel Hopen.
  destruct (reachable_invariant a Hr) as [Hc [Hs1 Hs2]].
  rewrite Hid in Hs1. rewrite Htbl in Hs2. cbn in Hs1, Hs2.
  apply negb_true_iff in Hs1, Hs2.
  apply Z.eqb_neq in Hs1. apply String.eqb_neq in Hs2.
  assert (Hf : find_table tbl (tables (conn a)) = Some rows).
  { unfold select_table in Hsel.
    destruct (find_table tbl (tables (conn a))); congruence. }
  rewrite (stop_project_running now a pid tbl rows e Hid Hs1 Htbl Hs2 Hsel Hopen).
  repeat split.
  - cbn [snd conn]. unfold select_table. cbn [tables].
    rewrite find_replace_same by congruence. reflexivity.
  - apply stopped_row_In. now apply select_last_open_In in Hopen.
  - eapply consistent_find; eauto.
Qed.

End Stop.

(** C10: when a running interval is stopped 24 hours or more after its
    start, the duration written is the day part "N day(s), " followed by
    the clock part "H:MM:SS"; that text does not read back as a
    duration, so the cumulative loop of later stops and the total-time
    loop count it for nothing. *)
Theorem day_long_interval_is_left_out_of_totals
  (now : Z) (a : app) (pid : Z) (tbl : string)
  (rows : list Log.row) (e : Log.row) :
  reachable a ->
  current_project_id a = Some pid ->
  current_project_table a = Some tbl ->
  Sqlite.select_table tbl (conn a) = Ok rows ->
  Sqlite.select_last_open rows = Some e ->
  86400000000 <= now - strptime (Log.start_time e) ->
  let d := now - strptime (Log.start_time e) in
  let text := days_text (Timedelta.days d) ++ clock_text (Timedelta.seconds d) in
  fst (stop_project now a) = Stopped /\
  Sqlite.select_table tbl (conn (snd (stop_project now a)))
    = Ok (stop_rows e now rows) /\
  In (stopped_row e now rows) (stop_rows e now rows) /\
  Log.duration (stopped_row e now rows) = Some text /\
  hms_seconds text = Raise ValueError /\
  (forall before after total,
     sum_previous (before ++ text :: after)%list total =
     sum_previous (before ++ after)%list total) /\
  (forall before after total,
     sum_durations (before ++ Some text :: after)%list total =
     sum_durations (before ++ after)%list total).
Proof.
  intros Hr Hid Htbl Hsel Hopen Hlong d text.
  destruct (stop_project_writes now a pid tbl rows e Hr Hid Htbl Hsel Hopen)
    as [Hstop [Hsel' [Hin _]]].
  assert (Hdays : Timedelta.days d <> 0).
  { unfold Timedelta.days.
    assert (1 <= d / 86400000000) by (apply Z.div_le_lower_bound; lia). lia. }
  assert (Htext : duration_str d = text).
  { rewrite duration_str_parts. apply Z.eqb_neq in Hdays. now rewrite Hdays. }
  assert (Hbad : hms_seconds text = Raise ValueError).
  { rewrite <- Htext. now apply hms_seconds_duration_days. }
  repeat split; auto.
  - now rewrite Hstop.
  - cbn [stopped_row Log.duration]. fold d. now rewrite Htext.
  - intros before after total.
    rewrite !sum_previous_spec, !map_app, !sum_Z_app. cbn [map].
    rewrite sum_Z_cons, counted_text, Hbad. lia.
  - intros before after total. apply sum_durations_skip.
    unfold duration_seconds. now rewrite Hbad.
Qed.

Lemma day_long_interval_is_left_out_of_totals_witness :
  Log.duration
    (stopped_row (Log.mk 1 0 None None None) 90000000000
       [Log.mk 1 0 None None None]) = Some "1 day, 1:00:00" /\
  hms_seconds "1 day, 1:00:00" = Raise ValueError.
Proof.
  pose (H := day_long_interval_is_left_out_of_totals 90000000000
               (run [StartProject "Alpha" "" 0] initial) 1 "project_Alpha"
               [Log.mk 1 0 None None None] (Log.mk 1 0 None None None)
               (ex_intro _ [StartProject "Alpha" "" 0] eq_refl)
               eq_refl eq_refl eq_refl eq_refl).
  assert (H0 : 86400000000 <= 90000000000 - strptime 0) by (vm_compute; discriminate).
  specialize (H H0). cbv zeta in H.
  destruct H as [_ [_ [_ [H4 [H5 _]]]]].
  split; [exact H4 | exact H5].
Defined.

(** * The texts a stop writes *)

(** C2, as stated, fails: 125 seconds after the start the duration
    written is "0:02:05", with the hours on one digit. *)
Lemma stop_after_125_seconds_writes_unpadded_hours :
  Sqlite.select_table "project_Alpha"
    (conn (run [StartProject "Alpha" "" 0; StopProject 125000000] initial))
  = Ok [Log.mk 1 0 (Some 125) (Some "0:02:05") (Some "00:02:05")] /\
  Some "0:02:05" <> Some "00:02:05".
Proof. split; [reflexivity|discriminate]. Qed.

(** C2, amended: when a running interval is stopped less than 24 hours
    after its start, the duration written is the clock text H:MM:SS
    (hours as they come, minutes and seconds on two digits) of the
    elapsed whole seconds, and the cumulative time written is HH:MM:SS
    with the hours zero-padded to two digits and not wrapped. *)
Theorem stop_writes_clock_and_padded_cumulative
  (now : Z) (a : app) (pid : Z) (tbl : string)
  (rows : list Log.row) (e : Log.row) :
  reachable a ->
  current_project_id a = Some pid ->
  current_project_table a = Some tbl ->
  Sqlite.select_table tbl (conn a) = Ok rows ->
  Sqlite.select_last_open rows = Some e ->
  0 <= now - strptime (Log.start_time e) < 86400000000 ->
  let seconds := (now - strptime (Log.start_time e)) / 1000000 in
  let total := prior_total (Log.id e) rows + seconds in
  fst (stop_project now a) = Stopped /\
  Sqlite.select_table tbl (conn (snd (stop_project now a)))
    = Ok (stop_rows e now rows) /\
  In (stopped_row e now rows) (stop_rows e now rows) /\
  Log.duration (stopped_row e now rows) =
    Some (Py.fmt_d (seconds / 3600) ++ ":" ++
          Py.fmt_0d 2 (seconds mod 3600 / 60) ++ ":" ++
          Py.fmt_0d 2 (seconds mod 60)) /\
  Log.cumulative_time (stopped_row e now rows) =
    Some (Py.fmt_0d 2 (total / 3600) ++ ":" ++
          Py.fmt_0d 2 (total mod 3600 / 60) ++ ":" ++
          Py.fmt_0d 2 (total mod 60)).
Proof.
  intros Hr Hid Htbl Hsel Hopen Hshort seconds total.
  destruct (stop_project_writes now a pid tbl rows e Hr Hid Htbl Hsel Hopen)
    as [Hstop [Hsel' [Hin Hok]]].
  destruct (timedelta_small _ Hshort) as [_ [_ [Hq _]]].
  repeat split; auto.
  - now rewrite Hstop.
  - cbn [stopped_row Log.duration]. now rewrite (duration_str_small _ Hshort).
  - cbn [stopped_row Log.cumulative_time].
    rewrite (sum_previous_prior_total _ _ Hok), Hq. reflexivity.
Qed.

Lemma stop_writes_clock_and_padded_cumulative_witness :
  (Log.duration (stopped_row (Log.mk 1 0 None None None) 125000000
                   [Log.mk 1 0 None None None]) = Some "0:02:05" /\
   Log.cumulative_time (stopped_row (Log.mk 1 0 None None None) 125000000
                          [Log.mk 1 0 None None None]) = Some "00:02:05") /\
  (Log.duration
     (stopped_row (Log.mk 2 500 None None None) 560000000
        [Log.mk 1 0 (Some 125) (Some "0:02:05") (Some "00:02:05");
         Log.mk 2 500 None None None]) = Some "0:01:00" /\
   Log.cumulative_time
     (stopped_row (Log.mk 2 500 None None None) 560000000
        [Log.mk 1 0 (Some 125) (Some "0:02:05") (Some "00:02:05");
         Log.mk 2 500 None None None]) = Some "00:03:05").
Proof.
  split.
  - pose (H := stop_writes_clock_and_padded_cumulative 125000000
                 (run [StartProject "Alpha" "" 0] initial) 1 "project_Alpha"
                 [Log.mk 1 0 None None None] (Log.mk 1 0 None None None)
                 (ex_intro _ [StartProject "Alpha" "" 0] eq_refl)
                 eq_refl eq_refl eq_refl eq_refl).
    assert (H0 : 0 <= 125000000 - strptime 0 < 86400000000)
      by (unfold strptime; lia).
    specialize (H H0). cbv zeta in H.
    destruct H as [_ [_ [_ [H4 H5]]]]. split; [exact H4|exact H5].
  - pose (H := stop_writes_clock_and_padded_cumulative 560000000
                 (run [StartProject "Alpha" "" 0; StopProject 125000000;
                       StartRecording (Some "Alpha") 500000000] initial)
                 1 "project_Alpha"
                 [Log.mk 1 0 (Some 125) (Some "0:02:05") (Some "00:02:05");
                  Log.mk 2 500 None None None]
                 (Log.mk 2 500 None None None)
                 (ex_intro _ [StartProject "Alpha" "" 0; StopProject 125000000;
                              StartRecording (Some "Alpha") 500000000] eq_refl)
                 eq_refl eq_refl eq_refl eq_refl).
    assert (H0 : 0 <= 560000000 - strptime 500 < 86400000000)
      by (unfold strptime; lia).
    specialize (H H0). cbv zeta in H.
    destruct H as [_ [_ [_ [H4 H5]]]]. split; [exact H4|exact H5].
Defined.

(** * Cycles on the project created last *)

Section Cycles.

Import Sqlite.

Variables (M : list Master.row) (ts : list (string * list Log.row)).
Variable tn : string.
Hypothesis fresh : find_table tn ts = None.

Lemma select_last_table (rows : list Log.row) :
  select_table tn (mk M (ts ++ [(tn, rows)])%list) = Ok rows.
Proof.
  unfold select_table. cbn [tables]. rewrite find_table_app, fresh.
  cbn [find_table]. now rewrite ident_eqb_refl.
Qed.

Lemma replace_last_table (rows rows' : list Log.row) :
  replace_table tn rows' (ts ++ [(tn, rows)])%list = (ts ++ [(tn, rows')])%list.
Proof.
  rewrite (replace_table_app_fresh _ _ _ _ fresh). cbn [replace_table].
  now rewrite ident_eqb_refl.
Qed.

Lemma stop_on_last (rows : list Log.row) (e : Log.row) (pid now : Z) :
  pid <> 0 -> tn <> "" -> select_last_open rows = Some e ->
  stop_project now (mk_app (mk M (ts ++ [(tn, rows)])%list) (Some pid) (Some tn)) =
  (Stopped, mk_app (mk M (ts ++ [(tn, stop_rows e now rows)])%list) None None).
Proof.
  intros Hpid Htn He.
  rewrite (stop_project_running now
             (mk_app (mk M (ts ++ [(tn, rows)])%list) (Some pid) (Some tn))
             pid tn rows e eq_refl Hpid eq_refl Htn (select_last_table rows) He).
  cbn [conn projects_master tables]. now rewrite replace_last_table.
Qed.

Lemma start_on_last (rows : list Log.row) (title : string) (p : Master.row)
  (now : Z) (i : option Z) (t : option string) :
  title <> no_available_projects ->
  find (fun q => String.eqb (Master.title q) title) M = Some p ->
  Master.table_name p = tn ->
  existsb Log.is_open rows = false ->
  start_recording (Some title) now (mk_app (mk M (ts ++ [(tn, rows)])%list) i t) =
  (Started,
   mk_app (mk M (ts ++ [(tn, rows ++ [started_row rows now])])%list)
          (Some (Master.id p)) (Some tn)).
Proof.
  intros Hne Hp Htn Hidle.
  rewrite (start_recording_idle title now
             (mk_app (mk M (ts ++ [(tn, rows)])%list) i t) p rows Hne Hp);
    cbn [conn]; auto.
  - rewrite Htn. cbn [projects_master tables]. now rewrite replace_last_table.
  - rewrite Htn. apply select_last_table.
Qed.

End Cycles.

Section Fresh.

Import Sqlite.

(** Creating a project whose title and table name are new. *)
Lemma start_project_fresh (title_entry details_entry : string) (now : Z) (a : app) :
  consistent (conn a) ->
  Py.strip title_entry <> "" ->
  select_master_by_title (Py.strip title_entry) (conn a) = None ->
  find_table (sanitize_table_name (Py.strip title_entry)) (tables (conn a)) = None ->
  start_project title_entry details_entry now a =
  (Started,
   mk_app
     (mk (projects_master (conn a) ++ [created_row title_entry details_entry (conn a)])%list
         (tables (conn a) ++
          [(sanitize_table_name (Py.strip title_entry), [started_row [] now])])%list)
     (Some (Master.id (created_row title_entry details_entry (conn a))))
     (Some (sanitize_table_name (Py.strip title_entry)))).
Proof.
  intros Hc Hne Hsel Hfresh.
  destruct (start_project_cases title_entry details_entry now a Hc)
    as [[He _]|[[_ [[p Hp] _]]|[[_ [_ [[p [Hin Hp]] _]]]|[_ [_ [_ [rows [Hrows ->]]]]]]]].
  - contradiction.
  - congruence.
  - exfalso. destruct (In_row_ok _ _ Hc Hin) as [_ [_ [_ Hf]]]. congruence.
  - destruct (select_create (sanitize_table_name (Py.strip title_entry)) (conn a))
      as [rows' [Hsel' [Hf|[_ [-> Hcr]]]]]; [congruence|].
    rewrite Hrows in Hsel'. injection Hsel' as ->.
    rewrite Hcr. cbn [tables].
    rewrite (replace_last_table _ _ Hfresh). reflexivity.
Qed.

End Fresh.

(** * The cumulative time *)

(** C1, as stated, fails: three cycles that each start and stop within
    the same second leave three equal cumulative times. *)
Lemma same_second_cycles_do_not_increase :
  outcomes (three_cycles "Alpha" "" 0 400000 1000000 1400000 2000000 2400000)
    initial = [Started; Stopped; Started; Stopped; Started; Stopped] /\
  Sqlite.select_table "project_Alpha"
    (conn (run (three_cycles "Alpha" "" 0 400000 1000000 1400000 2000000 2400000)
               initial))
  = Ok [Log.mk 1 0 (Some 0) (Some "0:00:00") (Some "00:00:00");
        Log.mk 2 1 (Some 1) (Some "0:00:00") (Some "00:00:00");
        Log.mk 3 2 (Some 2) (Some "0:00:00") (Some "00:00:00")] /\
  hms_seconds "00:00:00" = Ok 0 /\
  ~ (0 < 0).
Proof. repeat split. lia. Qed.

(** Nor do the cumulative times of a new project start from its own
    first duration when its table name answers to an older table: ABC,
    created after abc has logged a minute, shares the log of abc, and
    its cycles of 10, 20 and 30 seconds are counted on top of that
    minute. *)
Lemma cycles_on_a_shared_table_count_the_older_rows :
  match
    Sqlite.select_table "project_ABC"
      (conn (run (three_cycles "ABC" "" 100000000 110000000 200000000 220000000
                    300000000 330000000)
                 (run [StartProject "abc" "" 0; StopProject 60000000] initial)))
  with
  | Ok rows => map Log.cumulative_time rows
  | Raise _ => []
  end = [Some "00:01:00"; Some "00:01:10"; Some "00:01:30"; Some "00:02:00"].
Proof. reflexivity. Qed.

Section ThreeCycles.

Import Sqlite.

Variables (a : app) (title_entry details_entry : string).
Variables (s1 e1 s2 e2 s3 e3 : Z).

Local Notation "'title'" := (Py.strip title_entry).
Local Notation "'tn'" := (sanitize_table_name (Py.strip title_entry)).
Local Notation "'D1'" := (whole_seconds s1 e1).
Local Notation "'D2'" := (whole_seconds s2 e2).
Local Notation "'D3'" := (whole_seconds s3 e3).

Hypothesis Hreach : reachable a.
Hypothesis Htitle : title <> "".
Hypothesis Hplace : title <> no_available_projects.
Hypothesis Hnew : select_master_by_title title (conn a) = None.
Hypothesis Hfresh : find_table tn (tables (conn a)) = None.
Hypothesis H1 : 0 <= elapsed s1 e1 < 86400000000.
Hypothesis H2 : 0 <= elapsed s2 e2 < 86400000000.
Hypothesis H3 : 0 <= elapsed s3 e3 < 86400000000.

Local Notation "'row1'" := (closed_row 1 s1 e1 D1).
Local Notation "'row2'" := (closed_row 2 s2 e2 (D1 + D2)).
Local Notation "'row3'" := (closed_row 3 s3 e3 (D1 + D2 + D3)).

Lemma first_stop_rows :
  stop_rows (started_row [] s1) e1 [started_row [] s1] = [row1].
Proof. reflexivity. Qed.

Lemma second_stop_rows :
  stop_rows (started_row [row1] s2) e2 [row1; started_row [row1] s2] = [row1; row2].
Proof.
  unfold stop_rows, stopped_row, started_row. cbv zeta.
  cbn [map Log.id next_rowid fold_left Log.start_time Log.end_time Log.duration
       Log.cumulative_time closed_row select_previous_durations flat_map List.app].
  change (1 + 1) with 2. change (1 =? 2) with false. change (2 =? 2) with true.
  change (1 <? 2) with true. cbv iota.
  cbn [Log.duration Log.id List.app sum_previous].
  fold (elapsed s2 e2).
  rewrite (hms_seconds_duration_small _ H1). reflexivity.
Qed.

Lemma third_stop_rows :
  stop_rows (started_row [row1; row2] s3) e3
    [row1; row2; started_row [row1; row2] s3] = [row1; row2; row3].
Proof.
  unfold stop_rows, stopped_row, started_row. cbv zeta.
  cbn [map Log.id next_rowid fold_left Log.start_time Log.end_time Log.duration
       Log.cumulative_time closed_row select_previous_durations flat_map List.app].
  change (1 + Z.max 1 2) with 3.
  change (1 =? 3) with false. change (2 =? 3) with false. change (3 =? 3) with true.
  change (1 <? 3) with true. change (2 <? 3) with true. cbv iota.
  cbn [Log.duration Log.id List.app sum_previous].
  fold (elapsed s3 e3).
  rewrite (hms_seconds_duration_small _ H1), (hms_seconds_duration_small _ H2).
  reflexivity.
Qed.

Lemma three_cycles_run :
  exists M ts,
    find_table tn ts = None /\
    outcomes (three_cycles title_entry details_entry s1 e1 s2 e2 s3 e3) a
      = [Started; Stopped; Started; Stopped; Started; Stopped] /\
    run (three_cycles title_entry details_entry s1 e1 s2 e2 s3 e3) a
      = mk_app (mk M (ts ++ [(tn, [row1; row2; row3])])%list) None None.
Proof.
  destruct (reachable_invariant a Hreach) as [Hc _].
  set (new := created_row title_entry details_entry (conn a)).
  exists (projects_master (conn a) ++ [new])%list, (tables (conn a)).
  assert (Hid : Master.id new <> 0).
  { unfold new, created_row. cbn [Master.id].
    pose proof (next_rowid_pos _ (ids_positive _ Hc)). lia. }
  assert (Htn : tn <> "") by (unfold sanitize_table_name; discriminate).
  assert (Hfind : find (fun q => String.eqb (Master.title q) title)
                    (projects_master (conn a) ++ [new])%list = Some new).
  { clear - Hnew. unfold select_master_by_title in Hnew.
    induction (projects_master (conn a)) as [|q l IH]; cbn [List.app find] in *.
    - unfold new, created_row. cbn [Master.title].
      now rewrite String.eqb_refl.
    - destruct (String.eqb (Master.title q) title); [discriminate|auto]. }
  assert (Hstart : start_project title_entry details_entry s1 a =
            (Started,
             mk_app (mk (projects_master (conn a) ++ [new])%list
                        (tables (conn a) ++ [(tn, [started_row [] s1])])%list)
                    (Some (Master.id new)) (Some tn)))
    by (apply start_project_fresh; auto).
  split; [exact Hfresh|].
  unfold three_cycles.
  cbn [outcomes run step]. rewrite Hstart. cbn [fst snd].
  rewrite (stop_on_last _ _ tn Hfresh [started_row [] s1] (started_row [] s1)
             _ e1 Hid Htn eq_refl).
  cbn [fst snd]. rewrite first_stop_rows.
  rewrite (start_on_last _ _ tn Hfresh [row1] title new s2 None None
             Hplace Hfind eq_refl eq_refl).
  cbn [fst snd List.app].
  rewrite (stop_on_last _ _ tn Hfresh [row1; started_row [row1] s2]
             (started_row [row1] s2) _ e2 Hid Htn eq_refl).
  cbn [fst snd]. rewrite second_stop_rows.
  rewrite (start_on_last _ _ tn Hfresh [row1; row2] title new s3 None None
             Hplace Hfind eq_refl eq_refl).
  cbn [fst snd List.app].
  rewrite (stop_on_last _ _ tn Hfresh [row1; row2; started_row [row1; row2] s3]
             (started_row [row1; row2] s3) _ e3 Hid Htn eq_refl).
  cbn [fst snd]. rewrite third_stop_rows.
  split; reflexivity.
Qed.

(** Three cycles of a new project, each shorter than a day. *)
Lemma three_cycles_cumulative :
  outcomes (three_cycles title_entry details_entry s1 e1 s2 e2 s3 e3) a
    = [Started; Stopped; Started; Stopped; Started; Stopped] /\
  exists rows,
    select_table tn
      (conn (run (three_cycles title_entry details_entry s1 e1 s2 e2 s3 e3) a))
      = Ok rows /\
    map Log.cumulative_time rows =
      [Some (cumulative_time_str D1); Some (cumulative_time_str (D1 + D2));
       Some (cumulative_time_str (D1 + D2 + D3))] /\
    hms_seconds (cumulative_time_str D1) = Ok D1 /\
    hms_seconds (cumulative_time_str (D1 + D2)) = Ok (D1 + D2) /\
    hms_seconds (cumulative_time_str (D1 + D2 + D3)) = Ok (D1 + D2 + D3) /\
    D1 <= D1 + D2 <= D1 + D2 + D3 /\
    (1 <= D2 -> 1 <= D3 -> D1 < D1 + D2 < D1 + D2 + D3).
Proof.
  destruct three_cycles_run as [M [ts [Hts [Hout Hrun]]]].
  split; [exact Hout|].
  exists [row1; row2; row3]. rewrite Hrun. cbn [conn].
  rewrite (select_last_table M ts tn Hts).
  destruct (timedelta_small _ H1) as [_ [_ [E1 B1]]].
  destruct (timedelta_small _ H2) as [_ [_ [E2 B2]]].
  destruct (timedelta_small _ H3) as [_ [_ [E3 B3]]].
  repeat split; try reflexivity; try apply hms_seconds_cumulative;
    unfold whole_seconds in *; lia.
Qed.

End ThreeCycles.

(** C1, amended: whenever a running interval is stopped, the cumulative
    time written is the text of the sum of the durations of the closed
    intervals of that log with a smaller id (a malformed or absent
    duration counting for nothing) plus the whole seconds of this
    interval, and that text reads back as that sum.  Consequently, for
    a project created under a title that is not empty, not registered
    and not the placeholder of the project list, and whose table name
    answers to no table of the store (SQLite compares table names
    without regard to the case of ASCII letters), three consecutive
    start/stop cycles from its creation on, each stopped not before the
    second it started in and less than 24 hours after it, leave
    cumulative times that are the running sums of the three durations,
    in order; they never decrease, and they increase strictly when the
    second and third cycle last a second or more. *)
Theorem cumulative_time_is_running_sum :
  (forall (now : Z) (a : app) (pid : Z) (tbl : string)
          (rows : list Log.row) (e : Log.row),
     reachable a ->
     current_project_id a = Some pid ->
     current_project_table a = Some tbl ->
     Sqlite.select_table tbl (conn a) = Ok rows ->
     Sqlite.select_last_open rows = Some e ->
     let total :=
       prior_total (Log.id e) rows
       + Timedelta.int_total_seconds (now - strptime (Log.start_time e)) in
     fst (stop_project now a) = Stopped /\
     Sqlite.select_table tbl (conn (snd (stop_project now a)))
       = Ok (stop_rows e now rows) /\
     In (stopped_row e now rows) (stop_rows e now rows) /\
     (forall r, In r (stop_rows e now rows) -> Log.id r = Log.id e ->
                Log.cumulative_time r = Some (cumulative_time_str total)) /\
     hms_seconds (cumulative_time_str total) = Ok total)
  /\
  (forall (a : app) (title_entry details_entry : string)
          (s1 e1 s2 e2 s3 e3 : Z),
     reachable a ->
     Py.strip title_entry <> "" ->
     Py.strip title_entry <> no_available_projects ->
     Sqlite.select_master_by_title (Py.strip title_entry) (conn a) = None ->
     Sqlite.find_table (sanitize_table_name (Py.strip title_entry))
       (Sqlite.tables (conn a)) = None ->
     0 <= elapsed s1 e1 < 86400000000 ->
     0 <= elapsed s2 e2 < 86400000000 ->
     0 <= elapsed s3 e3 < 86400000000 ->
     let D1 := Timedelta.int_total_seconds (elapsed s1 e1) in
     let D2 := Timedelta.int_total_seconds (elapsed s2 e2) in
     let D3 := Timedelta.int_total_seconds (elapsed s3 e3) in
     outcomes (three_cycles title_entry details_entry s1 e1 s2 e2 s3 e3) a
       = [Started; Stopped; Started; Stopped; Started; Stopped] /\
     exists rows,
       Sqlite.select_table (sanitize_table_name (Py.strip title_entry))
         (conn (run (three_cycles title_entry details_entry s1 e1 s2 e2 s3 e3) a))
         = Ok rows /\
       map Log.cumulative_time rows =
         [Some (cumulative_time_str D1); Some (cumulative_time_str (D1 + D2));
          Some (cumulative_time_str (D1 + D2 + D3))] /\
       hms_seconds (cumulative_time_str D1) = Ok D1 /\
       hms_seconds (cumulative_time_str (D1 + D2)) = Ok (D1 + D2) /\
       hms_seconds (cumulative_time_str (D1 + D2 + D3)) = Ok (D1 + D2 + D3) /\
       D1 <= D1 + D2 <= D1 + D2 + D3 /\
       (1 <= D2 -> 1 <= D3 -> D1 < D1 + D2 < D1 + D2 + D3)).
Proof.
  split.
  - intros now a pid tbl rows e Hr Hid Htbl Hsel Hopen total.
    destruct (stop_project_writes now a pid tbl rows e Hr Hid Htbl Hsel Hopen)
      as [Hstop [Hsel' [Hin Hok]]].
    repeat split; auto.
    + now rewrite Hstop.
    + intros r Hr' Hsame.
      destruct (stop_rows_same_id e now rows r Hr' Hsame) as [_ [_ ->]].
      cbn [stopped_row Log.cumulative_time].
      now rewrite (sum_previous_prior_total _ _ Hok).
    + apply hms_seconds_cumulative.
  - intros a t d s1 e1 s2 e2 s3 e3 Hr Ht Hp Hn Hf H1 H2 H3.
    exact (three_cycles_cumulative a t d s1 e1 s2 e2 s3 e3 Hr Ht Hp Hn Hf H1 H2 H3).
Qed.

Lemma cumulative_time_is_running_sum_witness :
  Log.cumulative_time
    (stopped_row (Log.mk 2 500 None None None) 560000000
       [Log.mk 1 0 (Some 125) (Some "0:02:05") (Some "00:02:05");
        Log.mk 2 500 None None None]) = Some "00:03:05" /\
  exists rows,
    Sqlite.select_table "project_Alpha"
      (conn (run (three_cycles "Alpha" "" 0 125000000 500000000 560000000
                    1000000000 1030000000) initial)) = Ok rows /\
    map Log.cumulative_time rows =
      [Some "00:02:05"; Some "00:03:05"; Some "00:03:35"].
Proof.
  split.
  - pose (H := proj1 cumulative_time_is_running_sum 560000000
                 (run [StartProject "Alpha" "" 0; StopProject 125000000;
                       StartRecording (Some "Alpha") 500000000] initial)
                 1 "project_Alpha"
                 [Log.mk 1 0 (Some 125) (Some "0:02:05") (Some "00:02:05");
                  Log.mk 2 500 None None None]
                 (Log.mk 2 500 None None None)
                 (ex_intro _ [StartProject "Alpha" "" 0; StopProject 125000000;
                              StartRecording (Some "Alpha") 500000000] eq_refl)
                 eq_refl eq_refl eq_refl eq_refl).
    cbv zeta in H. destruct H as [_ [_ [Hin [Hcum _]]]].
    exact (Hcum _ Hin eq_refl).
  - assert (Hne : Py.strip "Alpha" <> "") by (vm_compute; discriminate).
    assert (Hpl : Py.strip "Alpha" <> no_available_projects)
      by (vm_compute; discriminate).
    assert (B1 : 0 <= elapsed 0 125000000 < 86400000000)
      by (unfold elapsed, strptime, strftime; simpl; lia).
    assert (B2 : 0 <= elapsed 500000000 560000000 < 86400000000)
      by (unfold elapsed, strptime, strftime; simpl; lia).
    assert (B3 : 0 <= elapsed 1000000000 1030000000 < 86400000000)
      by (unfold elapsed, strptime, strftime; simpl; lia).
    pose (H := proj2 cumulative_time_is_running_sum initial "Alpha" ""
                 0 125000000 500000000 560000000 1000000000 1030000000
                 (ex_intro _ [] eq_refl) Hne Hpl eq_refl eq_refl B1 B2 B3).
    cbv zeta in H. destruct H as [_ [rows [Hsel [Hcum _]]]].
    exists rows. split; [exact Hsel | exact Hcum].
Defined.

(** * Ordering by title *)

Section Ordering.

Import Sql.

Lemma insert_asc_In (t x : string) (l : list string) :
  In x (insert_asc t l) <-> x = t \/ In x l.
Proof.
  induction l as [|y l IH]; cbn [insert_asc].
  - cbn. intuition.
  - destruct (String.leb t y); cbn [In]; [intuition|].
    rewrite IH. intuition.
Qed.

Lemma order_by_asc_In (x : string) (l : list string) :
  In x (order_by_asc l) <-> In x l.
Proof.
  unfold order_by_asc. induction l as [|y l IH]; cbn [fold_right]; [tauto|].
  rewrite insert_asc_In, IH. cbn. intuition.
Qed.

Lemma ascii_compare_trans (x y z : ascii) (c : comparison) :
  Ascii.compare x y = c -> Ascii.compare y z = c -> Ascii.compare x z = c.
Proof.
  unfold Ascii.compare. intros H1 H2. destruct c.
  - apply N.compare_eq_iff in H1, H2. apply N.compare_eq_iff. congruence.
  - apply N.compare_lt_iff in H1. apply N.compare_lt_iff in H2.
    apply N.compare_lt_iff. eapply N.lt_trans; eassumption.
  - apply N.compare_gt_iff in H1. apply N.compare_gt_iff in H2.
    apply N.compare_gt_iff. eapply N.lt_trans; eassumption.
Qed.

Lemma string_compare_lt_trans (a b c : string) :
  String.compare a b = Lt -> String.compare b c = Lt -> String.compare a c = Lt.
Proof.
  revert b c. induction a as [|x a IH]; intros [|y b] [|z c]; cbn [String.compare];
    try congruence.
  destruct (Ascii.compare x y) eqn:Exy; try discriminate.
  - apply Ascii.compare_eq_iff in Exy. subst y.
    destruct (Ascii.compare x z); try congruence. apply IH.
  - intros _. destruct (Ascii.compare y z) eqn:Eyz; try discriminate.
    + apply Ascii.compare_eq_iff in Eyz. subst z. now rewrite Exy.
    + now rewrite (ascii_compare_trans x y z Lt Exy Eyz).
Qed.

Lemma leb_trans (a b c : string) :
  String.leb a b = true -> String.leb b c = true -> String.leb a c = true.
Proof.
  unfold String.leb. intros H1 H2.
  destruct (String.compare a b) eqn:Eab; try discriminate;
    destruct (String.compare b c) eqn:Ebc; try discriminate.
  - apply String.compare_eq_iff in Eab. subst b. now rewrite Ebc.
  - apply String.compare_eq_iff in Eab. subst b. now rewrite Ebc.
  - apply String.compare_eq_iff in Ebc. subst c. now rewrite Eab.
  - now rewrite (string_compare_lt_trans a b c Eab Ebc).
Qed.

Lemma insert_asc_sorted (t : string) (l : list string) :
  ascending l -> ascending (insert_asc t l).
Proof.
  unfold ascending. induction l as [|y l IH]; intros Hs; cbn [insert_asc].
  - repeat constructor.
  - destruct (String.leb t y) eqn:E.
    + constructor; [exact Hs|]. constructor; [exact E|].
      inversion Hs as [|? ? _ Hall]; subst.
      eapply Forall_impl; [|exact Hall]. intros z Hz. cbv beta in *.
      exact (leb_trans t y z E Hz).
    + inversion Hs as [|? ? Hl Hall]; subst.
      constructor; [now apply IH|].
      assert (Hyt : String.leb y t = true).
      { destruct (String.leb_total t y) as [H|H]; congruence. }
      apply Forall_forall. intros z Hz. apply insert_asc_In in Hz as [->|Hz];
        [exact Hyt|].
      rewrite Forall_forall in Hall. now apply Hall.
Qed.

Lemma order_by_asc_sorted (l : list string) : ascending (order_by_asc l).
Proof.
  unfold order_by_asc. induction l as [|y l IH]; cbn [fold_right].
  - constructor.
  - now apply insert_asc_sorted.
Qed.

Lemma ascending_filter (f : string -> bool) (l : list string) :
  ascending l -> ascending (List.filter f l).
Proof.
  unfold ascending. induction 1 as [|x l Hl IH Hx]; cbn [List.filter].
  - constructor.
  - destruct (f x); [|exact IH]. constructor; [exact IH|].
    apply Forall_forall. intros z Hz. apply filter_In in Hz as [Hz _].
    rewrite Forall_forall in Hx. now apply Hx.
Qed.

End Ordering.

(** * What every run maintains, continued *)

Section Kept.

Import Sqlite.

Lemma shape_stop_rows (e : Log.row) (now : Z) (rows : list Log.row) :
  Forall row_shape rows -> Forall row_shape (stop_rows e now rows).
Proof.
  intros H. unfold stop_rows. cbv zeta. apply Forall_map.
  eapply Forall_impl; [|exact H]. intros r Hr. cbv beta.
  destruct (Log.id r =? Log.id e); [|exact Hr].
  split; discriminate.
Qed.

Lemma written_stop_rows (e : Log.row) (now : Z) (rows : list Log.row) :
  Forall duration_written rows -> Forall duration_written (stop_rows e now rows).
Proof.
  intros H. unfold stop_rows. cbv zeta. apply Forall_map.
  eapply Forall_impl; [|exact H]. intros r Hr. cbv beta.
  destruct (Log.id r =? Log.id e); [|exact Hr].
  right. eexists. reflexivity.
Qed.

Lemma written_started (rows : list Log.row) (now : Z) :
  Forall duration_written rows ->
  Forall duration_written (rows ++ [started_row rows now]).
Proof.
  intros H. apply Forall_app. split; [exact H|]. repeat constructor.
Qed.

Lemma ids_stop_rows (e : Log.row) (now : Z) (rows : list Log.row) :
  map Log.id (stop_rows e now rows) = map Log.id rows.
Proof.
  unfold stop_rows. cbv zeta. rewrite map_map. apply map_ext.
  intros r. now destruct (Log.id r =? Log.id e).
Qed.

Lemma sorted_snoc (l : list Z) (x : Z) :
  StronglySorted Z.lt l -> Forall (fun y => y < x) l ->
  StronglySorted Z.lt (l ++ [x]).
Proof.
  induction 1 as [|y l Hl IH Hy]; intros Hx; cbn [List.app].
  - repeat constructor.
  - inversion Hx; subst. constructor; [auto|].
    apply Forall_app. split; [exact Hy|]. repeat constructor. assumption.
Qed.

Lemma ids_started (rows : list Log.row) (now : Z) :
  ids_increasing rows -> ids_increasing (rows ++ [started_row rows now]).
Proof.
  unfold ids_increasing. intros H. rewrite map_app. cbn [map started_row Log.id].
  apply sorted_snoc; [exact H|apply next_rowid_gt].
Qed.

Lemma well_kept_find (db : store) (n : string) (rows : list Log.row) :
  well_kept db -> find_table n (tables db) = Some rows ->
  Forall row_shape rows /\ ids_increasing rows.
Proof.
  intros Hk Hf. destruct (find_table_In _ _ _ Hf) as [m [Hin _]].
  pose proof (rows_shaped _ Hk) as H1. pose proof (rows_increasing _ Hk) as H2.
  rewrite Forall_forall in H1, H2. split; [exact (H1 _ Hin)|exact (H2 _ Hin)].
Qed.

Lemma well_kept_written (db : store) (n : string) (rows : list Log.row) :
  well_kept db -> find_table n (tables db) = Some rows ->
  Forall duration_written rows.
Proof.
  intros Hk Hf. destruct (find_table_In _ _ _ Hf) as [m [Hin _]].
  pose proof (durations_written _ Hk) as H. rewrite Forall_forall in H.
  exact (H _ Hin).
Qed.

Lemma well_kept_replace (db : store) (n : string) (rows' : list Log.row) :
  well_kept db -> Forall row_shape rows' -> ids_increasing rows' ->
  Forall duration_written rows' ->
  well_kept (mk (projects_master db) (replace_table n rows' (tables db))).
Proof.
  intros [H1 H2 H5 H3 H4] Hs Hi Hw.
  constructor; cbn [projects_master tables]; auto.
  - apply Forall_replace; [|exact H1]. intros; exact Hs.
  - apply Forall_replace; [|exact H2]. intros; exact Hi.
  - apply Forall_replace; [|exact H5]. intros; exact Hw.
Qed.

Lemma well_kept_create (db : store) (name : string) :
  well_kept db -> well_kept (create_table_if_not_exists name db).
Proof.
  intros [H1 H2 H5 H3 H4]. unfold create_table_if_not_exists.
  destruct (find_table name (tables db)); [constructor; assumption|].
  constructor; cbn [projects_master tables]; auto.
  - apply Forall_app. split; [exact H1|]. repeat constructor.
  - apply Forall_app. split; [exact H2|]. repeat constructor.
  - apply Forall_app. split; [exact H5|]. repeat constructor.
Qed.

Lemma NoDup_snoc {A : Type} (l : list A) (x : A) :
  NoDup l -> ~ In x l -> NoDup (l ++ [x]).
Proof.
  intros Hl Hx. apply NoDup_app; [exact Hl|repeat constructor; auto|].
  intros a Ha [<-|[]]. contradiction.
Qed.

Lemma has_open_after_start (db : store) (p : Master.row) (rows : list Log.row)
  (now : Z) :
  find_table (Master.table_name p) (tables db) <> None ->
  has_open_interval
    (mk (projects_master db)
        (replace_table (Master.table_name p) (rows ++ [started_row rows now])%list
           (tables db))) p = true.
Proof.
  intros Hf. unfold has_open_interval, select_table. cbn [tables].
  rewrite find_replace_same by exact Hf.
  rewrite existsb_app. cbn. apply orb_true_r.
Qed.

Lemma kept_start_project (t d : string) (now : Z) (a : app) :
  invariant a -> kept a -> kept (snd (start_project t d now a)).
Proof.
  intros [Hc _] [Hk Hs].
  destruct (start_project_cases t d now a Hc)
    as [[_ ->]|[[_ [_ ->]]|[[_ [_ [_ ->]]]|[Hne [Hnew [Htn [rows [Hsel ->]]]]]]]];
    try (split; assumption).
  cbn [snd].
  set (tn := sanitize_table_name (Py.strip t)) in *.
  set (db1 := create_table_if_not_exists tn (conn a)) in *.
  assert (Hf : find_table tn (tables db1) = Some rows).
  { unfold select_table in Hsel. destruct (find_table tn (tables db1)); congruence. }
  pose proof (well_kept_create _ tn Hk) as Hk1. fold db1 in Hk1.
  destruct (well_kept_find _ _ _ Hk1 Hf) as [Hsh Hinc].
  pose proof (well_kept_written _ _ _ Hk1 Hf) as Hwr.
  split.
  - pose proof (well_kept_replace db1 tn (rows ++ [started_row rows now])%list Hk1)
      as Hr.
    destruct Hr as [R1 R2 R5 R3 R4].
    + apply Forall_app. split; [exact Hsh|]. repeat constructor.
    + now apply ids_started.
    + now apply written_started.
    + constructor; cbn [conn projects_master tables] in *; auto.
      * rewrite map_app. cbn [map created_row Master.title].
        apply NoDup_snoc; [exact (titles_unique _ Hk)|].
        intros Hin. apply in_map_iff in Hin as [p [Hp Hin]].
        exact (select_by_title_None _ _ Hnew p Hin Hp).
      * rewrite map_app. cbn [map created_row Master.table_name].
        apply NoDup_snoc; [exact (table_names_unique _ Hk)|].
        intros Hin. apply in_map_iff in Hin as [p [Hp Hin]].
        exact (Htn p Hin Hp).
  - unfold slot_points. cbn [current_project_id current_project_table conn
      projects_master].
    exists (created_row t d (conn a)). repeat split.
    + apply in_or_app. right. now left.
    + unfold has_open_interval, select_table.
      cbn [tables created_row Master.table_name]. fold tn.
      rewrite find_replace_same by congruence.
      rewrite existsb_app. cbn. apply orb_true_r.
Qed.

Lemma kept_start_recording (sel : option string) (now : Z) (a : app) :
  invariant a -> kept a -> kept (snd (start_recording sel now a)).
Proof.
  intros [Hc _] [Hk Hs]. unfold start_recording.
  destruct sel as [title|]; [|split; assumption].
  destruct (String.eqb title no_available_projects); [split; assumption|].
  destruct (select_master_by_title title (conn a)) as [p|] eqn:Ep;
    [|split; assumption].
  destruct (select_table (Master.table_name p) (conn a)) as [rows|] eqn:Er;
    [|split; assumption].
  destruct (0 <? count_open rows)%nat; [split; assumption|].
  unfold insert_log. unfold select_table in Er.
  destruct (find_table (Master.table_name p) (tables (conn a))) as [rows'|] eqn:Ef;
    [|discriminate].
  injection Er as ->. cbn [snd].
  destruct (well_kept_find _ _ _ Hk Ef) as [Hsh Hinc].
  pose proof (well_kept_written _ _ _ Hk Ef) as Hwr.
  split.
  - cbn [conn]. apply well_kept_replace; [exact Hk| | |].
    + apply Forall_app. split; [exact Hsh|]. repeat constructor.
    + exact (ids_started rows now Hinc).
    + exact (written_started rows now Hwr).
  - unfold slot_points. cbn [current_project_id current_project_table conn
      projects_master].
    exists p. repeat split.
    + now apply select_by_title_Some in Ep.
    + apply (has_open_after_start (conn a) p rows now). congruence.
Qed.

Lemma kept_stop_project (now : Z) (a : app) :
  kept a -> kept (snd (stop_project now a)).
Proof.
  intros [Hk Hs]. unfold stop_project.
  destruct (current_project_id a) as [pid|] eqn:Eid; [|split; assumption].
  destruct (current_project_table a) as [tbl|] eqn:Et; [|split; assumption].
  destruct (truthy_id (Some pid) && truthy_str (Some tbl)); [|split; assumption].
  destruct (select_table tbl (conn a)) as [rows|] eqn:Er; [|split; assumption].
  destruct (select_last_open rows) as [e|] eqn:Ee; [|split; assumption].
  unfold update_log. unfold select_table in Er.
  destruct (find_table tbl (tables (conn a))) as [rows'|] eqn:Ef; [|discriminate].
  injection Er as ->. cbn [snd]. split; [|exact I].
  cbn [conn]. destruct (well_kept_find _ _ _ Hk Ef) as [Hsh Hinc].
  apply (well_kept_replace (conn a) tbl (stop_rows e now rows) Hk).
  - now apply shape_stop_rows.
  - unfold ids_increasing. now rewrite ids_stop_rows.
  - apply written_stop_rows. exact (well_kept_written _ _ _ Hk Ef).
Qed.

Lemma open_projects_sound (db : store) (ps l : list Master.row) :
  open_projects ps db = Ok l ->
  forall q, In q l -> In q ps /\ has_open_interval db q = true.
Proof.
  revert l. induction ps as [|p ps IH]; intros l; cbn [open_projects].
  - intros [= <-] q [].
  - unfold bind.
    destruct (select_table (Master.table_name p) db) as [rows|] eqn:Er;
      [|discriminate].
    destruct (open_projects ps db) as [found|]; [|discriminate].
    specialize (IH found eq_refl).
    intros [= <-] q Hq.
    assert (Hrest : In q found -> In q (p :: ps) /\ has_open_interval db q = true).
    { intros Hf. destruct (IH q Hf). split; [now right|assumption]. }
    destruct (find Log.is_open rows) eqn:Efind; [|auto].
    destruct Hq as [<-|Hq]; [|auto].
    split; [now left|]. unfold has_open_interval. rewrite Er.
    rewrite find_existsb. now rewrite Efind.
Qed.

Lemma kept_check_open_projects (a : app) :
  kept a -> kept (snd (check_open_projects a)).
Proof.
  intros [Hk Hs]. unfold check_open_projects.
  destruct (open_projects (projects_master (conn a)) (conn a)) as [[|q l]|] eqn:Eo;
    try (split; assumption).
  destruct (current_project_id a) eqn:Eid; [split; assumption|].
  cbn [snd]. split; [exact Hk|].
  unfold slot_points. cbn [current_project_id current_project_table conn].
  destruct (open_projects_sound _ _ _ Eo q (or_introl eq_refl)) as [Hin Ho].
  exists q. auto.
Qed.

Lemma kept_step (e : event) (a : app) :
  invariant a -> kept a -> kept (snd (step e a)).
Proof.
  intros Hi Hk. destruct e; cbn [step].
  - now apply kept_start_project.
  - now apply kept_start_recording.
  - now apply kept_stop_project.
  - unfold restart. apply kept_check_open_projects.
    destruct Hk as [Hk _]. split; [exact Hk|exact I].
Qed.

Lemma kept_run (es : list event) (a : app) :
  invariant a -> kept a -> kept (run es a).
Proof.
  revert a. induction es as [|e es IH]; intros a Hi Hk; cbn [run]; auto.
  apply IH; [now apply invariant_step|now apply kept_step].
Qed.

Lemma reachable_kept (a : app) : reachable a -> kept a.
Proof.
  intros [es <-]. apply kept_run; [apply invariant_initial|].
  split; [|exact I]. constructor; cbn; constructor.
Qed.

End Kept.

(** * Table names and stored texts, continued *)

Lemma lstrip_blank (s : string) :
  Py.all Py.isspace s = true -> Py.lstrip_by Py.isspace s = "".
Proof.
  induction s as [|c s IH]; cbn [Py.all Py.lstrip_by]; [reflexivity|].
  intros H. apply andb_true_iff in H as [Hc Hs]. rewrite Hc. auto.
Qed.

Lemma strip_blank (s : string) :
  Py.all Py.isspace s = true -> Py.strip s = "".
Proof.
  intros H. unfold Py.strip, Py.strip_by. rewrite (lstrip_blank s H). reflexivity.
Qed.

(** X2: the duration text [stop_project] stores reads back, in the
    two summing loops, as the whole seconds of the interval exactly when
    the interval lasted from zero up to less than 24 hours; for a
    negative interval (the clock was set back) as for one of a day or
    more, reading it raises ValueError. *)
Theorem stored_duration_reads_back_within_a_day (d : Timedelta.t) :
  hms_seconds (duration_str d) =
  if (0 <=? d) && (d <? 86400000000) then Ok (d / 1000000)
  else Raise ValueError.
Proof.
  destruct ((0 <=? d) && (d <? 86400000000)) eqn:E.
  - apply andb_true_iff in E as [H1 H2].
    apply Z.leb_le in H1. apply Z.ltb_lt in H2.
    rewrite hms_seconds_duration_small by lia.
    destruct (timedelta_small d) as [_ [_ [-> _]]]; [lia|reflexivity].
  - apply hms_seconds_duration_days. unfold Timedelta.days.
    apply andb_false_iff in E as [E|E].
    + apply Z.leb_gt in E.
      assert (d / 86400000000 < 0) by (apply Z.div_lt_upper_bound; lia). lia.
    + apply Z.ltb_ge in E.
      assert (1 <= d / 86400000000) by (apply Z.div_le_lower_bound; lia). lia.
Qed.

(** * The handlers in the states a run can reach *)

Section Reachable.

Import Sqlite.

Lemma reachable_facts (a : app) :
  reachable a ->
  consistent (conn a) /\ slot_ok a /\ well_kept (conn a) /\ slot_points a.
Proof.
  intros Hr. destruct (reachable_invariant a Hr) as [Hc Hs].
  destruct (reachable_kept a Hr) as [Hk Hp]. auto.
Qed.

Lemma registered_table (db : store) (p : Master.row) :
  consistent db -> In p (projects_master db) ->
  exists rows, select_table (Master.table_name p) db = Ok rows /\
               find_table (Master.table_name p) (tables db) = Some rows.
Proof.
  intros Hc Hin. destruct (In_row_ok db p Hc Hin) as [_ [_ [_ Hf]]].
  unfold select_table.
  destruct (find_table (Master.table_name p) (tables db)) as [rows|];
    [|congruence].
  exists rows. auto.
Qed.

(** X3: a title of whitespace only is refused before the store is
    touched: the outcome is the input error and the state is the one
    before. *)
Theorem blank_title_is_rejected (title_entry details_entry : string) (now : Z)
  (a : app) :
  Py.all Py.isspace title_entry = true ->
  start_project title_entry details_entry now a = (InputError, a).
Proof.
  intros H. unfold start_project. now rewrite (strip_blank _ H).
Qed.

Lemma blank_title_is_rejected_witness :
  start_project "   " "notes" 5000000 initial = (InputError, initial).
Proof.
  apply (blank_title_is_rejected "   " "notes" 5000000 initial). reflexivity.
Defined.

(** X4: a new title that differs from every registered title but whose
    table name is the table name of a registered project (the two
    titles differ only in symbols that the table name drops, or in a
    space against an underscore) is refused with the title-or-table
    warning, and nothing changes. *)
Theorem clashing_table_name_is_refused (a : app)
  (title_entry details_entry : string) (now : Z) (p : Master.row) :
  reachable a ->
  Py.strip title_entry <> "" ->
  In p (projects_master (conn a)) ->
  Master.table_name p = sanitize_table_name (Py.strip title_entry) ->
  (forall q, In q (projects_master (conn a)) ->
             Master.title q <> Py.strip title_entry) ->
  start_project title_entry details_entry now a = (TitleOrTableExists, a).
Proof.
  intros Hr Hne Hin Htn Hnew.
  destruct (reachable_facts a Hr) as [Hc _].
  destruct (start_project_cases title_entry details_entry now a Hc)
    as [[H _]|[[_ [[q Hq] _]]|[[_ [_ [_ H]]]|[_ [_ [H _]]]]]].
  - contradiction.
  - apply select_by_title_Some in Hq as [Hq1 Hq2]. now destruct (Hnew q Hq1).
  - exact H.
  - now destruct (H p Hin).
Qed.

Lemma clashing_table_name_is_refused_witness :
  start_project "Alpha!" "" 9000000 (run [StartProject "Alpha" "" 0] initial) =
  (TitleOrTableExists, run [StartProject "Alpha" "" 0] initial).
Proof.
  apply (clashing_table_name_is_refused
           (run [StartProject "Alpha" "" 0] initial) "Alpha!" "" 9000000
           (Master.mk 1 "Alpha" "" "project_Alpha")).
  - exists [StartProject "Alpha" "" 0]. reflexivity.
  - vm_compute. discriminate.
  - vm_compute. now left.
  - reflexivity.
  - intros q Hq. vm_compute in Hq. destruct Hq as [<-|[]]. vm_compute. discriminate.
Defined.

Lemma step_registry (e : event) (a : app) :
  exists more,
    projects_master (conn (snd (step e a))) =
    (projects_master (conn a) ++ more)%list.
Proof.
  destruct e as [t d now|sel now|now|]; cbn [step].
  - unfold start_project.
    destruct (String.eqb (Py.strip t) ""); [exists []; now rewrite app_nil_r|].
    destruct (select_master_by_title (Py.strip t) (conn a));
      [exists []; now rewrite app_nil_r|].
    unfold insert_master. rewrite create_projects_master.
    destruct (existsb _ (projects_master (conn a))).
    + exists []. cbn [snd conn]. now rewrite create_projects_master, app_nil_r.
    + unfold insert_log. cbn [tables projects_master].
      destruct (find_table _ _); cbn [snd conn projects_master]; eexists; reflexivity.
  - unfold start_recording.
    destruct sel as [title|]; [|exists []; now rewrite app_nil_r].
    destruct (String.eqb title no_available_projects);
      [exists []; now rewrite app_nil_r|].
    destruct (select_master_by_title title (conn a)) as [p|];
      [|exists []; now rewrite app_nil_r].
    destruct (select_table (Master.table_name p) (conn a));
      [|exists []; now rewrite app_nil_r].
    destruct (0 <? count_open a0)%nat; [exists []; now rewrite app_nil_r|].
    unfold insert_log.
    destruct (find_table _ _); exists []; cbn [snd conn projects_master];
      now rewrite app_nil_r.
  - unfold stop_project.
    destruct (current_project_id a); [|exists []; now rewrite app_nil_r].
    destruct (current_project_table a) as [tbl|];
      [|exists []; now rewrite app_nil_r].
    destruct (_ && _); [|exists []; now rewrite app_nil_r].
    destruct (select_table tbl (conn a)) as [rows|];
      [|exists []; now rewrite app_nil_r].
    destruct (select_last_open rows); [|exists []; now rewrite app_nil_r].
    unfold update_log.
    destruct (find_table _ _); exists []; cbn [snd conn projects_master];
      now rewrite app_nil_r.
  - unfold restart, check_open_projects. cbn [conn current_project_id].
    destruct (open_projects _ _) as [[|q l]|]; exists []; cbn [snd conn];
      now rewrite app_nil_r.
Qed.

(** X5: the registry only grows: whatever the state and whatever the
    handlers called, the projects registered before are still there
    afterwards, unchanged and in the same order, before any new one. *)
Theorem registry_only_grows (es : list event) (a : app) :
  exists more,
    projects_master (conn (run es a)) = (projects_master (conn a) ++ more)%list.
Proof.
  revert a. induction es as [|e es IH]; intros a; cbn [run].
  - exists []. now rewrite app_nil_r.
  - destruct (IH (snd (step e a))) as [more2 H2].
    destruct (step_registry e a) as [more1 H1].
    exists (more1 ++ more2)%list. now rewrite H2, H1, app_assoc.
Qed.

Lemma stop_project_reachable (now : Z) (a : app) (pid : Z) :
  reachable a -> current_project_id a = Some pid ->
  exists tbl rows e p,
    current_project_table a = Some tbl /\
    In p (projects_master (conn a)) /\ Master.id p = pid /\
    Master.table_name p = tbl /\
    find_table tbl (tables (conn a)) = Some rows /\
    select_last_open rows = Some e /\
    stop_project now a =
    (Stopped,
     mk_app (mk (projects_master (conn a))
                (replace_table tbl (stop_rows e now rows) (tables (conn a))))
            None None).
Proof.
  intros Hr Hid. destruct (reachable_facts a Hr) as [Hc [[Hs1 Hs2] [Hk Hp]]].
  unfold slot_points in Hp. rewrite Hid in Hp, Hs1.
  destruct (current_project_table a) as [tbl|] eqn:Et; [|contradiction].
  destruct Hp as [p [Hin [Hpid [Htbl Ho]]]].
  unfold has_open_interval in Ho. rewrite Htbl in Ho.
  destruct (select_table tbl (conn a)) as [rows|] eqn:Er; [|discriminate].
  destruct (select_last_open rows) as [e|] eqn:Ee;
    [|now destruct (select_last_open_some rows Ho)].
  exists tbl, rows, e, p. repeat split; auto.
  - unfold select_table in Er. destruct (find_table tbl (tables (conn a)));
      congruence.
  - apply (stop_project_running now a pid tbl rows e); auto.
    + cbn [truthy_id] in Hs1. intros ->. discriminate.
    + cbn [truthy_str] in Hs2. intros ->. discriminate.
Qed.

Lemma stop_project_idle (now : Z) (a : app) :
  reachable a -> current_project_id a = None ->
  current_project_table a = None /\ stop_project now a = (NotRunning, a).
Proof.
  intros Hr Hid. destruct (reachable_facts a Hr) as [_ [_ [_ Hp]]].
  unfold slot_points in Hp. rewrite Hid in Hp.
  destruct (current_project_table a) eqn:Et; [contradiction|].
  unfold stop_project. now rewrite Hid.
Qed.

(** X6: in a state a run can reach, stopping cannot fail: with a project
    in the slot the outcome is the confirmation of the stop, with an
    empty slot the warning that nothing runs; the messages for a missing
    open row and for a database error never appear, and the slot is
    empty afterwards in either case. *)
Theorem stop_succeeds_whenever_the_slot_is_occupied (now : Z) (a : app) :
  reachable a ->
  fst (stop_project now a) =
    match current_project_id a with Some _ => Stopped | None => NotRunning end /\
  current_project_id (snd (stop_project now a)) = None /\
  current_project_table (snd (stop_project now a)) = None.
Proof.
  intros Hr. destruct (current_project_id a) as [pid|] eqn:Hid.
  - destruct (stop_project_reachable now a pid Hr Hid)
      as [tbl [rows [e [p [_ [_ [_ [_ [_ [_ ->]]]]]]]]]].
    repeat split.
  - destruct (stop_project_idle now a Hr Hid) as [Ht ->]. cbn [fst snd]. auto.
Qed.

Lemma stop_succeeds_whenever_the_slot_is_occupied_witness :
  fst (stop_project 125000000 (run [StartProject "Alpha" "" 0] initial)) =
    match current_project_id (run [StartProject "Alpha" "" 0] initial) with
    | Some _ => Stopped
    | None => NotRunning
    end /\
  current_project_id
    (snd (stop_project 125000000 (run [StartProject "Alpha" "" 0] initial))) = None /\
  current_project_table
    (snd (stop_project 125000000 (run [StartProject "Alpha" "" 0] initial))) = None.
Proof.
  apply (stop_succeeds_whenever_the_slot_is_occupied 125000000
           (run [StartProject "Alpha" "" 0] initial)).
  exists [StartProject "Alpha" "" 0]. reflexivity.
Defined.

(** X7: in every state a run can reach, every log row is either open
    with neither duration nor cumulative time, or closed with both; the
    ids of every log grow from row to row; every stored duration is a
    text that [stop_project] wrote; no two registered projects share a
    title, and no two share a table name. *)
Theorem logs_and_registry_stay_well_kept (a : app) :
  reachable a -> well_kept (conn a).
Proof. intros Hr. now destruct (reachable_kept a Hr). Qed.

Lemma logs_and_registry_stay_well_kept_witness :
  well_kept
    (conn (run [StartProject "Alpha" "" 0; StopProject 125000000;
                StartProject "Beta" "" 200000000] initial)).
Proof.
  apply (logs_and_registry_stay_well_kept
           (run [StartProject "Alpha" "" 0; StopProject 125000000;
                 StartProject "Beta" "" 200000000] initial)).
  exists [StartProject "Alpha" "" 0; StopProject 125000000;
          StartProject "Beta" "" 200000000].
  reflexivity.
Defined.

(** X8: in every state a run can reach, the running-project slot is
    either empty (both attributes) or holds the id and the table name of
    one registered project whose log has an open interval. *)
Theorem slot_names_a_running_project (a : app) :
  reachable a -> slot_points a.
Proof. intros Hr. now destruct (reachable_kept a Hr). Qed.

Lemma slot_names_a_running_project_witness :
  slot_points
    (run [StartProject "Alpha" "" 0; StopProject 125000000;
          StartProject "Beta" "" 200000000] initial).
Proof.
  apply (slot_names_a_running_project
           (run [StartProject "Alpha" "" 0; StopProject 125000000;
                 StartProject "Beta" "" 200000000] initial)).
  exists [StartProject "Alpha" "" 0; StopProject 125000000;
          StartProject "Beta" "" 200000000].
  reflexivity.
Defined.

(** X9: in a state a run can reach, none of the four handlers ends with
    the Database Error box: every table they query exists. *)
Theorem handlers_never_report_a_database_error (e : event) (a : app) :
  reachable a -> fst (step e a) <> DatabaseError.
Proof.
  intros Hr. destruct (reachable_facts a Hr) as [Hc [Hs [Hk Hp]]].
  destruct e as [t d now|sel now|now|]; cbn [step].
  - destruct (start_project_cases t d now a Hc)
      as [[_ ->]|[[_ [_ ->]]|[[_ [_ [_ ->]]]|[_ [_ [_ [rows [_ ->]]]]]]]];
      discriminate.
  - unfold start_recording.
    destruct sel as [title|]; [|discriminate].
    destruct (String.eqb title no_available_projects); [discriminate|].
    destruct (select_master_by_title title (conn a)) as [p|] eqn:Ep;
      [|discriminate].
    apply select_by_title_Some in Ep as [Hin _].
    destruct (registered_table _ _ Hc Hin) as [rows [-> Hf]].
    destruct (0 <? count_open rows)%nat; [discriminate|].
    unfold insert_log. rewrite Hf. discriminate.
  - destruct (current_project_id a) as [pid|] eqn:Hid.
    + destruct (stop_project_reachable now a pid Hr Hid)
        as [tbl [rows [e [p [_ [_ [_ [_ [_ [_ ->]]]]]]]]]].
      discriminate.
    + destruct (stop_project_idle now a Hr Hid) as [_ ->]. discriminate.
  - unfold restart, check_open_projects. cbn [conn current_project_id].
    rewrite open_projects_filter.
    + destruct (List.filter _ _); discriminate.
    + intros p Hin. now destruct (In_row_ok _ _ Hc Hin) as [_ [_ [_ Hf]]].
Qed.

Lemma handlers_never_report_a_database_error_witness :
  fst (step (StartRecording (Some "Alpha") 300000000)
         (run [StartProject "Alpha" "" 0; StopProject 125000000] initial))
  <> DatabaseError.
Proof.
  apply (handlers_never_report_a_database_error
           (StartRecording (Some "Alpha") 300000000)
           (run [StartProject "Alpha" "" 0; StopProject 125000000] initial)).
  exists [StartProject "Alpha" "" 0; StopProject 125000000]. reflexivity.
Defined.

(** ** The row a stop closes *)

Lemma ids_split (before after : list Log.row) (e : Log.row) :
  ids_increasing (before ++ e :: after) ->
  Forall (fun r => Log.id r < Log.id e) before /\
  Forall (fun r => Log.id e < Log.id r) after.
Proof.
  unfold ids_increasing. induction before as [|x before IH]; cbn [List.app map].
  - intros H. inversion H as [|? ? _ Hall]; subst. split; [constructor|].
    rewrite Forall_map in Hall. exact Hall.
  - intros H. inversion H as [|? ? Hs Hall]; subst.
    destruct (IH Hs) as [H1 H2]. split; [|exact H2].
    constructor; [|exact H1].
    rewrite map_app in Hall. apply Forall_app in Hall as [_ Hall].
    now inversion Hall.
Qed.

Lemma ids_prefix (l l' : list Log.row) :
  ids_increasing (l ++ l') -> ids_increasing l.
Proof.
  unfold ids_increasing. induction l as [|x l IH]; cbn [List.app map].
  - constructor.
  - intros H. inversion H as [|? ? Hs Hall]; subst. constructor; [auto|].
    rewrite map_app in Hall. now apply Forall_app in Hall as [Hall _].
Qed.

Lemma select_last_open_snoc (l : list Log.row) (x : Log.row) :
  select_last_open (l ++ [x]) =
  if Log.is_open x then
    match select_last_open l with
    | Some b => if Log.id b <? Log.id x then Some x else Some b
    | None => Some x
    end
  else select_last_open l.
Proof.
  unfold select_last_open. rewrite fold_left_app. cbn [fold_left].
  destruct (Log.is_open x); [|reflexivity].
  now destruct (fold_left _ l None).
Qed.

Lemma last_open_split (rows : list Log.row) (e : Log.row) :
  ids_increasing rows -> select_last_open rows = Some e ->
  exists before after,
    rows = (before ++ e :: after)%list /\ existsb Log.is_open after = false.
Proof.
  induction rows as [|x l IH] using rev_ind; [discriminate|].
  intros Hs. rewrite select_last_open_snoc.
  destruct (Log.is_open x) eqn:Ex.
  - assert (Hx : Some x = Some e -> exists before after,
              (l ++ [x])%list = (before ++ e :: after)%list /\
              existsb Log.is_open after = false).
    { intros [= <-]. exists l, []. auto. }
    destruct (select_last_open l) as [b|] eqn:Eb; [|exact Hx].
    apply select_last_open_In in Eb as [Hb _].
    destruct (in_split _ _ Hb) as [l1 [l2 ->]].
    rewrite <- app_assoc in Hs. cbn [List.app] in Hs.
    apply ids_split in Hs as [_ Hs].
    apply Forall_app in Hs as [_ Hs]. inversion Hs as [|? ? Hlt _]; subst.
    apply Z.ltb_lt in Hlt. rewrite Hlt. exact Hx.
  - intros He. destruct (IH (ids_prefix _ _ Hs) He) as [before [after [-> Ha]]].
    exists before, (after ++ [x])%list. split.
    + now rewrite <- app_assoc.
    + rewrite existsb_app, Ha. cbn. now rewrite Ex.
Qed.

Lemma map_fixed {A : Type} (g : A -> A) (l : list A) :
  Forall (fun r => g r = r) l -> map g l = l.
Proof. induction 1; cbn [map]; congruence. Qed.

Lemma stop_rows_split (before after : list Log.row) (e : Log.row) (now : Z) :
  ids_increasing (before ++ e :: after) ->
  stop_rows e now (before ++ e :: after) =
  (before ++ stopped_row e now (before ++ e :: after) :: after)%list.
Proof.
  intros Hs. destruct (ids_split _ _ _ Hs) as [H1 H2].
  unfold stop_rows. cbv zeta. rewrite map_app. cbn [map].
  rewrite Z.eqb_refl. f_equal; [|f_equal].
  - apply map_fixed. eapply Forall_impl; [|exact H1]. intros r Hr. cbv beta in *.
    destruct (Log.id r =? Log.id e) eqn:E; [|reflexivity].
    apply Z.eqb_eq in E. lia.
  - apply map_fixed. eapply Forall_impl; [|exact H2]. intros r Hr. cbv beta in *.
    destruct (Log.id r =? Log.id e) eqn:E; [|reflexivity].
    apply Z.eqb_eq in E. lia.
Qed.

(** X10: in a state a run can reach with a project in the slot, a stop
    closes exactly one row of that project's log: its last open row.
    The rows before it and the rows after it (which are all closed) are
    left as they are, and the row itself gets its end time, duration and
    cumulative time. *)
Theorem stop_closes_the_last_open_row (now : Z) (a : app) (tbl : string) :
  reachable a -> current_project_table a = Some tbl ->
  exists before e after,
    select_table tbl (conn a) = Ok (before ++ e :: after)%list /\
    Log.is_open e = true /\ existsb Log.is_open after = false /\
    select_table tbl (conn (snd (stop_project now a))) =
      Ok (before ++ stopped_row e now (before ++ e :: after) :: after)%list.
Proof.
  intros Hr Ht. destruct (reachable_facts a Hr) as [_ [_ [Hk Hp]]].
  destruct (current_project_id a) as [pid|] eqn:Hid.
  - destruct (stop_project_reachable now a pid Hr Hid)
      as [tbl' [rows [e [p [Ht' [_ [_ [_ [Hf [He Hstop]]]]]]]]]].
    assert (tbl' = tbl) by congruence. subst tbl'.
    destruct (well_kept_find _ _ _ Hk Hf) as [_ Hinc].
    destruct (last_open_split rows e Hinc He) as [before [after [-> Ha]]].
    exists before, e, after. repeat split; auto.
    + unfold select_table. now rewrite Hf.
    + now apply select_last_open_In in He.
    + rewrite Hstop. cbn [snd conn]. unfold select_table. cbn [tables].
      rewrite find_replace_same by congruence.
      now rewrite stop_rows_split.
  - destruct (stop_project_idle now a Hr Hid). congruence.
Qed.

Lemma stop_closes_the_last_open_row_witness :
  exists before e after,
    select_table "project_Alpha"
      (conn (run [StartProject "Alpha" "" 0; StopProject 125000000;
                  StartRecording (Some "Alpha") 300000000] initial)) =
      Ok (before ++ e :: after)%list /\
    Log.is_open e = true /\ existsb Log.is_open after = false /\
    select_table "project_Alpha"
      (conn (snd (stop_project 360000000
                    (run [StartProject "Alpha" "" 0; StopProject 125000000;
                          StartRecording (Some "Alpha") 300000000] initial)))) =
      Ok (before ++ stopped_row e 360000000 (before ++ e :: after) :: after)%list.
Proof.
  apply (stop_closes_the_last_open_row 360000000
           (run [StartProject "Alpha" "" 0; StopProject 125000000;
                 StartRecording (Some "Alpha") 300000000] initial)
           "project_Alpha").
  - exists [StartProject "Alpha" "" 0; StopProject 125000000;
            StartRecording (Some "Alpha") 300000000].
    reflexivity.
  - reflexivity.
Defined.

End Reachable.

(** * The project list, the filter box and the records tree *)

Section Views.

Import Sqlite.

Lemma find_by_title (l : list Master.row) (p : Master.row) :
  NoDup (map Master.title l) -> In p l ->
  find (fun q => String.eqb (Master.title q) (Master.title p)) l = Some p.
Proof.
  induction l as [|x l IH]; intros Hnd Hin; [destruct Hin|].
  cbn [map] in Hnd. inversion Hnd as [|? ? Hx Hl]; subst. cbn [find].
  destruct Hin as [->|Hin].
  - now rewrite String.eqb_refl.
  - destruct (String.eqb (Master.title x) (Master.title p)) eqn:E; [|auto].
    apply String.eqb_eq in E. destruct Hx. rewrite E. now apply in_map.
Qed.

Lemma registered_lookup (a : app) (p : Master.row) :
  reachable a -> In p (projects_master (conn a)) ->
  select_master_by_title (Master.title p) (conn a) = Some p /\
  select_master_by_id (Master.id p) (conn a) = Some p /\
  truthy_id (Some (Master.id p)) = true /\
  Master.table_name p = sanitize_table_name (Master.title p) /\
  exists rows, find_table (Master.table_name p) (tables (conn a)) = Some rows.
Proof.
  intros Hr Hin. destruct (reachable_facts a Hr) as [Hc [_ [Hk _]]].
  destruct (In_row_ok _ _ Hc Hin) as [Htn [_ [Hid Hf]]].
  repeat split.
  - apply find_by_title; [exact (titles_unique _ Hk)|exact Hin].
  - apply find_by_id; [exact (ids_unique _ Hc)|exact Hin].
  - cbn [truthy_id]. destruct (Master.id p =? 0) eqn:E; [|reflexivity].
    apply Z.eqb_eq in E. lia.
  - exact Htn.
  - destruct (find_table (Master.table_name p) (tables (conn a))) as [rows|];
      [now exists rows|congruence].
Qed.

(** X11: for every project registered in a state a run can reach, the
    id looked up from its title and the title looked up from its id are
    those of its registry row: the two lookups invert each other. *)
Theorem id_and_title_lookups_agree (a : app) (p : Master.row) :
  reachable a -> In p (projects_master (conn a)) ->
  get_project_id (Master.title p) (conn a) = Some (Master.id p) /\
  get_project_title (Master.id p) (conn a) = Master.title p.
Proof.
  intros Hr Hin.
  destruct (registered_lookup a p Hr Hin) as [H1 [H2 _]].
  unfold get_project_id, get_project_title. now rewrite H1, H2.
Qed.

Lemma id_and_title_lookups_agree_witness :
  get_project_id "Beta"
    (conn (run [StartProject "Alpha" "" 0; StopProject 125000000;
                StartProject "Beta" "b" 200000000] initial)) = Some 2 /\
  get_project_title 2
    (conn (run [StartProject "Alpha" "" 0; StopProject 125000000;
                StartProject "Beta" "b" 200000000] initial)) = "Beta".
Proof.
  apply (id_and_title_lookups_agree
           (run [StartProject "Alpha" "" 0; StopProject 125000000;
                 StartProject "Beta" "b" 200000000] initial)
           (Master.mk 2 "Beta" "b" "project_Beta")).
  - exists [StartProject "Alpha" "" 0; StopProject 125000000;
            StartProject "Beta" "b" 200000000].
    reflexivity.
  - vm_compute. right. now left.
Defined.

(** ** The list of projects to continue *)

Lemma available_projects_filter (db : store) (titles : list string) :
  (forall t, In t titles ->
             find_table (sanitize_table_name t) (tables db) <> None) ->
  available_projects titles db =
  Ok (List.filter
        (fun t => match select_table (sanitize_table_name t) db with
                  | Ok rows => negb (existsb Log.is_open rows)
                  | Raise _ => false
                  end) titles).
Proof.
  induction titles as [|t titles IH]; intros H; cbn [available_projects List.filter].
  - reflexivity.
  - unfold bind. rewrite IH by (intros u Hu; apply H; now right).
    pose proof (H t (or_introl eq_refl)) as Ht. unfold select_table in *.
    destruct (find_table (sanitize_table_name t) (tables db)) as [rows|];
      [|congruence].
    rewrite <- count_open_existsb.
    destruct (count_open rows); reflexivity.
Qed.

Lemma titles_registered (db : store) (t : string) :
  In t (Sql.select_titles_asc db) <->
  exists p, In p (projects_master db) /\ Master.title p = t.
Proof.
  unfold Sql.select_titles_asc. rewrite order_by_asc_In, in_map_iff.
  split; intros [p [H1 H2]]; exists p; auto.
Qed.

Lemma insert_asc_NoDup (t : string) (l : list string) :
  NoDup l -> ~ In t l -> NoDup (Sql.insert_asc t l).
Proof.
  induction l as [|x l IH]; intros Hl Ht; cbn [Sql.insert_asc].
  - repeat constructor. auto.
  - destruct (String.leb t x); [now constructor|].
    inversion Hl as [|? ? Hx Hl']; subst. constructor.
    + rewrite insert_asc_In. intros [->|Hin]; [apply Ht; now left|contradiction].
    + apply IH; [exact Hl'|]. intros Hin. apply Ht. now right.
Qed.

Lemma order_by_asc_NoDup (l : list string) :
  NoDup l -> NoDup (Sql.order_by_asc l).
Proof.
  unfold Sql.order_by_asc. induction 1 as [|x l Hx Hl IH]; cbn [fold_right].
  - constructor.
  - apply insert_asc_NoDup; [exact IH|]. fold (Sql.order_by_asc l).
    now rewrite order_by_asc_In.
Qed.

Lemma idle_titles (a : app) :
  reachable a ->
  exists idle,
    available_projects (Sql.select_titles_asc (conn a)) (conn a) = Ok idle /\
    ascending idle /\ NoDup idle /\
    forall t, In t idle <->
              exists p, In p (projects_master (conn a)) /\ Master.title p = t /\
                        has_open_interval (conn a) p = false.
Proof.
  intros Hr. destruct (reachable_facts a Hr) as [Hc [_ [Hk _]]].
  eexists. split; [|split; [|split]].
  - apply available_projects_filter. intros t Ht.
    apply titles_registered in Ht as [p [Hin <-]].
    destruct (registered_lookup a p Hr Hin) as [_ [_ [_ [<- [rows ->]]]]].
    discriminate.
  - apply ascending_filter, order_by_asc_sorted.
  - apply NoDup_filter, order_by_asc_NoDup. exact (titles_unique _ Hk).
  - intros t. rewrite filter_In, titles_registered. split.
    + intros [[p [Hin <-]] Hidle]. exists p. repeat split; auto.
      destruct (registered_lookup a p Hr Hin) as [_ [_ [_ [Htn _]]]].
      unfold has_open_interval. rewrite Htn.
      destruct (select_table (sanitize_table_name (Master.title p)) (conn a));
        [|reflexivity].
      now apply negb_true_iff in Hidle.
    + intros [p [Hin [<- Ho]]]. split; [now exists p|].
      destruct (registered_lookup a p Hr Hin) as [_ [_ [_ [Htn [rows Hf]]]]].
      unfold has_open_interval in Ho. rewrite Htn in Ho, Hf.
      unfold select_table in *. rewrite Hf in *. now rewrite Ho.
Qed.

(** X12: in a state a run can reach, the list of projects to continue is
    loaded without an error box, is never empty, is in ascending order of
    title without repetition, and holds exactly the titles of the
    registered projects that have no open interval; when there is none it
    holds the placeholder line alone. *)
Theorem project_list_holds_the_idle_projects (a : app) :
  reachable a ->
  let items := snd (load_projects (conn a)) in
  fst (load_projects (conn a)) = Silent /\
  items <> [] /\ ascending items /\ NoDup items /\
  forall t,
    In t items <->
    (exists p, In p (projects_master (conn a)) /\ Master.title p = t /\
               has_open_interval (conn a) p = false) \/
    (t = no_available_projects /\
     forall p, In p (projects_master (conn a)) ->
               has_open_interval (conn a) p = true).
Proof.
  intros Hr. destruct (idle_titles a Hr) as [idle [Hav [Hasc [Hnd Hin]]]].
  cbv zeta. unfold load_projects. rewrite Hav.
  destruct idle as [|t0 idle]; cbn [fst snd].
  - repeat split; try discriminate.
    + repeat constructor.
    + repeat constructor. intros [].
    + intros [<-|[]]. right. split; [reflexivity|].
      intros p Hp. destruct (has_open_interval (conn a) p) eqn:E; [reflexivity|].
      destruct (proj2 (Hin (Master.title p))). now exists p.
    + intros [H|[-> _]]; [|now left]. now apply Hin in H.
  - repeat split; try discriminate; auto.
    + intros H. left. now apply Hin.
    + intros [H|[_ H]]; [now apply Hin|].
      pose proof (proj1 (Hin t0) (or_introl eq_refl)) as [p [Hp [_ Ho]]].
      rewrite (H p Hp) in Ho. discriminate.
Qed.

Lemma project_list_holds_the_idle_projects_witness :
  let a := run [StartProject "Beta" "" 0; StopProject 125000000;
                StartProject "Alpha" "" 200000000; StopProject 260000000;
                StartProject "Gamma" "" 300000000] initial in
  let items := snd (load_projects (conn a)) in
  fst (load_projects (conn a)) = Silent /\
  items <> [] /\ ascending items /\ NoDup items /\
  forall t,
    In t items <->
    (exists p, In p (projects_master (conn a)) /\ Master.title p = t /\
               has_open_interval (conn a) p = false) \/
    (t = no_available_projects /\
     forall p, In p (projects_master (conn a)) ->
               has_open_interval (conn a) p = true).
Proof.
  apply (project_list_holds_the_idle_projects
           (run [StartProject "Beta" "" 0; StopProject 125000000;
                 StartProject "Alpha" "" 200000000; StopProject 260000000;
                 StartProject "Gamma" "" 300000000] initial)).
  exists [StartProject "Beta" "" 0; StopProject 125000000;
          StartProject "Alpha" "" 200000000; StopProject 260000000;
          StartProject "Gamma" "" 300000000].
  reflexivity.
Defined.

(** X13: every line of the loaded project list other than the
    placeholder can be started: [start_recording] on it succeeds,
    and puts the id of the project of that title in the slot. *)
Theorem listed_project_can_be_started (a : app) (t : string) (now : Z) :
  reachable a ->
  In t (snd (load_projects (conn a))) -> t <> no_available_projects ->
  fst (start_recording (Some t) now a) = Started /\
  current_project_id (snd (start_recording (Some t) now a)) =
    get_project_id t (conn a) /\
  get_project_id t (conn a) <> None.
Proof.
  intros Hr Hin Ht. destruct (idle_titles a Hr) as [idle [Hav [_ [_ Hidle]]]].
  unfold load_projects in Hin. rewrite Hav in Hin.
  assert (Hi : In t idle).
  { destruct idle; [|exact Hin]. destruct Hin as [<-|[]]. now destruct Ht. }
  apply Hidle in Hi as [p [Hp [<- Ho]]].
  destruct (registered_lookup a p Hr Hp) as [H1 [_ [_ [_ [rows Hf]]]]].
  unfold has_open_interval, select_table in Ho. rewrite Hf in Ho.
  rewrite (start_recording_idle (Master.title p) now a p rows Ht H1);
    [|unfold select_table; now rewrite Hf|exact Ho].
  unfold get_project_id. rewrite H1. cbn [fst snd current_project_id].
  repeat split. discriminate.
Qed.

Lemma listed_project_can_be_started_witness :
  fst (start_recording (Some "Alpha") 300000000
         (run [StartProject "Alpha" "" 0; StopProject 125000000] initial)) =
    Started /\
  current_project_id
    (snd (start_recording (Some "Alpha") 300000000
            (run [StartProject "Alpha" "" 0; StopProject 125000000] initial))) =
    get_project_id "Alpha"
      (conn (run [StartProject "Alpha" "" 0; StopProject 125000000] initial)) /\
  get_project_id "Alpha"
    (conn (run [StartProject "Alpha" "" 0; StopProject 125000000] initial))
  <> None.
Proof.
  apply (listed_project_can_be_started
           (run [StartProject "Alpha" "" 0; StopProject 125000000] initial)
           "Alpha" 300000000).
  - exists [StartProject "Alpha" "" 0; StopProject 125000000]. reflexivity.
  - vm_compute. now left.
  - vm_compute. discriminate.
Defined.

(** ** The records tree *)

Lemma display_project (a : app) (p : Master.row) :
  reachable a -> In p (projects_master (conn a)) ->
  exists rows,
    select_table (Master.table_name p) (conn a) = Ok rows /\
    display_all_records (Some (Master.id p)) (conn a) =
    (project_records (Master.id p) (Master.title p) (Master.details p) rows,
     Ok (sum_durations (map Log.duration rows) 0)).
Proof.
  intros Hr Hin. destruct (reachable_facts a Hr) as [Hc _].
  destruct (registered_lookup a p Hr Hin) as [_ [H2 [H3 [Htn _]]]].
  destruct (project_total (conn a) p Hc Hin) as [rows [Hsel Htot]].
  exists rows. split; [exact Hsel|].
  unfold display_all_records. rewrite H3, H2, <- Htn, Hsel, Htot. reflexivity.
Qed.

(** X14: every entry of the filter box other than its first one is the
    title of a registered project, and selecting it shows the records
    and the total of that project. *)
Theorem filter_entry_selects_its_project (a : app) (t : string) :
  reachable a ->
  In t (populate_filter_dropdown (conn a)) -> t <> all_projects ->
  exists p, In p (projects_master (conn a)) /\ Master.title p = t /\
            on_filter_select t (conn a) =
            display_all_records (Some (Master.id p)) (conn a).
Proof.
  intros Hr Hin Ht. unfold populate_filter_dropdown in Hin.
  destruct Hin as [<-|Hin]; [now destruct Ht|].
  apply titles_registered in Hin as [p [Hp <-]].
  exists p. repeat split; [exact Hp|].
  destruct (registered_lookup a p Hr Hp) as [H1 [_ [H3 _]]].
  unfold on_filter_select.
  destruct (String.eqb (Master.title p) all_projects) eqn:E;
    [apply String.eqb_eq in E; now destruct Ht|].
  unfold get_project_id. now rewrite H1, H3.
Qed.

Lemma filter_entry_selects_its_project_witness :
  exists p,
    In p (projects_master
            (conn (run [StartProject "Alpha" "" 0; StopProject 125000000;
                        StartProject "Beta" "" 200000000] initial))) /\
    Master.title p = "Beta" /\
    on_filter_select "Beta"
      (conn (run [StartProject "Alpha" "" 0; StopProject 125000000;
                  StartProject "Beta" "" 200000000] initial)) =
    display_all_records (Some (Master.id p))
      (conn (run [StartProject "Alpha" "" 0; StopProject 125000000;
                  StartProject "Beta" "" 200000000] initial)).
Proof.
  apply (filter_entry_selects_its_project
           (run [StartProject "Alpha" "" 0; StopProject 125000000;
                 StartProject "Beta" "" 200000000] initial) "Beta").
  - exists [StartProject "Alpha" "" 0; StopProject 125000000;
            StartProject "Beta" "" 200000000].
    reflexivity.
  - vm_compute. right. right. now left.
  - vm_compute. discriminate.
Defined.

Lemma all_records_concat (a : app) (ps : list Master.row) :
  reachable a -> (forall p, In p ps -> In p (projects_master (conn a))) ->
  all_records ps (conn a) =
  (List.concat (map (fun p => fst (display_all_records (Some (Master.id p)) (conn a)))
               ps), None).
Proof.
  intros Hr. induction ps as [|p ps IH]; intros Hin; cbn [all_records map List.concat].
  - reflexivity.
  - rewrite IH by (intros q Hq; apply Hin; now right).
    pose proof (Hin p (or_introl eq_refl)) as Hp.
    destruct (display_project a p Hr Hp) as [rows [Hsel ->]].
    destruct (registered_lookup a p Hr Hp) as [_ [_ [_ [Htn _]]]].
    rewrite <- Htn, Hsel. reflexivity.
Qed.

(** X15: in a state a run can reach, the unfiltered records tree is the
    filtered trees of the registered projects one after the other, in
    the order of the registry, and it is shown with a total: no error
    box appears. *)
Theorem all_records_are_the_project_views_in_order (a : app) :
  reachable a ->
  exists total,
    display_all_records None (conn a) =
    (List.concat (map (fun p => fst (display_all_records (Some (Master.id p)) (conn a)))
                 (projects_master (conn a))),
     Ok total).
Proof.
  intros Hr. destruct (reachable_facts a Hr) as [Hc _].
  destruct (all_projects_total (conn a) (projects_master (conn a)) Hc)
    as [totals [durations [_ [H2 _]]]]; [auto|].
  exists (sum_durations durations 0).
  unfold display_all_records at 1. cbn [truthy_id].
  rewrite (all_records_concat a _ Hr) by auto.
  unfold update_total_time. cbn [truthy_id]. now rewrite H2.
Qed.

Lemma all_records_are_the_project_views_in_order_witness :
  exists total,
    display_all_records None
      (conn (run [StartProject "Alpha" "" 0; StopProject 125000000;
                  StartProject "Beta" "" 200000000] initial)) =
    (List.concat
       (map (fun p =>
               fst (display_all_records (Some (Master.id p))
                      (conn (run [StartProject "Alpha" "" 0; StopProject 125000000;
                                  StartProject "Beta" "" 200000000] initial))))
            (projects_master
               (conn (run [StartProject "Alpha" "" 0; StopProject 125000000;
                           StartProject "Beta" "" 200000000] initial)))),
     Ok total).
Proof.
  apply (all_records_are_the_project_views_in_order
           (run [StartProject "Alpha" "" 0; StopProject 125000000;
                 StartProject "Beta" "" 200000000] initial)).
  exists [StartProject "Alpha" "" 0; StopProject 125000000;
          StartProject "Beta" "" 200000000].
  reflexivity.
Defined.

Lemma project_records_width (i : Z) (t d : string) (logs : list Log.row) :
  Forall (fun r => List.length r = List.length headers)
         (project_records i t d logs).
Proof.
  unfold project_records. destruct logs as [|l logs].
  - repeat constructor.
  - apply Forall_map. apply Forall_forall. intros r _. reflexivity.
Qed.

Lemma all_records_width (ps : list Master.row) (db : store) :
  Forall (fun r => List.length r = List.length headers) (fst (all_records ps db)).
Proof.
  induction ps as [|p ps IH]; cbn [all_records]; [constructor|].
  destruct (select_table _ db); [|constructor].
  destruct (all_records ps db) as [more failure]. cbn [fst] in *.
  apply Forall_app. split; [apply project_records_width|exact IH].
Qed.

Lemma display_width (f : option Z) (db : store) :
  Forall (fun r => List.length r = List.length headers)
         (fst (display_all_records f db)).
Proof.
  unfold display_all_records. destruct (truthy_id f).
  - destruct (select_master_by_id _ db) as [p|]; [|constructor].
    destruct (select_table _ db); [|constructor].
    apply project_records_width.
  - pose proof (all_records_width (projects_master db) db) as H.
    destruct (all_records (projects_master db) db) as [items [e|]]; exact H.
Qed.

(** X16: exporting all records of the tree that [display_all_records]
    has filled, with or without filter and whatever the store holds,
    always writes a sheet: its columns are the seven headers, its rows
    are the rows of the tree, all of them, and each row has one cell per
    column; with an empty tree the sheet has the headers alone. *)
Theorem exported_sheet_is_the_displayed_table
  (f : option Z) (db : store) (selected : list (list cell)) :
  export_to_excel false (fst (display_all_records f db)) selected =
    Some (header_cells, fst (display_all_records f db)) /\
  Forall (fun r => List.length r = List.length header_cells)
         (fst (display_all_records f db)).
Proof.
  split.
  - unfold export_to_excel, get_records_to_export, prepare_data_for_export.
    cbn [andb]. now destruct (fst (display_all_records f db)).
  - exact (display_width f db).
Qed.

(** X17: in a state a run can reach, the tree filtered on a registered
    project is never empty; each of its rows begins with the id, the
    title and the details of that project; and a row reads In Progress
    in the end-time column exactly when the project has an open
    interval. *)
Theorem project_view_shows_the_project (a : app) (p : Master.row) :
  reachable a -> In p (projects_master (conn a)) ->
  let view := fst (display_all_records (Some (Master.id p)) (conn a)) in
  view <> [] /\
  Forall (fun r => firstn 3 r =
                   [Text (Py.fmt_d (Master.id p)); Text (Master.title p);
                    Text (Master.details p)]) view /\
  (has_open_interval (conn a) p = true <->
   Exists (fun r => nth 4 r (Text "") = Text "In Progress") view).
Proof.
  intros Hr Hin. cbv zeta.
  destruct (display_project a p Hr Hin) as [rows [Hsel ->]]. cbn [fst].
  unfold has_open_interval. rewrite Hsel. unfold project_records.
  destruct rows as [|r0 rows].
  - split; [discriminate|]. split; [repeat constructor|].
    cbn [existsb]. split; [discriminate|].
    intros H. inversion H as [? ? H1|? ? H1]; subst;
      [cbn in H1; discriminate|inversion H1].
  - split; [discriminate|]. split.
    + apply Forall_map. apply Forall_forall. intros r _. reflexivity.
    + rewrite existsb_exists, Exists_exists. split.
      * intros [r [Hr1 Hr2]]. exists (record_cells (Master.id p)
          (Master.title p) (Master.details p) r).
        split; [now apply in_map|].
        unfold Log.is_open in Hr2. cbn [record_cells nth].
        now destruct (Log.end_time r).
      * intros [c [Hc1 Hc2]]. apply in_map_iff in Hc1 as [r [<- Hr1]].
        exists r. split; [exact Hr1|].
        unfold Log.is_open. cbn [record_cells nth] in Hc2.
        now destruct (Log.end_time r).
Qed.

Lemma project_view_shows_the_project_witness :
  let a := run [StartProject "Alpha" "" 0; StopProject 125000000;
                StartRecording (Some "Alpha") 300000000] initial in
  let p := Master.mk 1 "Alpha" "" "project_Alpha" in
  let view := fst (display_all_records (Some (Master.id p)) (conn a)) in
  view <> [] /\
  Forall (fun r => firstn 3 r =
                   [Text (Py.fmt_d (Master.id p)); Text (Master.title p);
                    Text (Master.details p)]) view /\
  (has_open_interval (conn a) p = true <->
   Exists (fun r => nth 4 r (Text "") = Text "In Progress") view).
Proof.
  apply (project_view_shows_the_project
           (run [StartProject "Alpha" "" 0; StopProject 125000000;
                 StartRecording (Some "Alpha") 300000000] initial)
           (Master.mk 1 "Alpha" "" "project_Alpha")).
  - exists [StartProject "Alpha" "" 0; StopProject 125000000;
            StartRecording (Some "Alpha") 300000000].
    reflexivity.
  - vm_compute. now left.
Defined.

(** ** The Running Project tab *)

(** X18: in a state a run can reach, the Running Project tab shows, for
    an occupied slot, the title and the details of the registered
    project whose id is in the slot together with the start time of an
    open row of its log, never N/A; for an empty slot it shows that no
    project runs. No query of it fails. *)
Theorem running_tab_shows_the_slot_project (a : app) (shown : running_label) :
  reachable a ->
  match current_project_id a with
  | None => update_running_project_data_tab a shown = Ok NoProjectRunningLabel
  | Some pid =>
      exists p rows r,
        In p (projects_master (conn a)) /\ Master.id p = pid /\
        select_table (Master.table_name p) (conn a) = Ok rows /\
        In r rows /\ Log.is_open r = true /\
        update_running_project_data_tab a shown =
        Ok (RunningLabel (Master.title p) (Master.details p)
              (Timestamp (Log.start_time r)))
  end.
Proof.
  intros Hr. destruct (reachable_facts a Hr) as [Hc [[Hs1 Hs2] [Hk Hp]]].
  unfold slot_points in Hp. unfold update_running_project_data_tab.
  destruct (current_project_id a) as [pid|] eqn:Hid;
    destruct (current_project_table a) as [tbl|] eqn:Et; try contradiction.
  - destruct Hp as [p [Hin [Hpid [Htbl Ho]]]].
    rewrite Hs1, Hs2. cbn [andb].
    destruct (registered_lookup a p Hr Hin) as [_ [H2 _]].
    rewrite Hpid in H2. rewrite H2.
    unfold has_open_interval in Ho. rewrite Htbl in Ho.
    destruct (select_table tbl (conn a)) as [rows|] eqn:Er; [|discriminate].
    rewrite find_existsb in Ho.
    destruct (find Log.is_open rows) as [r|] eqn:Ef; [|discriminate].
    destruct (find_some _ _ Ef) as [Hr1 Hr2].
    exists p, rows, r. rewrite Htbl. cbn [bind]. rewrite Ef. repeat split; auto.
  - reflexivity.
Qed.

Lemma running_tab_shows_the_slot_project_witness :
  exists p rows r,
    In p (projects_master (conn (run [StartProject "Alpha" "a" 7000000] initial))) /\
    Master.id p = 1 /\
    select_table (Master.table_name p)
      (conn (run [StartProject "Alpha" "a" 7000000] initial)) = Ok rows /\
    In r rows /\ Log.is_open r = true /\
    update_running_project_data_tab
      (run [StartProject "Alpha" "a" 7000000] initial) NoProjectRunningLabel =
    Ok (RunningLabel (Master.title p) (Master.details p)
          (Timestamp (Log.start_time r))).
Proof.
  apply (running_tab_shows_the_slot_project
           (run [StartProject "Alpha" "a" 7000000] initial) NoProjectRunningLabel).
  exists [StartProject "Alpha" "a" 7000000]. reflexivity.
Defined.

End Views.

(** * Cycles and history *)

Section History.

Import Sqlite.

Lemma select_last_open_idle (rows : list Log.row) :
  existsb Log.is_open rows = false -> select_last_open rows = None.
Proof.
  intros H. destruct (select_last_open rows) as [e|] eqn:E; [|reflexivity].
  apply select_last_open_In in E as [Hin Ho].
  assert (existsb Log.is_open rows = true) by (apply existsb_exists; eauto).
  congruence.
Qed.

Lemma single_total (text : string) (v : Z) :
  hms_seconds text = Ok v -> sum_durations [Some text] 0 = v.
Proof.
  intros H. rewrite sum_durations_spec. cbn [map]. rewrite sum_Z_cons.
  rewrite counted_text, H. cbn. lia.
Qed.

(** X19: in a state a run can reach, continuing an idle registered
    project and stopping it again, less than 24 hours after the second it
    was started in and not before it, both succeed, and the total shown
    for that project grows by exactly the whole seconds of the
    interval. *)
Theorem cycle_adds_its_whole_seconds_to_the_total
  (a : app) (p : Master.row) (start stop : Z) :
  reachable a -> In p (projects_master (conn a)) ->
  Master.title p <> no_available_projects ->
  has_open_interval (conn a) p = false ->
  0 <= elapsed start stop < 86400000000 ->
  let a1 := snd (start_recording (Some (Master.title p)) start a) in
  let a2 := snd (stop_project stop a1) in
  fst (start_recording (Some (Master.title p)) start a) = Started /\
  fst (stop_project stop a1) = Stopped /\
  exists total,
    update_total_time (Some (Master.id p)) (conn a) = Ok total /\
    update_total_time (Some (Master.id p)) (conn a2) =
      Ok (total + whole_seconds start stop).
Proof.
  intros Hr Hin Ht Hidle Hd. cbv zeta.
  destruct (reachable_facts a Hr) as [Hc [_ [Hk _]]].
  destruct (registered_lookup a p Hr Hin) as [H1 [_ [_ [Htn [rows Hf]]]]].
  assert (Hsel : select_table (Master.table_name p) (conn a) = Ok rows)
    by (unfold select_table; now rewrite Hf).
  unfold has_open_interval in Hidle. rewrite Hsel in Hidle.
  pose proof (reachable_step (StartRecording (Some (Master.title p)) start) a Hr)
    as Hr1.
  cbn [step] in Hr1.
  rewrite (start_recording_idle _ start a p rows Ht H1 Hsel Hidle) in *.
  cbn [fst snd] in *.
  set (tn := Master.table_name p) in *.
  set (rows1 := (rows ++ [started_row rows start])%list) in *.
  set (a1 := mk_app (mk (projects_master (conn a))
                        (replace_table tn rows1 (tables (conn a))))
                    (Some (Master.id p)) (Some tn)) in *.
  assert (Hf1 : find_table tn (tables (conn a1)) = Some rows1).
  { cbn [a1 conn tables]. apply find_replace_same. congruence. }
  destruct (stop_project_reachable stop a1 (Master.id p) Hr1 eq_refl)
    as [tbl [rows' [e [q [Htbl [_ [_ [_ [Hf' [He Hstop]]]]]]]]]].
  cbn [a1 current_project_table] in Htbl. injection Htbl as <-.
  assert (rows' = rows1) by congruence. subst rows'.
  assert (e = started_row rows start).
  { unfold rows1 in He. rewrite select_last_open_snoc in He.
    cbn [started_row Log.is_open Log.end_time] in He.
    rewrite (select_last_open_idle rows Hidle) in He. congruence. }
  subst e.
  pose proof (reachable_step (StopProject stop) a1 Hr1) as Hr2.
  cbn [step] in Hr2. rewrite Hstop in *. cbn [fst snd] in *.
  split; [reflexivity|]. split; [reflexivity|].
  destruct (project_total (conn a) p Hc Hin) as [rows0 [Hsel0 Htot0]].
  fold tn in Hsel0. assert (rows0 = rows) by congruence. subst rows0.
  exists (sum_durations (map Log.duration rows) 0). split; [exact Htot0|].
  destruct (reachable_facts _ Hr2) as [Hc2 _].
  destruct (project_total _ p Hc2 Hin) as [rows2 [Hsel2 Htot2]].
  rewrite Htot2. f_equal.
  fold tn in Hsel2. unfold select_table in Hsel2. cbn [conn tables] in Hsel2.
  rewrite find_replace_same in Hsel2 by (cbn [a1 conn] in Hf1; congruence).
  injection Hsel2 as <-.
  destruct (well_kept_find _ _ _ Hk Hf) as [_ Hinc].
  unfold rows1. rewrite stop_rows_split by (apply ids_started; exact Hinc).
  rewrite map_app, sum_durations_app. f_equal.
  cbn [map stopped_row Log.duration started_row Log.start_time].
  apply single_total. fold (elapsed start stop).
  rewrite hms_seconds_duration_small by exact Hd. reflexivity.
Qed.

Lemma cycle_adds_its_whole_seconds_to_the_total_witness :
  let a := run [StartProject "Alpha" "" 0; StopProject 125000000] initial in
  let p := Master.mk 1 "Alpha" "" "project_Alpha" in
  let a1 := snd (start_recording (Some (Master.title p)) 300000000 a) in
  let a2 := snd (stop_project 360500000 a1) in
  fst (start_recording (Some (Master.title p)) 300000000 a) = Started /\
  fst (stop_project 360500000 a1) = Stopped /\
  exists total,
    update_total_time (Some (Master.id p)) (conn a) = Ok total /\
    update_total_time (Some (Master.id p)) (conn a2) =
      Ok (total + whole_seconds 300000000 360500000).
Proof.
  apply (cycle_adds_its_whole_seconds_to_the_total
           (run [StartProject "Alpha" "" 0; StopProject 125000000] initial)
           (Master.mk 1 "Alpha" "" "project_Alpha") 300000000 360500000).
  - exists [StartProject "Alpha" "" 0; StopProject 125000000]. reflexivity.
  - vm_compute. now left.
  - vm_compute. discriminate.
  - reflexivity.
  - vm_compute. split; [discriminate|reflexivity].
Defined.

(** ** Closed intervals are history *)

Lemma replace_table_In (n m : string) (r rows found : list Log.row)
  (ts : list (string * list Log.row)) :
  In (m, rows) ts -> find_table n ts = Some found ->
  In (m, rows) (replace_table n r ts) \/
  (rows = found /\ In (m, r) (replace_table n r ts)).
Proof.
  induction ts as [|[m' r'] ts IH]; cbn [In find_table replace_table]; [tauto|].
  destruct (ident_eqb m' n) eqn:E.
  - intros [[= -> ->]|H] [= <-]; cbn [In]; auto.
  - intros [H|H] Hf; cbn [In]; [auto|].
    destruct (IH H Hf) as [H'|[H1 H2]]; auto.
Qed.

Lemma create_In (name : string) (db : store) (t : string * list Log.row) :
  In t (tables db) -> In t (tables (create_table_if_not_exists name db)).
Proof.
  unfold create_table_if_not_exists.
  destruct (find_table name (tables db)); [auto|].
  cbn [tables]. intros H. apply in_or_app. now left.
Qed.

Lemma closed_row_stop_rows (rows : list Log.row) (e r : Log.row) (now : Z) :
  ids_increasing rows -> select_last_open rows = Some e ->
  In r rows -> Log.is_open r = false -> In r (stop_rows e now rows).
Proof.
  intros Hinc He Hin Hr.
  pose proof (select_last_open_In _ _ He) as [_ Ho].
  destruct (last_open_split rows e Hinc He) as [before [after [-> _]]].
  rewrite stop_rows_split by exact Hinc.
  apply in_app_or in Hin as [Hin|[<-|Hin]].
  - apply in_or_app. now left.
  - congruence.
  - apply in_or_app. right. now right.
Qed.

Lemma closed_row_step (e : event) (a : app) (n : string)
  (rows : list Log.row) (r : Log.row) :
  reachable a -> In (n, rows) (tables (conn a)) -> In r rows ->
  Log.is_open r = false ->
  exists rows', In (n, rows') (tables (conn (snd (step e a)))) /\ In r rows'.
Proof.
  intros Hr Hin Hrow Hclosed.
  destruct (reachable_facts a Hr) as [Hc [_ [Hk _]]].
  assert (Hsame : exists rows', In (n, rows') (tables (conn a)) /\ In r rows')
    by (exists rows; auto).
  destruct e as [t d now|sel now|now|]; cbn [step].
  - destruct (start_project_cases t d now a Hc)
      as [[_ ->]|[[_ [_ ->]]|[[_ [_ [_ ->]]]|[_ [_ [_ [rows0 [Hsel ->]]]]]]]];
      try exact Hsame.
    cbn [snd conn tables].
    set (tn := sanitize_table_name (Py.strip t)) in *.
    unfold select_table in Hsel.
    destruct (find_table tn (tables (create_table_if_not_exists tn (conn a))))
      as [found|] eqn:Hf; [|discriminate].
    injection Hsel as ->.
    destruct (replace_table_In tn n (rows0 ++ [started_row rows0 now])%list
                rows rows0 _ (create_In tn (conn a) _ Hin) Hf) as [H|[-> H]].
    + exists rows. auto.
    + eexists. split; [exact H|]. apply in_or_app. now left.
  - unfold start_recording.
    destruct sel as [title|]; [|exact Hsame].
    destruct (String.eqb title no_available_projects); [exact Hsame|].
    destruct (select_master_by_title title (conn a)) as [p|]; [|exact Hsame].
    destruct (select_table (Master.table_name p) (conn a)) as [rows0|] eqn:Hsel;
      [|exact Hsame].
    destruct (0 <? count_open rows0)%nat; [exact Hsame|].
    unfold insert_log. unfold select_table in Hsel.
    destruct (find_table (Master.table_name p) (tables (conn a))) as [found|] eqn:Hf;
      [|discriminate].
    injection Hsel as ->. cbn [snd conn tables].
    destruct (replace_table_In (Master.table_name p) n
                (rows0 ++ [Log.mk (next_rowid (map Log.id rows0)) (strftime now)
                             None None None])%list
                rows rows0 _ Hin Hf) as [H|[-> H]].
    + exists rows. auto.
    + eexists. split; [exact H|]. apply in_or_app. now left.
  - destruct (current_project_id a) as [pid|] eqn:Hid.
    + destruct (stop_project_reachable now a pid Hr Hid)
        as [tbl [rows0 [e [p [_ [_ [_ [_ [Hf [He ->]]]]]]]]]].
      cbn [snd conn tables].
      destruct (replace_table_In tbl n (stop_rows e now rows0) rows rows0 _ Hin Hf)
        as [H|[-> H]].
      * exists rows. auto.
      * eexists. split; [exact H|].
        destruct (well_kept_find _ _ _ Hk Hf) as [_ Hinc].
        now apply closed_row_stop_rows.
    + destruct (stop_project_idle now a Hr Hid) as [_ ->]. exact Hsame.
  - unfold restart, check_open_projects. cbn [conn current_project_id].
    destruct (open_projects _ _) as [[|q l]|]; exact Hsame.
Qed.

(** X20: a closed interval is history: once a row of a log has its end
    time, no later handler call changes or removes it; after any further
    run the same table still holds that row with the same start time,
    end time, duration and cumulative time. *)
Theorem closed_rows_are_never_changed (es : list event) (a : app) (n : string)
  (rows : list Log.row) (r : Log.row) :
  reachable a -> In (n, rows) (tables (conn a)) -> In r rows ->
  Log.is_open r = false ->
  exists rows', In (n, rows') (tables (conn (run es a))) /\ In r rows'.
Proof.
  revert a rows. induction es as [|e es IH]; intros a rows Hr Hin Hrow Hc;
    cbn [run].
  - exists rows. auto.
  - destruct (closed_row_step e a n rows r Hr Hin Hrow Hc) as [rows1 [H1 H2]].
    exact (IH _ rows1 (reachable_step e a Hr) H1 H2 Hc).
Qed.

Lemma closed_rows_are_never_changed_witness :
  exists rows',
    In ("project_Alpha", rows')
       (tables (conn (run [StartRecording (Some "Alpha") 300000000;
                           StopProject 360000000]
                          (run [StartProject "Alpha" "" 0; StopProject 125000000]
                               initial)))) /\
    In (Log.mk 1 0 (Some 125) (Some "0:02:05") (Some "00:02:05")) rows'.
Proof.
  apply (closed_rows_are_never_changed
           [StartRecording (Some "Alpha") 300000000; StopProject 360000000]
           (run [StartProject "Alpha" "" 0; StopProject 125000000] initial)
           "project_Alpha"
           [Log.mk 1 0 (Some 125) (Some "0:02:05") (Some "00:02:05")]).
  - exists [StartProject "Alpha" "" 0; StopProject 125000000]. reflexivity.
  - vm_compute. now left.
  - now left.
  - reflexivity.
Defined.

(** X21: when [start_project] succeeds in a state a run can reach, the
    registry is the one before followed by one new row; the id of that
    row is larger than every id in use; the slot holds it; and its log
    has an open interval: the new project runs at once. *)
Theorem new_project_gets_a_fresh_id_and_runs
  (a : app) (title_entry details_entry : string) (now : Z) :
  reachable a ->
  fst (start_project title_entry details_entry now a) = Started ->
  let a' := snd (start_project title_entry details_entry now a) in
  let p := created_row title_entry details_entry (conn a) in
  projects_master (conn a') = (projects_master (conn a) ++ [p])%list /\
  Forall (fun q => Master.id q < Master.id p) (projects_master (conn a)) /\
  current_project_id a' = Some (Master.id p) /\
  current_project_table a' = Some (Master.table_name p) /\
  has_open_interval (conn a') p = true.
Proof.
  intros Hr Hs. cbv zeta.
  destruct (reachable_facts a Hr) as [Hc _].
  destruct (start_project_cases title_entry details_entry now a Hc)
    as [[_ H]|[[_ [_ H]]|[[_ [_ [_ H]]]|[_ [_ [_ [rows [Hsel H]]]]]]]];
    rewrite H in Hs |- *; try discriminate.
  cbn [snd conn projects_master current_project_id current_project_table].
  repeat split.
  - pose proof (next_rowid_gt (map Master.id (projects_master (conn a)))) as Hgt.
    rewrite Forall_map in Hgt. exact Hgt.
  - unfold has_open_interval, select_table.
    cbn [tables created_row Master.table_name].
    unfold select_table in Hsel.
    destruct (find_table _ (tables (create_table_if_not_exists _ (conn a))))
      eqn:Hf; [|discriminate].
    rewrite find_replace_same by congruence.
    rewrite existsb_app. cbn. apply orb_true_r.
Qed.

Lemma new_project_gets_a_fresh_id_and_runs_witness :
  let a := run [StartProject "Alpha" "" 0; StopProject 125000000] initial in
  let a' := snd (start_project " Beta " "b" 200000000 a) in
  let p := created_row " Beta " "b" (conn a) in
  projects_master (conn a') = (projects_master (conn a) ++ [p])%list /\
  Forall (fun q => Master.id q < Master.id p) (projects_master (conn a)) /\
  current_project_id a' = Some (Master.id p) /\
  current_project_table a' = Some (Master.table_name p) /\
  has_open_interval (conn a') p = true.
Proof.
  apply (new_project_gets_a_fresh_id_and_runs
           (run [StartProject "Alpha" "" 0; StopProject 125000000] initial)
           " Beta " "b" 200000000).
  - exists [StartProject "Alpha" "" 0; StopProject 125000000]. reflexivity.
  - reflexivity.
Defined.

End History.

(** * Totals along a run *)

Section Monotone.

Import Sqlite.

Lemma counted_written (r : Log.row) :
  duration_written r -> 0 <= counted (Log.duration r).
Proof.
  intros [->|[d ->]]; [reflexivity|].
  rewrite counted_text.
  destruct (Z.eq_dec (Timedelta.days d) 0) as [E|E].
  - assert (Hd : 0 <= d < 86400000000).
    { unfold Timedelta.days in E.
      pose proof (Z.div_mod d 86400000000 ltac:(lia)) as H1.
      pose proof (Z.mod_pos_bound d 86400000000 ltac:(lia)) as H2.
      rewrite E in H1. lia. }
    rewrite (hms_seconds_duration_small d Hd).
    destruct (timedelta_small d Hd) as [_ [_ [-> H]]]. lia.
  - now rewrite (hms_seconds_duration_days d E).
Qed.

Lemma log_total_nonneg (rows : list Log.row) :
  Forall duration_written rows -> 0 <= log_total rows.
Proof.
  unfold log_total. induction 1 as [|r rows Hr _ IH]; cbn [map].
  - reflexivity.
  - rewrite sum_Z_cons. pose proof (counted_written r Hr). lia.
Qed.

Lemma log_total_app (l l' : list Log.row) :
  log_total (l ++ l') = log_total l + log_total l'.
Proof. unfold log_total. now rewrite map_app, sum_Z_app. Qed.

Lemma log_total_cons (r : Log.row) (l : list Log.row) :
  log_total (r :: l) = counted (Log.duration r) + log_total l.
Proof. unfold log_total. cbn [map]. now rewrite sum_Z_cons. Qed.

Lemma sum_durations_log_total (rows : list Log.row) :
  sum_durations (map Log.duration rows) 0 = log_total rows.
Proof.
  rewrite sum_durations_spec. unfold log_total. now rewrite map_map.
Qed.

Lemma find_replace_cases (n m : string) (r found y : list Log.row)
  (ts : list (string * list Log.row)) :
  find_table n ts = Some found -> find_table m ts = Some y ->
  find_table m (replace_table n r ts) = Some y \/
  (y = found /\ find_table m (replace_table n r ts) = Some r).
Proof.
  induction ts as [|[m' r'] ts IH]; cbn [find_table replace_table]; [discriminate|].
  destruct (ident_eqb m' n) eqn:En; cbn [find_table].
  - intros [= <-]. destruct (ident_eqb m' m); [|auto].
    intros [= <-]. auto.
  - intros Hn. destruct (ident_eqb m' m); [auto|]. now apply IH.
Qed.

Lemma find_create (name m : string) (db : store) (y : list Log.row) :
  find_table m (tables db) = Some y ->
  find_table m (tables (create_table_if_not_exists name db)) = Some y.
Proof.
  intros H. unfold create_table_if_not_exists.
  destruct (find_table name (tables db)); [exact H|].
  cbn [tables]. now rewrite find_table_app, H.
Qed.

Lemma log_total_started (rows : list Log.row) (now : Z) :
  log_total (rows ++ [started_row rows now]) = log_total rows.
Proof.
  rewrite log_total_app, log_total_cons. cbn. lia.
Qed.

Lemma log_total_stop_rows (rows : list Log.row) (e : Log.row) (now : Z) :
  ids_increasing rows -> log_ok rows -> select_last_open rows = Some e ->
  log_total rows <= log_total (stop_rows e now rows).
Proof.
  intros Hinc Hok He.
  pose proof (select_last_open_In _ _ He) as [Hin Ho].
  unfold log_ok in Hok. rewrite Forall_forall in Hok.
  pose proof (Hok e Hin Ho) as Hd.
  destruct (last_open_split rows e Hinc He) as [before [after [-> _]]].
  rewrite stop_rows_split by exact Hinc.
  rewrite !log_total_app, !log_total_cons, Hd.
  assert (0 <= counted (Log.duration
                          (stopped_row e now (before ++ e :: after)))).
  { apply counted_written. right. eexists. reflexivity. }
  change (counted None) with 0. lia.
Qed.

Lemma log_total_step (e : event) (a : app) (m : string) (rows : list Log.row) :
  reachable a -> find_table m (tables (conn a)) = Some rows ->
  exists rows',
    find_table m (tables (conn (snd (step e a)))) = Some rows' /\
    log_total rows <= log_total rows'.
Proof.
  intros Hr Hm. destruct (reachable_facts a Hr) as [Hc [_ [Hk _]]].
  assert (Hsame : exists rows', find_table m (tables (conn a)) = Some rows' /\
                                log_total rows <= log_total rows')
    by (exists rows; split; [exact Hm|lia]).
  destruct e as [t d now|sel now|now|]; cbn [step].
  - destruct (start_project_cases t d now a Hc)
      as [[_ ->]|[[_ [_ ->]]|[[_ [_ [_ ->]]]|[_ [_ [_ [rows0 [Hsel ->]]]]]]]];
      try exact Hsame.
    cbn [snd conn tables].
    set (tn := sanitize_table_name (Py.strip t)) in *.
    unfold select_table in Hsel.
    destruct (find_table tn (tables (create_table_if_not_exists tn (conn a))))
      as [found|] eqn:Hf; [|discriminate].
    injection Hsel as ->.
    destruct (find_replace_cases tn m (rows0 ++ [started_row rows0 now])%list
                rows0 rows _ Hf (find_create tn m (conn a) rows Hm))
      as [H|[-> H]].
    + exists rows. split; [exact H|lia].
    + eexists. split; [exact H|]. rewrite log_total_started. lia.
  - unfold start_recording.
    destruct sel as [title|]; [|exact Hsame].
    destruct (String.eqb title no_available_projects); [exact Hsame|].
    destruct (select_master_by_title title (conn a)) as [p|]; [|exact Hsame].
    destruct (select_table (Master.table_name p) (conn a)) as [rows0|] eqn:Hsel;
      [|exact Hsame].
    destruct (0 <? count_open rows0)%nat; [exact Hsame|].
    unfold insert_log. unfold select_table in Hsel.
    destruct (find_table (Master.table_name p) (tables (conn a))) as [found|] eqn:Hf;
      [|discriminate].
    injection Hsel as ->. cbn [snd conn tables].
    destruct (find_replace_cases (Master.table_name p) m
                (rows0 ++ [started_row rows0 now])%list rows0 rows _ Hf Hm)
      as [H|[-> H]].
    + exists rows. split; [exact H|lia].
    + eexists. split; [exact H|]. rewrite log_total_started. lia.
  - destruct (current_project_id a) as [pid|] eqn:Hid.
    + destruct (stop_project_reachable now a pid Hr Hid)
        as [tbl [rows0 [e [p [_ [_ [_ [_ [Hf [He ->]]]]]]]]]].
      cbn [snd conn tables].
      destruct (find_replace_cases tbl m (stop_rows e now rows0) rows0 rows _ Hf Hm)
        as [H|[-> H]].
      * exists rows. split; [exact H|lia].
      * eexists. split; [exact H|].
        destruct (well_kept_find _ _ _ Hk Hf) as [_ Hinc].
        apply log_total_stop_rows; auto. exact (consistent_find _ _ _ Hc Hf).
    + destruct (stop_project_idle now a Hr Hid) as [_ ->]. exact Hsame.
  - unfold restart, check_open_projects. cbn [conn current_project_id].
    destruct (open_projects _ _) as [[|q l]|]; exact Hsame.
Qed.

Lemma reachable_run (es : list event) (a : app) :
  reachable a -> reachable (run es a).
Proof.
  revert a. induction es as [|e es IH]; intros a Hr; cbn [run]; [exact Hr|].
  apply IH. now apply reachable_step.
Qed.

Lemma log_total_run (es : list event) (a : app) (m : string)
  (rows : list Log.row) :
  reachable a -> find_table m (tables (conn a)) = Some rows ->
  exists rows',
    find_table m (tables (conn (run es a))) = Some rows' /\
    log_total rows <= log_total rows'.
Proof.
  revert a rows. induction es as [|e es IH]; intros a rows Hr Hm; cbn [run].
  - exists rows. split; [exact Hm|lia].
  - destruct (log_total_step e a m rows Hr Hm) as [rows1 [H1 Hle1]].
    destruct (IH _ rows1 (reachable_step e a Hr) H1) as [rows2 [H2 Hle2]].
    exists rows2. split; [exact H2|lia].
Qed.

Lemma registered_stays (es : list event) (a : app) (p : Master.row) :
  In p (projects_master (conn a)) -> In p (projects_master (conn (run es a))).
Proof.
  revert a. induction es as [|e es IH]; intros a Hin; cbn [run]; [exact Hin|].
  apply IH. destruct (step_registry e a) as [more ->].
  apply in_or_app. now left.
Qed.

Lemma project_total_value (a : app) (p : Master.row) :
  reachable a -> In p (projects_master (conn a)) ->
  exists rows,
    find_table (Master.table_name p) (tables (conn a)) = Some rows /\
    update_total_time (Some (Master.id p)) (conn a) = Ok (log_total rows).
Proof.
  intros Hr Hin. destruct (reachable_facts a Hr) as [Hc _].
  destruct (project_total (conn a) p Hc Hin) as [rows [Hsel Htot]].
  exists rows. rewrite Htot, sum_durations_log_total. split; [|reflexivity].
  unfold select_table in Hsel.
  destruct (find_table (Master.table_name p) (tables (conn a))); congruence.
Qed.

(** X22: the total of a project never decreases: for a project
    registered in a state a run can reach, the total computed with this
    project as filter is at least as large after any further run. *)
Theorem project_total_never_decreases (es : list event) (a : app)
  (p : Master.row) :
  reachable a -> In p (projects_master (conn a)) ->
  exists before after,
    update_total_time (Some (Master.id p)) (conn a) = Ok before /\
    update_total_time (Some (Master.id p)) (conn (run es a)) = Ok after /\
    before <= after.
Proof.
  intros Hr Hin.
  destruct (project_total_value a p Hr Hin) as [rows [Hf Ht]].
  destruct (project_total_value (run es a) p (reachable_run es a Hr)
              (registered_stays es a p Hin)) as [rows' [Hf' Ht']].
  destruct (log_total_run es a _ rows Hr Hf) as [rows2 [Hf2 Hle]].
  assert (rows2 = rows') by congruence. subst rows2.
  exists (log_total rows), (log_total rows'). auto.
Qed.

Lemma project_total_never_decreases_witness :
  exists before after,
    update_total_time (Some 1)
      (conn (run [StartProject "Alpha" "" 0; StopProject 125000000] initial)) =
      Ok before /\
    update_total_time (Some 1)
      (conn (run [StartRecording (Some "Alpha") 300000000; StopProject 360000000]
                 (run [StartProject "Alpha" "" 0; StopProject 125000000] initial))) =
      Ok after /\
    before <= after.
Proof.
  apply (project_total_never_decreases
           [StartRecording (Some "Alpha") 300000000; StopProject 360000000]
           (run [StartProject "Alpha" "" 0; StopProject 125000000] initial)
           (Master.mk 1 "Alpha" "" "project_Alpha")).
  - exists [StartProject "Alpha" "" 0; StopProject 125000000]. reflexivity.
  - vm_compute. now left.
Defined.

Lemma global_total_value (a : app) (ps : list Master.row) :
  reachable a -> (forall p, In p ps -> In p (projects_master (conn a))) ->
  exists durations,
    all_durations (map Master.table_name ps) (conn a) = Ok durations /\
    sum_durations durations 0 =
    sum_Z (map (fun p => match find_table (Master.table_name p)
                                 (tables (conn a)) with
                         | Some rows => log_total rows
                         | None => 0
                         end) ps).
Proof.
  intros Hr. destruct (reachable_facts a Hr) as [Hc _].
  induction ps as [|p ps IH]; intros Hin; cbn [map all_durations].
  - exists []. auto.
  - destruct IH as [ds [H1 H2]]; [intros q Hq; apply Hin; now right|].
    destruct (registered_table _ p Hc (Hin p (or_introl eq_refl)))
      as [rows [Hsel Hf]].
    rewrite Hsel, H1. cbn [bind]. eexists. split; [reflexivity|].
    rewrite sum_durations_app, H2, sum_Z_cons, Hf, sum_durations_log_total.
    reflexivity.
Qed.

Lemma sum_Z_pointwise {A : Type} (f g : A -> Z) (l : list A) :
  (forall x, In x l -> f x <= g x) -> sum_Z (map f l) <= sum_Z (map g l).
Proof.
  induction l as [|x l IH]; intros H; cbn [map]; [reflexivity|].
  rewrite !sum_Z_cons.
  pose proof (H x (or_introl eq_refl)).
  assert (sum_Z (map f l) <= sum_Z (map g l))
    by (apply IH; intros y Hy; apply H; now right).
  lia.
Qed.

(** X23: the global total never decreases: in a state a run can reach,
    the total computed without filter is at least as large after any
    further run, whatever projects are created, continued or stopped in
    between. *)
Theorem global_total_never_decreases (es : list event) (a : app) :
  reachable a ->
  exists before after,
    update_total_time None (conn a) = Ok before /\
    update_total_time None (conn (run es a)) = Ok after /\
    before <= after.
Proof.
  intros Hr. pose proof (reachable_run es a Hr) as Hr'.
  destruct (global_total_value a (projects_master (conn a)) Hr) as [ds [H1 H2]];
    [auto|].
  destruct (global_total_value (run es a) (projects_master (conn (run es a))) Hr')
    as [ds' [H1' H2']]; [auto|].
  exists (sum_durations ds 0), (sum_durations ds' 0).
  unfold update_total_time. cbn [truthy_id]. rewrite H1, H1'. cbn [bind].
  repeat split. rewrite H2, H2'.
  assert (Hreg : exists more, projects_master (conn (run es a)) =
                              (projects_master (conn a) ++ more)%list).
  { clear. revert a. induction es as [|e es IH]; intros a; cbn [run].
    - exists []. now rewrite app_nil_r.
    - destruct (IH (snd (step e a))) as [more2 ->].
      destruct (step_registry e a) as [more1 ->].
      exists (more1 ++ more2)%list. now rewrite app_assoc. }
  destruct Hreg as [more Hreg]. rewrite Hreg, map_app, sum_Z_app.
  destruct (reachable_facts _ Hr') as [_ [_ [Hk' _]]].
  assert (Hold : sum_Z (map (fun p => match find_table (Master.table_name p)
                                              (tables (conn a)) with
                                      | Some rows => log_total rows
                                      | None => 0
                                      end) (projects_master (conn a))) <=
                 sum_Z (map (fun p => match find_table (Master.table_name p)
                                              (tables (conn (run es a))) with
                                      | Some rows => log_total rows
                                      | None => 0
                                      end) (projects_master (conn a)))).
  { apply sum_Z_pointwise. intros p Hp.
    destruct (reachable_facts a Hr) as [Hc _].
    destruct (registered_table _ p Hc Hp) as [rows [_ Hf]].
    destruct (log_total_run es a _ rows Hr Hf) as [rows' [Hf' Hle]].
    now rewrite Hf, Hf'. }
  assert (Hnew : 0 <= sum_Z (map (fun p => match find_table (Master.table_name p)
                                              (tables (conn (run es a))) with
                                      | Some rows => log_total rows
                                      | None => 0
                                      end) more)).
  { clear - Hk'. induction more as [|q more IH]; cbn [map]; [reflexivity|].
    rewrite sum_Z_cons.
    destruct (find_table (Master.table_name q) (tables (conn (run es a))))
      as [rows|] eqn:Hf; [|lia].
    pose proof (log_total_nonneg rows (well_kept_written _ _ _ Hk' Hf)). lia. }
  lia.
Qed.

Lemma global_total_never_decreases_witness :
  exists before after,
    update_total_time None
      (conn (run [StartProject "Alpha" "" 0; StopProject 125000000] initial)) =
      Ok before /\
    update_total_time None
      (conn (run [StartProject "Beta" "" 200000000; StopProject 260000000]
                 (run [StartProject "Alpha" "" 0; StopProject 125000000] initial))) =
      Ok after /\
    before <= after.
Proof.
  apply (global_total_never_decreases
           [StartProject "Beta" "" 200000000; StopProject 260000000]
           (run [StartProject "Alpha" "" 0; StopProject 125000000] initial)).
  exists [StartProject "Alpha" "" 0; StopProject 125000000]. reflexivity.
Defined.

End Monotone.

(** * The total label *)

Lemma sapp_cancel (a x y : string) : a ++ x = a ++ y -> x = y.
Proof. induction a as [|c a IH]; cbn; [auto|]. intros [= H]. auto. Qed.

Lemma field_before (sep : ascii) (w : nat) (z z' : Z) (x y : string) :
  numeric sep = false ->
  Py.fmt_0d w z ++ String sep x = Py.fmt_0d w z' ++ String sep y ->
  z = z' /\ x = y.
Proof.
  intros Hsep H.
  pose proof (f_equal (Py.split sep) H) as Hs.
  rewrite !split_app in Hs by (now apply fmt_0d_without).
  injection Hs as Hf _.
  pose proof (int_fmt_0d w z) as Hz. rewrite Hf, int_fmt_0d in Hz.
  injection Hz as <-. split; [reflexivity|].
  apply sapp_cancel in H. now injection H.
Qed.

(** X24: the text of the total label determines the total: two totals
    with the same label are equal, so the hours of the label are never
    wrapped or cut. *)
Theorem total_label_determines_the_total (n n' : Z) :
  total_time_label n = total_time_label n' -> n = n'.
Proof.
  unfold total_time_label, format_time. cbv zeta. intros H.
  apply sapp_cancel in H.
  apply (field_before "h") in H as [Hh H]; [|reflexivity].
  injection H as H.
  apply (field_before "m") in H as [Hm H]; [|reflexivity].
  injection H as H.
  apply (field_before "s") in H as [Hs _]; [|reflexivity].
  pose proof (Z.div_mod n 3600 ltac:(lia)).
  pose proof (Z.div_mod n' 3600 ltac:(lia)).
  pose proof (Z.div_mod (n mod 3600) 60 ltac:(lia)).
  pose proof (Z.div_mod (n' mod 3600) 60 ltac:(lia)).
  lia.
Qed.

Lemma total_label_determines_the_total_witness : 3725 = 3725.
Proof.
  apply (total_label_determines_the_total 3725 3725). reflexivity.
Defined.
